(** * ai-meeting-assistant: the Piper (text-to-speech) and Whisper
      (speech-to-text) services

    A shallow embedding of [services/piper/main.py] and
    [services/whisper/main.py], and the properties of their framing,
    streaming and error-mapping code.

    Conventions of the embedding.
    - A Python [int] is a [Z]; a length or an index of a sequence is a [nat].
    - A Python [bytes] is a [list byte].
    - A Python [str] is the list of its code points ([list N]); [str "abc"]
      writes an ASCII literal.
    - A Python [float] is a binary64 primitive float.
    - A Python exception is a value of [exn]: its class and the text [str(e)]
      gives; code that may raise returns a [result].
    - What the services do not compute themselves (the Piper process, the
      Whisper model, the file system's choice of a temporary name, the text
      of a float) is a field of a record of oracles, over which every theorem
      is quantified. *)

From Stdlib Require Import ZArith List Lia Strings.Byte Ascii String.
From Stdlib Require Import Floats.PrimFloat DecimalString.
From stdpp Require Import base option list gmap.

#[local] Set Warnings "-inexact-float,-abstract-large-number".
Local Open Scope Z_scope.

(** ** Python values *)

Module Py.

Abbreviation bytes := (list byte).
Abbreviation pystr := (list N).

(** An ASCII literal as a Python [str]. *)
Definition str (s : string) : pystr :=
  map N_of_ascii (list_ascii_of_string s).

(** The exception classes the two services meet. [OtherValueError] stands
    for any other subclass of [ValueError] ([UnicodeError],
    [json.JSONDecodeError], ...), by name, and [OtherError] for any other
    subclass of [Exception] that is not a [ValueError]. *)
Inductive exc_class :=
| RuntimeError
| FileNotFoundError
| ValueError
| UnicodeDecodeError
| UnicodeEncodeError
| OtherValueError (name : pystr)
| ZeroDivisionError
| StructError
| TimeoutExpired
| HTTPExceptionClass
| OtherError (name : pystr).

(** An exception: its class and what [str(e)] returns. *)
Record exn := Exn { exc_type : exc_class; exc_str : pystr }.

(** The outcome of code that may raise. *)
Inductive result (A : Type) :=
| Ok (a : A)
| Raise (e : exn).
Arguments Ok {A} a.
Arguments Raise {A} e.

Definition bind {A B} (r : result A) (k : A -> result B) : result B :=
  match r with
  | Ok a => k a
  | Raise e => Raise e
  end.

(** [x in s] on [str]: [x] occurs in [s] as a contiguous run. *)
Fixpoint startswith (x s : pystr) : bool :=
  match x, s with
  | [], _ => true
  | _ :: _, [] => false
  | a :: x', b :: s' => N.eqb a b && startswith x' s'
  end.

Fixpoint contains (x s : pystr) : bool :=
  startswith x s ||
  match s with
  | [] => false
  | _ :: s' => contains x s'
  end.

(** [str.isspace] on one code point: the Unicode white space table of
    CPython. *)
Definition isspace (c : N) : bool :=
  ((9 <=? c) && (c <=? 13) || (28 <=? c) && (c <=? 32) || (c =? 133)
   || (c =? 160) || (c =? 5760) || (8192 <=? c) && (c <=? 8202)
   || (c =? 8232) || (c =? 8233) || (c =? 8239) || (c =? 8287)
   || (c =? 12288))%N.

Fixpoint lstrip (s : pystr) : pystr :=
  match s with
  | [] => []
  | c :: s' => if isspace c then lstrip s' else s
  end.

Definition rstrip (s : pystr) : pystr := rev (lstrip (rev s)).

(** [s.strip()] *)
Definition strip (s : pystr) : pystr := rstrip (lstrip s).

(** [sep.join(parts)] *)
Fixpoint join (sep : pystr) (parts : list pystr) : pystr :=
  match parts with
  | [] => []
  | [p] => p
  | p :: ps => p ++ sep ++ join sep ps
  end.

(** Truth value of a [float]: false for [0.0] and [-0.0] only. *)
Definition float_truthy (x : float) : bool := negb (PrimFloat.eqb x 0%float).

(** [range(0, stop, step)] for a positive [step], and the slice
    [b[i:i+n]]. *)
Definition range0 (stop step : nat) : list nat :=
  map (fun k => (k * step)%nat) (seq 0 (Nat.div (stop + step - 1) step)).

Definition slice {A} (b : list A) (i n : nat) : list A := take n (drop i b).

(** *** UTF-8 *)

Definition byte_of_Z (z : Z) : byte :=
  default x00 (Byte.of_N (Z.to_N (z mod 256))).

Definition Z_of_byte (b : byte) : Z := Z.of_N (Byte.to_N b).

(** [s.encode('utf-8')]: a surrogate code point cannot be encoded. *)
Definition encode_cp (c : N) : option bytes :=
  let z := Z.of_N c in
  if z <? 128 then Some [byte_of_Z z]
  else if z <? 2048 then
    Some [byte_of_Z (192 + z / 64); byte_of_Z (128 + z mod 64)]
  else if z <? 65536 then
    if (55296 <=? z) && (z <=? 57343) then None
    else Some [byte_of_Z (224 + z / 4096); byte_of_Z (128 + (z / 64) mod 64);
               byte_of_Z (128 + z mod 64)]
  else if z <? 1114112 then
    Some [byte_of_Z (240 + z / 262144); byte_of_Z (128 + (z / 4096) mod 64);
          byte_of_Z (128 + (z / 64) mod 64); byte_of_Z (128 + z mod 64)]
  else None.

Fixpoint encode_utf8_opt (s : pystr) : option bytes :=
  match s with
  | [] => Some []
  | c :: s' =>
      match encode_cp c, encode_utf8_opt s' with
      | Some b, Some bs => Some (b ++ bs)
      | _, _ => None
      end
  end.

Definition encode_utf8 (s : pystr) : result bytes :=
  match encode_utf8_opt s with
  | Some b => Ok b
  | None =>
      Raise (Exn UnicodeEncodeError
               (str "'utf-8' codec can't encode character: surrogates not allowed"))
  end.

Definition is_cont (z : Z) : bool := (128 <=? z) && (z <=? 191).

(** [b.decode('utf-8')] with the default, strict error handling: shortest
    forms only, no surrogates, nothing above U+10FFFF. *)
Fixpoint decode_utf8_opt (b : bytes) : option pystr :=
  match b with
  | [] => Some []
  | b0 :: r0 =>
      let z0 := Z_of_byte b0 in
      if z0 <? 128 then cons (Z.to_N z0) <$> decode_utf8_opt r0
      else
        match r0 with
        | [] => None
        | b1 :: r1 =>
            let z1 := Z_of_byte b1 in
            if (194 <=? z0) && (z0 <=? 223) then
              if is_cont z1
              then cons (Z.to_N ((z0 - 192) * 64 + (z1 - 128))) <$> decode_utf8_opt r1
              else None
            else
              match r1 with
              | [] => None
              | b2 :: r2 =>
                  let z2 := Z_of_byte b2 in
                  if (224 <=? z0) && (z0 <=? 239) then
                    if is_cont z1 && is_cont z2
                       && negb ((z0 =? 224) && (z1 <? 160))
                       && negb ((z0 =? 237) && (160 <=? z1))
                    then cons (Z.to_N ((z0 - 224) * 4096 + (z1 - 128) * 64 + (z2 - 128)))
                           <$> decode_utf8_opt r2
                    else None
                  else
                    match r2 with
                    | [] => None
                    | b3 :: r3 =>
                        let z3 := Z_of_byte b3 in
                        if (240 <=? z0) && (z0 <=? 244)
                           && is_cont z1 && is_cont z2 && is_cont z3
                           && negb ((z0 =? 240) && (z1 <? 144))
                           && negb ((z0 =? 244) && (144 <=? z1))
                        then cons (Z.to_N ((z0 - 240) * 262144 + (z1 - 128) * 4096
                                           + (z2 - 128) * 64 + (z3 - 128)))
                               <$> decode_utf8_opt r3
                        else None
                    end
              end
        end
  end.

Definition decode_utf8 (b : bytes) : result pystr :=
  match decode_utf8_opt b with
  | Some s => Ok s
  | None =>
      Raise (Exn UnicodeDecodeError (str "'utf-8' codec can't decode bytes"))
  end.

(** *** [struct.pack] with a little-endian format of [4s], [I] and [H] *)

Inductive fmt := F4s | FI | FH.
Inductive arg := ABytes (b : bytes) | AInt (z : Z).

(** The [w] low bytes of [v], least significant first. *)
Fixpoint le_bytes (w : nat) (v : Z) : bytes :=
  match w with
  | O => []
  | S w' => byte_of_Z v :: le_bytes w' (v / 256)
  end.

(** The unsigned integer a little-endian byte string stands for. *)
Fixpoint le_int (b : bytes) : Z :=
  match b with
  | [] => 0
  | x :: b' => Z_of_byte x + 256 * le_int b'
  end.

(** The range of an [I] and of an [H] field. *)
Definition fits_I (z : Z) : Prop := 0 <= z <= 4294967295.
Definition fits_H (z : Z) : Prop := 0 <= z <= 65535.

Definition struct_error : exn :=
  Exn StructError (str "argument out of range").

(** One field: [I] and [H] refuse a value outside the field's range, [4s]
    cuts or pads its argument to four bytes. *)
Definition pack_field (f : fmt) (a : arg) : result bytes :=
  match f, a with
  | F4s, ABytes b => Ok (take 4 (b ++ replicate 4 x00))
  | FI, AInt z =>
      if (0 <=? z) && (z <=? 4294967295) then Ok (le_bytes 4 z) else Raise struct_error
  | FH, AInt z =>
      if (0 <=? z) && (z <=? 65535) then Ok (le_bytes 2 z) else Raise struct_error
  | _, _ => Raise struct_error
  end.

Fixpoint struct_pack (fs : list fmt) (args : list arg) : result bytes :=
  match fs, args with
  | [], [] => Ok []
  | f :: fs', a :: args' =>
      bind (pack_field f a) (fun b =>
      bind (struct_pack fs' args') (fun bs => Ok (b ++ bs)))
  | _, _ => Raise struct_error
  end.

(** *** Code with effects

    A computation over a state [S] that returns or raises; the state it
    leaves is kept either way. *)

Definition M (S A : Type) : Type := S -> result A * S.

Definition ret {S A} (a : A) : M S A := fun s => (Ok a, s).

Definition raise {S A} (e : exn) : M S A := fun s => (Raise e, s).

Definition lift {S A} (r : result A) : M S A := fun s => (r, s).

Definition mbind {S A B} (m : M S A) (k : A -> M S B) : M S B :=
  fun s =>
    match m s with
    | (Ok a, s') => k a s'
    | (Raise e, s') => (Raise e, s')
    end.

(** [try: m  except ... as e: h e], for a handler [h] that re-raises what its
    clause does not catch. *)
Definition try_except {S A} (m : M S A) (h : exn -> M S A) : M S A :=
  fun s =>
    match m s with
    | (Ok a, s') => (Ok a, s')
    | (Raise e, s') => h e s'
    end.

(** [try: m  finally: c]: [c] runs on every way out of [m]; what it raises
    replaces the outcome of [m]. *)
Definition try_finally {S A} (m : M S A) (c : M S unit) : M S A :=
  fun s =>
    match m s with
    | (r, s') =>
        match c s' with
        | (Ok _, s'') => (r, s'')
        | (Raise e, s'') => (Raise e, s'')
        end
    end.

Notation "x <- m ;; k" := (mbind m (fun x => k))
  (at level 100, m at next level, right associativity).

(** What an endpoint hands back to the framework: a response (sent with
    status 200), or an [HTTPException] that leaves the handler. *)
Inductive http_result (R : Type) :=
| Returned (r : R)
| HTTPException (status_code : Z) (detail : pystr).
Arguments Returned {R} r.
Arguments HTTPException {R} status_code detail.

(** *** What [strip] leaves *)

(** Nothing but white space. *)
Definition all_space (s : pystr) : Prop := Forall (fun c => isspace c = true) s.

(** No white space at either end. *)
Definition trimmed (s : pystr) : Prop :=
  (forall c, head s = Some c -> isspace c = false) /\
  (forall c, last s = Some c -> isspace c = false).

(** *** Facts about bytes, fields and slices *)

Lemma Z_of_byte_range b : 0 <= Z_of_byte b <= 255.
Proof.
  unfold Z_of_byte. pose proof (Byte.to_N_bounded b). lia.
Qed.

Lemma Z_of_byte_of_Z z : Z_of_byte (byte_of_Z z) = z mod 256.
Proof.
  unfold Z_of_byte, byte_of_Z.
  assert (Hr : 0 <= z mod 256 < 256) by (apply Z.mod_pos_bound; lia).
  destruct (Byte.of_N (Z.to_N (z mod 256))) as [b|] eqn:E.
  - apply Byte.to_of_N in E. simpl. rewrite E. lia.
  - apply Byte.of_N_None_iff in E. lia.
Qed.

Lemma length_le_bytes w v : length (le_bytes w v) = w.
Proof.
  revert v. induction w as [|w IH]; intros v; simpl; [reflexivity | by rewrite IH].
Qed.

(** Reading back what was written: a value that fits [w] bytes survives. *)
Lemma le_int_le_bytes w v :
  0 <= v < 256 ^ Z.of_nat w -> le_int (le_bytes w v) = v.
Proof.
  revert v. induction w as [|w IH]; intros v Hv.
  - simpl in *. lia.
  - cbn [le_bytes le_int]. rewrite Z_of_byte_of_Z.
    rewrite IH.
    + pose proof (Z.div_mod v 256). lia.
    + rewrite Nat2Z.inj_succ, Z.pow_succ_r in Hv by lia.
      split; [apply Z.div_pos; lia | apply Z.div_lt_upper_bound; lia].
Qed.

Lemma le_int_I z : fits_I z -> le_int (le_bytes 4 z) = z.
Proof. intros [H0 H1]. apply le_int_le_bytes. simpl. lia. Qed.

Lemma le_int_H z : fits_H z -> le_int (le_bytes 2 z) = z.
Proof. intros [H0 H1]. apply le_int_le_bytes. simpl. lia. Qed.

Lemma pack_field_I z : fits_I z -> pack_field FI (AInt z) = Ok (le_bytes 4 z).
Proof.
  intros [H0 H1]. unfold pack_field.
  destruct (Z.leb_spec 0 z); [|lia]. destruct (Z.leb_spec z 4294967295); [|lia].
  reflexivity.
Qed.

Lemma pack_field_H z : fits_H z -> pack_field FH (AInt z) = Ok (le_bytes 2 z).
Proof.
  intros [H0 H1]. unfold pack_field.
  destruct (Z.leb_spec 0 z); [|lia]. destruct (Z.leb_spec z 65535); [|lia].
  reflexivity.
Qed.

Lemma pack_field_I_raises z : ~ fits_I z -> pack_field FI (AInt z) = Raise struct_error.
Proof.
  intros H. unfold pack_field, fits_I in *.
  destruct (Z.leb_spec 0 z); [|reflexivity].
  destruct (Z.leb_spec z 4294967295); [lia | reflexivity].
Qed.

Lemma pack_field_H_raises z : ~ fits_H z -> pack_field FH (AInt z) = Raise struct_error.
Proof.
  intros H. unfold pack_field, fits_H in *.
  destruct (Z.leb_spec 0 z); [|reflexivity].
  destruct (Z.leb_spec z 65535); [lia | reflexivity].
Qed.

(** The first [n] slices of width [c] tile the first [n * c] elements. *)
Lemma concat_slices {A} (b : list A) (c n : nat) :
  concat (map (fun i => slice b i c) (map (fun k => (k * c)%nat) (seq 0 n)))
  = take (n * c) b.
Proof.
  induction n as [|n IH].
  - reflexivity.
  - rewrite seq_S, !map_app, concat_app, IH. cbn [map concat plus].
    rewrite app_nil_r. unfold slice.
    rewrite take_take_drop. f_equal. lia.
Qed.

(** [b[i:i+c] for i in range(0, len(b), c)] tiles [b] exactly. *)
Lemma concat_range0_slices {A} (b : list A) (c : nat) :
  (0 < c)%nat ->
  concat (map (fun i => slice b i c) (range0 (length b) c)) = b.
Proof.
  intros Hc. unfold range0. rewrite concat_slices.
  apply take_ge.
  pose proof (Nat.div_mod_eq (length b + c - 1) c) as Hd.
  pose proof (Nat.mod_upper_bound (length b + c - 1) c ltac:(lia)) as Hm.
  nia.
Qed.

(** *** Facts about [strip] *)

Lemma rev_reverse {A} (l : list A) : rev l = reverse l.
Proof. unfold reverse. apply rev_alt. Qed.

Lemma lstrip_head s c : head (lstrip s) = Some c -> isspace c = false.
Proof.
  induction s as [|a s IH]; [discriminate|].
  cbn [lstrip]. destruct (isspace a) eqn:E; [exact IH|].
  cbn. intros [= <-]. exact E.
Qed.

Lemma lstrip_split s : exists a, s = a ++ lstrip s /\ all_space a.
Proof.
  induction s as [|c s (a & Ha & Hs)].
  - exists []. split; [reflexivity | constructor].
  - cbn [lstrip]. destruct (isspace c) eqn:E.
    + exists (c :: a). split; [cbn; congruence | by constructor].
    + exists []. split; [reflexivity | constructor].
Qed.

Lemma rstrip_last s c : last (rstrip s) = Some c -> isspace c = false.
Proof.
  unfold rstrip. rewrite rev_reverse, last_reverse. apply lstrip_head.
Qed.

Lemma rstrip_split s : exists b, s = rstrip s ++ b /\ all_space b.
Proof.
  unfold rstrip. destruct (lstrip_split (rev s)) as (a & Ha & Hs).
  exists (rev a). split.
  - rewrite <- rev_app_distr, <- Ha, rev_involutive. reflexivity.
  - unfold all_space in *. rewrite rev_reverse. by apply Forall_reverse.
Qed.

Lemma strip_split s :
  exists a b, s = a ++ strip s ++ b /\ all_space a /\ all_space b.
Proof.
  unfold strip.
  destruct (lstrip_split s) as (a & Ha & Hsa).
  destruct (rstrip_split (lstrip s)) as (b & Hb & Hsb).
  exists a, b. split; [|by split].
  rewrite <- Hb. exact Ha.
Qed.

Lemma strip_trimmed s : trimmed (strip s).
Proof.
  split.
  - intros c Hc. unfold strip in Hc.
    destruct (rstrip_split (lstrip s)) as (b & Hb & _).
    apply (lstrip_head s). rewrite Hb.
    destruct (rstrip (lstrip s)); [discriminate | exact Hc].
  - intros c. apply rstrip_last.
Qed.

End Py.

(** ** services/piper/main.py *)

Module Piper.
Import Py.

(** The module-level configuration, read from the environment at import. *)
Record config := {
  PIPER_PATH : pystr;
  MODEL_PATH : pystr;
  MODEL_CONFIG_PATH : pystr;
  SPEAKER_ID : pystr;
  NOISE_SCALE : float;
  LENGTH_SCALE : float;
  NOISE_W : float;
  SAMPLE_RATE : Z
}.

(** A started Piper process: what [communicate(input)] returns, with the
    exit status it leaves in [returncode]. *)
Record process := {
  communicate : bytes -> bytes * bytes;
  returncode : bytes -> Z
}.

(** What the service asks of its surroundings. [popen] is
    [subprocess.Popen], [run] is [subprocess.run] with its time limit,
    [str_float] and [str_truediv n d] are the texts of a float and of the
    float [n / d], [http_exception_str] is [str] of an [HTTPException],
    [json_dumps_metadata rate n d text] is the (ASCII) bytes of [json.dumps]
    of the metadata of [speak_chunks], whose duration is the float [n / d]. *)
Record os := {
  path_exists : pystr -> bool;
  popen : list pystr -> result process;
  run : list pystr -> result (Z * bytes * bytes);
  str_float : float -> pystr;
  str_truediv : Z -> Z -> pystr;
  http_exception_str : Z -> pystr -> pystr;
  json_dumps_metadata : Z -> Z -> Z -> pystr -> bytes
}.

Definition SPEED_PRESETS : gmap pystr float :=
  <[str "slow" := 1.3%float]>
  (<[str "normal" := 1.0%float]>
  (<[str "fast" := 0.8%float]>
  (<[str "very_fast" := 0.6%float]> ∅))).

Record SpeakRequest := {
  text : pystr;
  speaker_id : option Z;
  speed : option pystr;
  noise_scale : option float;
  noise_w : option float
}.

(** [SpeakRequest(text=text, speed=speed)]: the other fields at their
    defaults. *)
Definition SpeakRequest_of (text : pystr) (speed : pystr) : SpeakRequest :=
  {| text := text; speaker_id := None; speed := Some speed;
     noise_scale := None; noise_w := None |}.

Definition create_wav_header
    (sample_rate num_channels bits_per_sample data_size : Z) : result bytes :=
  let byte_rate := sample_rate * num_channels * bits_per_sample / 8 in
  let block_align := num_channels * bits_per_sample / 8 in
  struct_pack
    [F4s; FI; F4s; F4s; FI; FH; FH; FI; FI; FH; FH; F4s; FI]
    [ABytes (list_byte_of_string "RIFF");
     AInt (36 + data_size);
     ABytes (list_byte_of_string "WAVE");
     ABytes (list_byte_of_string "fmt ");
     AInt 16;
     AInt 1;
     AInt num_channels;
     AInt sample_rate;
     AInt byte_rate;
     AInt block_align;
     AInt bits_per_sample;
     ABytes (list_byte_of_string "data");
     AInt data_size].

(** The fields of a 44-byte header, read back at their offsets. *)
Definition ChunkID (h : bytes) : bytes := slice h 0 4.
Definition ChunkSize (h : bytes) : Z := le_int (slice h 4 4).
Definition Format (h : bytes) : bytes := slice h 8 4.
Definition Subchunk1ID (h : bytes) : bytes := slice h 12 4.
Definition Subchunk1Size (h : bytes) : Z := le_int (slice h 16 4).
Definition AudioFormat (h : bytes) : Z := le_int (slice h 20 2).
Definition NumChannels (h : bytes) : Z := le_int (slice h 22 2).
Definition SampleRate (h : bytes) : Z := le_int (slice h 24 4).
Definition ByteRate (h : bytes) : Z := le_int (slice h 28 4).
Definition BlockAlign (h : bytes) : Z := le_int (slice h 32 2).
Definition BitsPerSample (h : bytes) : Z := le_int (slice h 34 2).
Definition Subchunk2ID (h : bytes) : bytes := slice h 36 4.
Definition Subchunk2Size (h : bytes) : Z := le_int (slice h 40 4).

(** *** Effects: the processes a request starts

    The state threaded through a request is the list of command lines handed
    to [subprocess.Popen] so far, oldest first. *)

Definition trace := list (list pystr).

Record Response := {
  content : bytes;
  media_type : pystr;
  headers : list (pystr * pystr)
}.

(** A [StreamingResponse]: the pieces its body generator yields, in
    emission order. *)
Record StreamingResponse := {
  body_iterator : list bytes;
  stream_media_type : pystr;
  stream_headers : list (pystr * pystr)
}.

Record Health := {
  status : pystr;
  piper_available : bool;
  model_path : pystr;
  sample_rate : Z
}.

(** [str(n)] for an [int]. *)
Definition str_int (z : Z) : pystr := str (NilZero.string_of_int (Z.to_int z)).

(** The header value [inline; filename="speech.wav"]. *)
Definition content_disposition : pystr :=
  str "inline; filename=" ++ [34%N] ++ str "speech.wav" ++ [34%N].

(** [generate_audio]: the header, then the audio in pieces of 4096 bytes. *)
Definition generate_audio (wav_header raw_audio : bytes) : list bytes :=
  let chunk_size := 4096%nat in
  wav_header ::
  map (fun i => slice raw_audio i chunk_size)
      (range0 (length raw_audio) chunk_size).

(** [generate_with_metadata]: the metadata as one JSON line, then the
    audio. *)
Definition generate_with_metadata (metadata raw_audio : bytes) : list bytes :=
  [metadata ++ [x0a]; raw_audio].

Section Service.

Variable cfg : config.
Variable w : os.

Definition spawn (cmd : list pystr) : M trace process :=
  fun t => (popen w cmd, t ++ [cmd]).

(** The command line [synthesize_speech] builds. *)
Definition piper_cmd (length_scale : float) (noise_scale noise_w : option float)
    : list pystr :=
  let _noise_scale := default (NOISE_SCALE cfg) noise_scale in
  let _noise_w := default (NOISE_W cfg) noise_w in
  [PIPER_PATH cfg;
   str "--model"; MODEL_PATH cfg;
   str "--output-raw";
   str "--length-scale"; str_float w length_scale;
   str "--noise-scale"; str_float w _noise_scale;
   str "--noise-w"; str_float w _noise_w]
  ++ (if path_exists w (MODEL_CONFIG_PATH cfg)
      then [str "--config"; MODEL_CONFIG_PATH cfg] else []).

Definition synthesis_failed (error_msg : pystr) : exn :=
  Exn RuntimeError (str "Piper synthesis failed: " ++ error_msg).

Definition executable_not_found : exn :=
  Exn RuntimeError
    (str "Piper executable not found. Please install Piper and set PIPER_PATH.").

(** [stderr.decode('utf-8') if stderr else "Unknown error"] *)
Definition error_msg_of (stderr : bytes) : result pystr :=
  match stderr with
  | [] => Ok (str "Unknown error")
  | _ :: _ => decode_utf8 stderr
  end.

Definition synthesize_speech (text : pystr) (length_scale : float)
    (noise_scale noise_w : option float) : M trace bytes :=
  let cmd := piper_cmd length_scale noise_scale noise_w in
  try_except
    (process <- spawn cmd ;;
     input <- lift (encode_utf8 text) ;;
     let '(audio_data, stderr) := communicate process input in
     if negb (returncode process input =? 0) then
       error_msg <- lift (error_msg_of stderr) ;;
       raise (synthesis_failed error_msg)
     else ret audio_data)
    (fun e =>
       match exc_type e with
       | FileNotFoundError => raise executable_not_found
       | _ => raise e
       end).

Definition health_check : Health :=
  let piper_available :=
    match run w [PIPER_PATH cfg; str "--help"] with
    | Ok _ => true
    | Raise _ => false
    end in
  {| status := if piper_available then str "healthy" else str "degraded";
     piper_available := piper_available;
     model_path := MODEL_PATH cfg;
     sample_rate := SAMPLE_RATE cfg |}.

(** [SPEED_PRESETS.get(request.speed, LENGTH_SCALE)] *)
Definition length_scale_of (speed : option pystr) : float :=
  match speed with
  | Some s => default (LENGTH_SCALE cfg) (SPEED_PRESETS !! s)
  | None => LENGTH_SCALE cfg
  end.

(** [raise HTTPException(status_code=..., detail=...)] inside a [try]. *)
Definition http_exception (status_code : Z) (detail : pystr) : exn :=
  Exn HTTPExceptionClass (http_exception_str w status_code detail).

(** [str(n / d)]: the division raises on a zero divisor. *)
Definition str_of_truediv (n d : Z) : result pystr :=
  if d =? 0 then Raise (Exn ZeroDivisionError (str "division by zero"))
  else Ok (str_truediv w n d).

(** The two [except] clauses every endpoint ends with. *)
Definition to_http_500 {R} (r : result R * trace) : http_result R * trace :=
  match r with
  | (Ok a, t) => (Returned a, t)
  | (Raise e, t) =>
      match exc_type e with
      | RuntimeError => (HTTPException 500 (exc_str e), t)
      | _ => (HTTPException 500 (exc_str e), t)
      end
  end.

(** The [try] block of [speak]. *)
Definition speak_try (request : SpeakRequest) : M trace Response :=
  let length_scale := length_scale_of (speed request) in
  raw_audio <- synthesize_speech (text request) length_scale
                 (noise_scale request) (noise_w request) ;;
  match raw_audio with
  | [] => raise (http_exception 500 (str "No audio data generated"))
  | _ :: _ =>
      wav_header <- lift (create_wav_header (SAMPLE_RATE cfg) 1 16
                            (Z.of_nat (length raw_audio))) ;;
      let wav_data := wav_header ++ raw_audio in
      duration <- lift (str_of_truediv (Z.of_nat (length raw_audio))
                          (SAMPLE_RATE cfg * 2)) ;;
      ret {| content := wav_data;
             media_type := str "audio/wav";
             headers := [(str "Content-Disposition", content_disposition);
                         (str "X-Audio-Duration", duration);
                         (str "X-Sample-Rate", str_int (SAMPLE_RATE cfg))] |}
  end.

Definition speak (request : SpeakRequest) (t : trace)
    : http_result Response * trace :=
  to_http_500 (speak_try request t).

Definition speak_get (text speed : pystr) (t : trace)
    : http_result Response * trace :=
  let request := SpeakRequest_of text speed in
  speak request t.

(** The [try] block of [speak_stream]. *)
Definition speak_stream_try (request : SpeakRequest) : M trace StreamingResponse :=
  let length_scale := length_scale_of (speed request) in
  raw_audio <- synthesize_speech (text request) length_scale
                 (noise_scale request) (noise_w request) ;;
  match raw_audio with
  | [] => raise (http_exception 500 (str "No audio data generated"))
  | _ :: _ =>
      wav_header <- lift (create_wav_header (SAMPLE_RATE cfg) 1 16
                            (Z.of_nat (length raw_audio))) ;;
      ret {| body_iterator := generate_audio wav_header raw_audio;
             stream_media_type := str "audio/wav";
             stream_headers := [(str "Content-Disposition", content_disposition);
                                (str "Transfer-Encoding", str "chunked")] |}
  end.

Definition speak_stream (request : SpeakRequest) (t : trace)
    : http_result StreamingResponse * trace :=
  to_http_500 (speak_stream_try request t).

(** The [try] block of [speak_chunks]. *)
Definition speak_chunks_try (request : SpeakRequest) : M trace StreamingResponse :=
  let length_scale := length_scale_of (speed request) in
  raw_audio <- synthesize_speech (text request) length_scale
                 (noise_scale request) (noise_w request) ;;
  match raw_audio with
  | [] => raise (http_exception 500 (str "No audio data generated"))
  | _ :: _ =>
      _ <- lift (str_of_truediv (Z.of_nat (length raw_audio))
                   (SAMPLE_RATE cfg * 2)) ;;
      ret {| body_iterator :=
               generate_with_metadata
                 (json_dumps_metadata w (SAMPLE_RATE cfg)
                    (Z.of_nat (length raw_audio)) (SAMPLE_RATE cfg * 2)
                    (text request))
                 raw_audio;
             stream_media_type := str "application/octet-stream";
             stream_headers := [] |}
  end.

Definition speak_chunks (request : SpeakRequest) (t : trace)
    : http_result StreamingResponse * trace :=
  match speak_chunks_try request t with
  | (Ok r, t') => (Returned r, t')
  | (Raise e, t') => (HTTPException 500 (exc_str e), t')
  end.

End Service.

(** *** Sample surroundings

    The configuration as the source defaults it, and surroundings in which
    Piper's start is fixed: used where a property is run on a concrete
    request. *)

Definition default_config : config :=
  {| PIPER_PATH := str "piper";
     MODEL_PATH := str "/app/models/en_US-amy-medium.onnx";
     MODEL_CONFIG_PATH := str "/app/models/en_US-amy-medium.onnx.json";
     SPEAKER_ID := str "0";
     NOISE_SCALE := 0.667%float;
     LENGTH_SCALE := 1.0%float;
     NOISE_W := 0.8%float;
     SAMPLE_RATE := 22050 |}.

(** A process that writes [stdout] and [stderr] and exits with [status]. *)
Definition exits (status : Z) (stdout stderr : bytes) : process :=
  {| communicate := fun _ => (stdout, stderr); returncode := fun _ => status |}.

Definition sample_os (started : result process) : os :=
  {| path_exists := fun _ => false;
     popen := fun _ => started;
     run := fun _ => bind started (fun p => Ok (returncode p [], [], []));
     str_float := fun _ => str "1.0";
     str_truediv := fun n d => str_int (n / d);
     http_exception_str := fun c d => str_int c ++ str ": " ++ d;
     json_dumps_metadata := fun _ _ _ _ => list_byte_of_string "{}" |}.

Definition sample_request : SpeakRequest :=
  SpeakRequest_of (str "hi") (str "normal").

(** A configuration whose default length-scale is none of the presets', and
    surroundings that print each float of the presets and of this
    configuration as Python does. *)
Definition slower_config : config :=
  {| PIPER_PATH := str "piper";
     MODEL_PATH := str "/app/models/en_US-amy-medium.onnx";
     MODEL_CONFIG_PATH := str "/app/models/en_US-amy-medium.onnx.json";
     SPEAKER_ID := str "0";
     NOISE_SCALE := 0.667%float;
     LENGTH_SCALE := 1.1%float;
     NOISE_W := 0.8%float;
     SAMPLE_RATE := 22050 |}.

Definition printed (x : float) : pystr :=
  if PrimFloat.eqb x 1.3%float then str "1.3"
  else if PrimFloat.eqb x 1.1%float then str "1.1"
  else if PrimFloat.eqb x 1.0%float then str "1.0"
  else if PrimFloat.eqb x 0.8%float then str "0.8"
  else if PrimFloat.eqb x 0.667%float then str "0.667"
  else if PrimFloat.eqb x 0.6%float then str "0.6"
  else str "0.0".

Definition printing_os (started : result process) : os :=
  {| path_exists := fun _ => false;
     popen := fun _ => started;
     run := fun _ => bind started (fun p => Ok (returncode p [], [], []));
     str_float := printed;
     str_truediv := fun n d => str_int (n / d);
     http_exception_str := fun c d => str_int c ++ str ": " ++ d;
     json_dumps_metadata := fun _ _ _ _ => list_byte_of_string "{}" |}.

(** The 44 bytes of a header, field by field. *)
Definition wav_layout (R C D N : Z) : bytes :=
  list_byte_of_string "RIFF" ++ le_bytes 4 (36 + N)
  ++ list_byte_of_string "WAVE"
  ++ list_byte_of_string "fmt " ++ le_bytes 4 16 ++ le_bytes 2 1
  ++ le_bytes 2 C ++ le_bytes 4 R ++ le_bytes 4 (R * C * D / 8)
  ++ le_bytes 2 (C * D / 8) ++ le_bytes 2 D
  ++ list_byte_of_string "data" ++ le_bytes 4 N.

(** The chunked stream and the whole response of one request both come back,
    and the stream's pieces, put end to end, are the whole response. *)
Definition stream_reassembles (cfg : config) (w : os) (req : SpeakRequest)
    (t : trace) : Prop :=
  exists r s t1 t2,
    speak cfg w req t = (Returned r, t1) /\
    speak_stream cfg w req t = (Returned s, t2) /\
    concat (body_iterator s) = content r.

(** *** The WAV header *)

Lemma create_wav_header_layout R C D N :
  fits_I R -> fits_H C -> fits_H D -> fits_I (36 + N) -> fits_I N ->
  fits_I (R * C * D / 8) -> fits_H (C * D / 8) ->
  create_wav_header R C D N = Ok (wav_layout R C D N).
Proof.
  intros HR HC HD HS HN HB HA.
  unfold create_wav_header. cbn [struct_pack].
  rewrite (pack_field_I _ HS), (pack_field_I _ HN), (pack_field_I _ HR),
    (pack_field_I _ HB), (pack_field_H _ HC), (pack_field_H _ HD),
    (pack_field_H _ HA).
  reflexivity.
Qed.

(** Outside the fields' ranges [struct.pack] raises, and no header comes
    back. *)
Lemma create_wav_header_raises R C D N :
  ~ (fits_I R /\ fits_H C /\ fits_H D /\ fits_I (36 + N) /\ fits_I N /\
     fits_I (R * C * D / 8) /\ fits_H (C * D / 8)) ->
  create_wav_header R C D N = Raise struct_error.
Proof.
  intros H. unfold create_wav_header. cbn [struct_pack pack_field bind take app replicate].
  unfold fits_I, fits_H in H.
  repeat match goal with
  | |- context [if (?a <=? ?b) && (?c <=? ?d) then _ else _] =>
      destruct (Z.leb_spec a b); destruct (Z.leb_spec c d); cbn [andb bind]
  end; try reflexivity.
  exfalso. apply H. lia.
Qed.

(** C1 (as stated, refuted): a PCM length of [2^32 - 36] bytes makes
    [ChunkSize] overflow its 32-bit field; [struct.pack] raises and
    [create_wav_header] produces no header at all. *)
Lemma create_wav_header_overflow :
  create_wav_header 22050 1 16 4294967260 = Raise struct_error /\
  ~ (exists h, create_wav_header 22050 1 16 4294967260 = Ok h).
Proof.
  assert (E : create_wav_header 22050 1 16 4294967260 = Raise struct_error)
    by (vm_compute; reflexivity).
  split; [exact E|].
  intros [h Hh]. rewrite E in Hh. discriminate Hh.
Qed.

(** C1 (amended): whenever every value fits its field (sample rate and byte
    rate in 32 bits, channel count, bit depth and block align in 16 bits,
    [36 + N] in 32 bits), [create_wav_header R C D N] returns a header of 44
    bytes, laid out field by field in little-endian fixed-width order, whose
    [ChunkSize] is [36 + N], whose [Subchunk2Size] is [N], whose byte rate is
    [R * C * D // 8] and whose block align is [C * D // 8]. *)
Theorem create_wav_header_fields (R C D N : Z) :
  fits_I R -> fits_H C -> fits_H D -> 0 <= N -> fits_I (36 + N) ->
  fits_I (R * C * D / 8) -> fits_H (C * D / 8) ->
  exists h,
    create_wav_header R C D N = Ok h /\
    length h = 44%nat /\
    h = list_byte_of_string "RIFF" ++ le_bytes 4 (36 + N)
        ++ list_byte_of_string "WAVE"
        ++ list_byte_of_string "fmt " ++ le_bytes 4 16 ++ le_bytes 2 1
        ++ le_bytes 2 C ++ le_bytes 4 R ++ le_bytes 4 (R * C * D / 8)
        ++ le_bytes 2 (C * D / 8) ++ le_bytes 2 D
        ++ list_byte_of_string "data" ++ le_bytes 4 N /\
    ChunkID h = list_byte_of_string "RIFF" /\
    ChunkSize h = 36 + N /\
    Format h = list_byte_of_string "WAVE" /\
    Subchunk1ID h = list_byte_of_string "fmt " /\
    Subchunk1Size h = 16 /\
    AudioFormat h = 1 /\
    NumChannels h = C /\
    SampleRate h = R /\
    ByteRate h = R * C * D / 8 /\
    BlockAlign h = C * D / 8 /\
    BitsPerSample h = D /\
    Subchunk2ID h = list_byte_of_string "data" /\
    Subchunk2Size h = N.
Proof.
  intros HR HC HD HN0 HS HB HA.
  assert (HN : fits_I N) by (unfold fits_I in *; lia).
  exists (wav_layout R C D N).
  split; [by apply create_wav_header_layout|].
  split; [reflexivity|].
  split; [reflexivity|].
  unfold ChunkID, ChunkSize, Format, Subchunk1ID, Subchunk1Size, AudioFormat,
    NumChannels, SampleRate, ByteRate, BlockAlign, BitsPerSample, Subchunk2ID,
    Subchunk2Size, wav_layout, slice.
  cbn -[byte_of_Z Z.div Z.add Z.mul le_int].
  repeat split.
  - exact (le_int_I _ HS).
  - exact (le_int_H _ HC).
  - exact (le_int_I _ HR).
  - exact (le_int_I _ HB).
  - exact (le_int_H _ HA).
  - exact (le_int_H _ HD).
  - exact (le_int_I _ HN).
Qed.

(** The header of 10000 bytes of mono 16-bit audio at 22050 Hz. *)
Lemma create_wav_header_fields_witness :
  exists h,
    create_wav_header 22050 1 16 10000 = Ok h /\
    length h = 44%nat /\
    h = list_byte_of_string "RIFF" ++ le_bytes 4 (36 + 10000)
        ++ list_byte_of_string "WAVE"
        ++ list_byte_of_string "fmt " ++ le_bytes 4 16 ++ le_bytes 2 1
        ++ le_bytes 2 1 ++ le_bytes 4 22050 ++ le_bytes 4 (22050 * 1 * 16 / 8)
        ++ le_bytes 2 (1 * 16 / 8) ++ le_bytes 2 16
        ++ list_byte_of_string "data" ++ le_bytes 4 10000 /\
    ChunkID h = list_byte_of_string "RIFF" /\
    ChunkSize h = 36 + 10000 /\
    Format h = list_byte_of_string "WAVE" /\
    Subchunk1ID h = list_byte_of_string "fmt " /\
    Subchunk1Size h = 16 /\
    AudioFormat h = 1 /\
    NumChannels h = 1 /\
    SampleRate h = 22050 /\
    ByteRate h = 22050 * 1 * 16 / 8 /\
    BlockAlign h = 1 * 16 / 8 /\
    BitsPerSample h = 16 /\
    Subchunk2ID h = list_byte_of_string "data" /\
    Subchunk2Size h = 10000.
Proof.
  apply (create_wav_header_fields 22050 1 16 10000);
    unfold fits_I, fits_H;
    first [lia | split; apply Z.leb_le; reflexivity].
Defined.

(** *** The chunked stream *)

(** Whatever the header and the audio (the empty one too), the pieces of
    [generate_audio], put end to end, are header then audio. *)
Lemma concat_generate_audio (wav_header raw_audio : bytes) :
  concat (generate_audio wav_header raw_audio) = wav_header ++ raw_audio.
Proof.
  unfold generate_audio. cbn [concat]. f_equal.
  apply concat_range0_slices. lia.
Qed.

(** The piece after the header at position [i] is the audio from byte
    [4096 * i], at most 4096 bytes of it, and it starts inside the audio. *)
Lemma generate_audio_pieces (wav_header raw_audio : bytes) (i : nat) piece :
  generate_audio wav_header raw_audio !! S i = Some piece ->
  piece = slice raw_audio (i * 4096) 4096 /\ (i * 4096 < length raw_audio)%nat.
Proof.
  unfold generate_audio, range0. rewrite lookup_cons_ne_0 by lia. cbn [Nat.pred].
  rewrite map_map. change (map ?f ?l) with (f <$> l).
  rewrite list_lookup_fmap.
  intros H.
  destruct (seq 0 ((length raw_audio + 4096 - 1) `div` 4096) !! i) as [k|] eqn:E;
    [|discriminate].
  apply lookup_seq in E as [-> Hk]. cbn in H. injection H as <-.
  split; [reflexivity|].
  pose proof (Nat.div_mod_eq (length raw_audio + 4096 - 1) 4096) as Hd.
  pose proof (Nat.mod_upper_bound (length raw_audio + 4096 - 1) 4096 ltac:(lia)) as Hm.
  lia.
Qed.

(** The lengths 0, 4095, 4096 and 10000: the header, then 0, 1, 1 and 3
    pieces. *)
Example generate_audio_piece_counts :
  map (fun n => length (generate_audio [] (replicate n x00))) [0; 4095; 4096; 10000]%nat
  = [1; 2; 2; 4]%nat.
Proof. vm_compute. reflexivity. Qed.

Section Facts.

Variable cfg : config.
Variable w : os.

(** *** Synthesis: one process per call *)

Lemma synthesize_speech_trace txt ls ns nw t :
  snd (synthesize_speech cfg w txt ls ns nw t) = t ++ [piper_cmd cfg w ls ns nw].
Proof.
  unfold synthesize_speech, try_except, mbind, spawn, lift, raise, ret.
  destruct (popen w _) as [p|e]; cbn.
  - destruct (encode_utf8 txt) as [input|e]; cbn.
    + destruct (communicate p input) as [audio_data stderr].
      destruct (negb _); cbn; [|reflexivity].
      destruct (error_msg_of stderr) as [msg|e]; cbn; [reflexivity|].
      destruct (exc_type e); reflexivity.
    + destruct (exc_type e); reflexivity.
  - destruct (exc_type e); reflexivity.
Qed.

(** A missing executable: [Popen] raises [FileNotFoundError]. *)
Lemma synthesize_speech_missing txt ls ns nw t e :
  popen w (piper_cmd cfg w ls ns nw) = Raise e ->
  exc_type e = FileNotFoundError ->
  fst (synthesize_speech cfg w txt ls ns nw t) = Raise executable_not_found.
Proof.
  intros Hp He.
  unfold synthesize_speech, try_except, mbind, spawn, lift, raise, ret.
  rewrite Hp. cbn. rewrite He. reflexivity.
Qed.

(** A non-zero exit whose diagnostic output decodes. *)
Lemma synthesize_speech_nonzero txt ls ns nw t p input audio_data stderr msg :
  popen w (piper_cmd cfg w ls ns nw) = Ok p ->
  encode_utf8 txt = Ok input ->
  communicate p input = (audio_data, stderr) ->
  returncode p input <> 0 ->
  error_msg_of stderr = Ok msg ->
  fst (synthesize_speech cfg w txt ls ns nw t) = Raise (synthesis_failed msg).
Proof.
  intros Hp Hi Hc Hr Hm.
  unfold synthesize_speech, try_except, mbind, spawn, lift, raise, ret.
  rewrite Hp. cbn. rewrite Hi. cbn. rewrite Hc.
  destruct (Z.eqb_spec (returncode p input) 0) as [|_]; [contradiction|]. cbn.
  rewrite Hm. reflexivity.
Qed.

(** A non-zero exit whose diagnostic output does not decode: the decoding
    error leaves [synthesize_speech] as it is. *)
Lemma synthesize_speech_nonzero_undecodable txt ls ns nw t p input audio_data stderr e :
  popen w (piper_cmd cfg w ls ns nw) = Ok p ->
  encode_utf8 txt = Ok input ->
  communicate p input = (audio_data, stderr) ->
  returncode p input <> 0 ->
  error_msg_of stderr = Raise e ->
  fst (synthesize_speech cfg w txt ls ns nw t) = Raise e.
Proof.
  intros Hp Hi Hc Hr Hm.
  unfold synthesize_speech, try_except, mbind, spawn, lift, raise, ret.
  rewrite Hp. cbn. rewrite Hi. cbn. rewrite Hc.
  destruct (Z.eqb_spec (returncode p input) 0) as [|_]; [contradiction|]. cbn.
  rewrite Hm. cbn.
  assert (He : exc_type e = UnicodeDecodeError).
  { unfold error_msg_of, decode_utf8 in Hm. destruct stderr; [discriminate|].
    destruct (decode_utf8_opt _); [discriminate|]. by injection Hm as <-. }
  rewrite He. reflexivity.
Qed.

Lemma synthesize_speech_zero txt ls ns nw t p input audio_data stderr :
  popen w (piper_cmd cfg w ls ns nw) = Ok p ->
  encode_utf8 txt = Ok input ->
  communicate p input = (audio_data, stderr) ->
  returncode p input = 0 ->
  fst (synthesize_speech cfg w txt ls ns nw t) = Ok audio_data.
Proof.
  intros Hp Hi Hc Hr.
  unfold synthesize_speech, try_except, mbind, spawn, lift, raise, ret.
  rewrite Hp. cbn. rewrite Hi. cbn. rewrite Hc, Hr. reflexivity.
Qed.

(** The two errors of [synthesize_speech] never coincide. *)
Lemma synthesis_failed_not_missing msg : synthesis_failed msg <> executable_not_found.
Proof. unfold synthesis_failed, executable_not_found. cbn. discriminate. Qed.

(** *** The endpoints *)

Lemma to_http_500_trace {R} (r : result R * trace) : snd (to_http_500 r) = snd r.
Proof.
  destruct r as [[a|e] t]; cbn; [reflexivity|]. destruct (exc_type e); reflexivity.
Qed.

Lemma to_http_500_raise {R} (e : exn) t :
  to_http_500 (R := R) (Raise e, t) = (HTTPException 500 (exc_str e), t).
Proof. cbn. destruct (exc_type e); reflexivity. Qed.

(** Each endpoint starts Piper once, with the length-scale of the request's
    speed. *)
Lemma speak_trace req t :
  snd (speak cfg w req t)
  = t ++ [piper_cmd cfg w (length_scale_of cfg (speed req))
            (noise_scale req) (noise_w req)].
Proof.
  unfold speak. rewrite to_http_500_trace. unfold speak_try, mbind.
  pose proof (synthesize_speech_trace (text req) (length_scale_of cfg (speed req))
                (noise_scale req) (noise_w req) t) as Ht.
  destruct (synthesize_speech _ _ _ _ _ _ t) as [[raw|e] t']; cbn in Ht; subst t';
    [|reflexivity].
  destruct raw as [|b raw]; [reflexivity|].
  unfold lift. destruct (create_wav_header _ _ _ _); [|reflexivity].
  destruct (str_of_truediv _ _ _); reflexivity.
Qed.

Lemma speak_stream_trace req t :
  snd (speak_stream cfg w req t)
  = t ++ [piper_cmd cfg w (length_scale_of cfg (speed req))
            (noise_scale req) (noise_w req)].
Proof.
  unfold speak_stream. rewrite to_http_500_trace. unfold speak_stream_try, mbind.
  pose proof (synthesize_speech_trace (text req) (length_scale_of cfg (speed req))
                (noise_scale req) (noise_w req) t) as Ht.
  destruct (synthesize_speech _ _ _ _ _ _ t) as [[raw|e] t']; cbn in Ht; subst t';
    [|reflexivity].
  destruct raw as [|b raw]; [reflexivity|].
  unfold lift. destruct (create_wav_header _ _ _ _); reflexivity.
Qed.

Lemma speak_chunks_trace req t :
  snd (speak_chunks cfg w req t)
  = t ++ [piper_cmd cfg w (length_scale_of cfg (speed req))
            (noise_scale req) (noise_w req)].
Proof.
  unfold speak_chunks, speak_chunks_try, mbind.
  pose proof (synthesize_speech_trace (text req) (length_scale_of cfg (speed req))
                (noise_scale req) (noise_w req) t) as Ht.
  destruct (synthesize_speech _ _ _ _ _ _ t) as [[raw|e] t']; cbn in Ht; subst t';
    [|reflexivity].
  destruct raw as [|b raw]; [reflexivity|].
  unfold lift. destruct (str_of_truediv _ _ _); reflexivity.
Qed.

Lemma sample_rate_header (n : nat) :
  0 <= SAMPLE_RATE cfg <= 2147483647 ->
  36 + Z.of_nat n <= 4294967295 ->
  create_wav_header (SAMPLE_RATE cfg) 1 16 (Z.of_nat n)
  = Ok (wav_layout (SAMPLE_RATE cfg) 1 16 (Z.of_nat n)).
Proof.
  intros HR HN. apply create_wav_header_layout; unfold fits_I, fits_H; try lia.
  - split; [apply Z.div_pos; lia | apply Z.div_le_upper_bound; lia].
  - change (1 * 16 / 8) with 2. lia.
Qed.

(** What [speak] returns when synthesis gave audio. *)
Lemma speak_returns req t raw t' :
  synthesize_speech cfg w (text req) (length_scale_of cfg (speed req))
    (noise_scale req) (noise_w req) t = (Ok raw, t') ->
  raw <> [] ->
  1 <= SAMPLE_RATE cfg <= 2147483647 ->
  36 + Z.of_nat (length raw) <= 4294967295 ->
  speak cfg w req t =
    (Returned
       {| content := wav_layout (SAMPLE_RATE cfg) 1 16 (Z.of_nat (length raw)) ++ raw;
          media_type := str "audio/wav";
          headers :=
            [(str "Content-Disposition", content_disposition);
             (str "X-Audio-Duration",
              str_truediv w (Z.of_nat (length raw)) (SAMPLE_RATE cfg * 2));
             (str "X-Sample-Rate", str_int (SAMPLE_RATE cfg))] |}, t').
Proof.
  intros Hs Hne HR HN.
  unfold speak, speak_try, mbind. rewrite Hs.
  destruct raw as [|b raw]; [contradiction|].
  unfold lift. rewrite sample_rate_header by lia.
  unfold str_of_truediv.
  destruct (Z.eqb_spec (SAMPLE_RATE cfg * 2) 0) as [Hz|_]; [lia|].
  reflexivity.
Qed.

(** What [speak_stream] returns when synthesis gave audio. *)
Lemma speak_stream_returns req t raw t' :
  synthesize_speech cfg w (text req) (length_scale_of cfg (speed req))
    (noise_scale req) (noise_w req) t = (Ok raw, t') ->
  raw <> [] ->
  0 <= SAMPLE_RATE cfg <= 2147483647 ->
  36 + Z.of_nat (length raw) <= 4294967295 ->
  speak_stream cfg w req t =
    (Returned
       {| body_iterator :=
            generate_audio (wav_layout (SAMPLE_RATE cfg) 1 16 (Z.of_nat (length raw))) raw;
          stream_media_type := str "audio/wav";
          stream_headers :=
            [(str "Content-Disposition", content_disposition);
             (str "Transfer-Encoding", str "chunked")] |}, t').
Proof.
  intros Hs Hne HR HN.
  unfold speak_stream, speak_stream_try, mbind. rewrite Hs.
  destruct raw as [|b raw]; [contradiction|].
  unfold lift. rewrite sample_rate_header by lia. reflexivity.
Qed.

(** Empty audio: both endpoints refuse, with the same error. *)
Lemma speak_empty_audio req t t' :
  synthesize_speech cfg w (text req) (length_scale_of cfg (speed req))
    (noise_scale req) (noise_w req) t = (Ok [], t') ->
  speak cfg w req t
    = (HTTPException 500 (http_exception_str w 500 (str "No audio data generated")), t')
  /\ speak_stream cfg w req t
    = (HTTPException 500 (http_exception_str w 500 (str "No audio data generated")), t').
Proof.
  intros Hs. unfold speak, speak_stream, speak_try, speak_stream_try, mbind.
  rewrite Hs. split; reflexivity.
Qed.

(** What [speak_chunks] returns when synthesis gave audio. *)
Lemma speak_chunks_returns req t raw t' :
  synthesize_speech cfg w (text req) (length_scale_of cfg (speed req))
    (noise_scale req) (noise_w req) t = (Ok raw, t') ->
  raw <> [] ->
  SAMPLE_RATE cfg <> 0 ->
  speak_chunks cfg w req t =
    (Returned
       {| body_iterator :=
            [json_dumps_metadata w (SAMPLE_RATE cfg) (Z.of_nat (length raw))
               (SAMPLE_RATE cfg * 2) (text req) ++ [x0a];
             raw];
          stream_media_type := str "application/octet-stream";
          stream_headers := [] |}, t').
Proof.
  intros Hs Hne HR.
  unfold speak_chunks, speak_chunks_try, mbind. rewrite Hs.
  destruct raw as [|b raw]; [contradiction|].
  unfold lift, str_of_truediv.
  destruct (Z.eqb_spec (SAMPLE_RATE cfg * 2) 0) as [Hz|_]; [lia|].
  reflexivity.
Qed.

End Facts.

(** C2 (as stated, refuted): for a PCM buffer of length 0 neither endpoint
    returns anything to reassemble; [speak] and [speak_stream] both leave with
    an HTTP 500 ("No audio data generated"), so no header and no piece is
    emitted. *)
Lemma empty_audio_never_streams :
  ~ stream_reassembles default_config (sample_os (Ok (exits 0 [] [])))
      sample_request [].
Proof.
  intros (r & s & t1 & t2 & Hr & _).
  vm_compute in Hr. discriminate Hr.
Qed.

(** C2 (amended): for every non-empty PCM buffer that synthesis returns,
    when the configured sample rate is between 1 and 2^31 - 1 and
    [36 + len] fits 32 bits, [speak] returns header ++ PCM, [speak_stream]
    returns the pieces header, PCM[0:4096], PCM[4096:8192], ... in that
    order, and the pieces put end to end are exactly the bytes [speak]
    returns. *)
Theorem stream_pieces_reassemble (cfg : config) (w : os) (req : SpeakRequest)
    (t t' : trace) (raw : bytes) :
  synthesize_speech cfg w (text req) (length_scale_of cfg (speed req))
    (noise_scale req) (noise_w req) t = (Ok raw, t') ->
  raw <> [] ->
  1 <= SAMPLE_RATE cfg <= 2147483647 ->
  36 + Z.of_nat (length raw) <= 4294967295 ->
  exists wav_header r s,
    create_wav_header (SAMPLE_RATE cfg) 1 16 (Z.of_nat (length raw)) = Ok wav_header /\
    length wav_header = 44%nat /\
    speak cfg w req t = (Returned r, t') /\
    content r = wav_header ++ raw /\
    speak_stream cfg w req t = (Returned s, t') /\
    body_iterator s
      = wav_header :: map (fun i => slice raw i 4096) (range0 (length raw) 4096) /\
    concat (body_iterator s) = content r.
Proof.
  intros Hs Hne HR HN.
  eexists _, _, _.
  split; [apply sample_rate_header; [lia | assumption]|].
  split; [reflexivity|].
  split; [apply (speak_returns _ _ _ _ _ _ Hs Hne HR HN)|].
  split; [reflexivity|].
  split; [apply (speak_stream_returns _ _ _ _ _ _ Hs Hne); lia|].
  split; [reflexivity|].
  cbn [body_iterator content]. apply concat_generate_audio.
Qed.

(** Three bytes of audio, under the default configuration. *)
Lemma stream_pieces_reassemble_witness :
  exists wav_header r s,
    create_wav_header 22050 1 16 3 = Ok wav_header /\
    length wav_header = 44%nat /\
    speak default_config (sample_os (Ok (exits 0 [x01; x02; x03] [])))
      sample_request []
    = (Returned r,
       [piper_cmd default_config (sample_os (Ok (exits 0 [x01; x02; x03] [])))
          1.0%float None None]) /\
    content r = wav_header ++ [x01; x02; x03] /\
    speak_stream default_config (sample_os (Ok (exits 0 [x01; x02; x03] [])))
      sample_request []
    = (Returned s,
       [piper_cmd default_config (sample_os (Ok (exits 0 [x01; x02; x03] [])))
          1.0%float None None]) /\
    body_iterator s
      = wav_header :: map (fun i => slice [x01; x02; x03] i 4096) (range0 3 4096) /\
    concat (body_iterator s) = content r.
Proof.
  apply (stream_pieces_reassemble default_config
           (sample_os (Ok (exits 0 [x01; x02; x03] []))) sample_request []
           [piper_cmd default_config (sample_os (Ok (exits 0 [x01; x02; x03] [])))
              1.0%float None None]
           [x01; x02; x03]).
  - reflexivity.
  - discriminate.
  - cbn. lia.
  - cbn. lia.
Defined.

(** *** Speed presets *)

Lemma unknown_speed_lookup (s : pystr) :
  s <> str "slow" -> s <> str "normal" -> s <> str "fast" -> s <> str "very_fast" ->
  SPEED_PRESETS !! s = None.
Proof.
  intros H1 H2 H3 H4. unfold SPEED_PRESETS.
  rewrite !lookup_insert_ne by congruence. apply lookup_empty.
Qed.

(** C5: the preset table sends "slow" to 1.3, "normal" to 1.0, "fast" to 0.8
    and "very_fast" to 0.6, and so does the look-up [speak], [speak_stream]
    and [speak_chunks] make, whatever the configuration: a request with one
    of these speeds starts Piper, once, with the preset's length-scale, which
    is the argument that follows "--length-scale" on the command line. For
    any other speed string the look-up falls back to the configured
    [LENGTH_SCALE] without raising: the endpoints go on to start Piper, once,
    with that length-scale, and whenever that synthesis returns audio that
    fits a header they return their response. *)
Theorem speed_presets_and_default :
  SPEED_PRESETS !! str "slow" = Some 1.3%float /\
  SPEED_PRESETS !! str "normal" = Some 1.0%float /\
  SPEED_PRESETS !! str "fast" = Some 0.8%float /\
  SPEED_PRESETS !! str "very_fast" = Some 0.6%float /\
  (forall cfg : config,
     length_scale_of cfg (Some (str "slow")) = 1.3%float /\
     length_scale_of cfg (Some (str "normal")) = 1.0%float /\
     length_scale_of cfg (Some (str "fast")) = 0.8%float /\
     length_scale_of cfg (Some (str "very_fast")) = 0.6%float) /\
  (forall (cfg : config) (w : os) (req : SpeakRequest) (t : trace) (s : pystr)
          (v : float),
     speed req = Some s ->
     SPEED_PRESETS !! s = Some v ->
     length_scale_of cfg (speed req) = v /\
     snd (speak cfg w req t)
       = t ++ [piper_cmd cfg w v (noise_scale req) (noise_w req)] /\
     snd (speak_stream cfg w req t)
       = t ++ [piper_cmd cfg w v (noise_scale req) (noise_w req)] /\
     snd (speak_chunks cfg w req t)
       = t ++ [piper_cmd cfg w v (noise_scale req) (noise_w req)]) /\
  (forall (cfg : config) (w : os) (length_scale : float)
          (noise_scale noise_w : option float),
     exists rest,
       piper_cmd cfg w length_scale noise_scale noise_w
       = [PIPER_PATH cfg; str "--model"; MODEL_PATH cfg; str "--output-raw";
          str "--length-scale"; str_float w length_scale] ++ rest) /\
  forall (cfg : config) (w : os) (req : SpeakRequest) (t : trace) (s : pystr),
    speed req = Some s ->
    s <> str "slow" -> s <> str "normal" -> s <> str "fast" ->
    s <> str "very_fast" ->
    length_scale_of cfg (speed req) = LENGTH_SCALE cfg /\
    snd (speak cfg w req t)
      = t ++ [piper_cmd cfg w (LENGTH_SCALE cfg) (noise_scale req) (noise_w req)] /\
    snd (speak_stream cfg w req t)
      = t ++ [piper_cmd cfg w (LENGTH_SCALE cfg) (noise_scale req) (noise_w req)] /\
    snd (speak_chunks cfg w req t)
      = t ++ [piper_cmd cfg w (LENGTH_SCALE cfg) (noise_scale req) (noise_w req)] /\
    forall raw t',
      synthesize_speech cfg w (text req) (LENGTH_SCALE cfg)
        (noise_scale req) (noise_w req) t = (Ok raw, t') ->
      raw <> [] ->
      1 <= SAMPLE_RATE cfg <= 2147483647 ->
      36 + Z.of_nat (length raw) <= 4294967295 ->
      exists r s' c,
        speak cfg w req t = (Returned r, t') /\
        speak_stream cfg w req t = (Returned s', t') /\
        speak_chunks cfg w req t = (Returned c, t').
Proof.
  assert (Hslow : SPEED_PRESETS !! str "slow" = Some 1.3%float)
    by (vm_compute; reflexivity).
  assert (Hnormal : SPEED_PRESETS !! str "normal" = Some 1.0%float)
    by (vm_compute; reflexivity).
  assert (Hfast : SPEED_PRESETS !! str "fast" = Some 0.8%float)
    by (vm_compute; reflexivity).
  assert (Hvery : SPEED_PRESETS !! str "very_fast" = Some 0.6%float)
    by (vm_compute; reflexivity).
  split; [exact Hslow|]. split; [exact Hnormal|].
  split; [exact Hfast|]. split; [exact Hvery|].
  split.
  { intros cfg. unfold length_scale_of.
    rewrite Hslow, Hnormal, Hfast, Hvery. repeat split. }
  split.
  { intros cfg w req t s v Hs Hv.
    assert (Hl : length_scale_of cfg (speed req) = v)
      by (unfold length_scale_of; rewrite Hs, Hv; reflexivity).
    split; [exact Hl|].
    split; [rewrite speak_trace, Hl; reflexivity|].
    split; [rewrite speak_stream_trace, Hl; reflexivity|].
    rewrite speak_chunks_trace, Hl. reflexivity. }
  split.
  { intros cfg w length_scale noise_scale noise_w. unfold piper_cmd.
    eexists. cbn [app]. reflexivity. }
  intros cfg w req t s Hs H1 H2 H3 H4.
  assert (Hl : length_scale_of cfg (speed req) = LENGTH_SCALE cfg).
  { unfold length_scale_of. rewrite Hs, unknown_speed_lookup by assumption.
    reflexivity. }
  split; [exact Hl|].
  split; [rewrite speak_trace, Hl; reflexivity|].
  split; [rewrite speak_stream_trace, Hl; reflexivity|].
  split; [rewrite speak_chunks_trace, Hl; reflexivity|].
  intros raw t' Hsyn Hne HR HN. rewrite <- Hl in Hsyn.
  eexists _, _, _. split; [|split].
  - apply (speak_returns _ _ _ _ _ _ Hsyn Hne HR HN).
  - apply (speak_stream_returns _ _ _ _ _ _ Hsyn Hne); lia.
  - apply (speak_chunks_returns _ _ _ _ _ _ Hsyn Hne); lia.
Qed.

(** With the default length-scale 1.1: the speed "slow" puts "1.3" after
    "--length-scale" on Piper's command line, the unknown speed "turbo" puts
    "1.1" there, and the request is answered. *)
Lemma speed_presets_and_default_witness :
  (snd (speak slower_config (printing_os (Ok (exits 0 [x01; x02] [])))
          (SpeakRequest_of (str "hi") (str "slow")) [])
   = [[str "piper"; str "--model"; str "/app/models/en_US-amy-medium.onnx";
       str "--output-raw"; str "--length-scale"; str "1.3";
       str "--noise-scale"; str "0.667"; str "--noise-w"; str "0.8"]] /\
   snd (speak_stream slower_config (printing_os (Ok (exits 0 [x01; x02] [])))
          (SpeakRequest_of (str "hi") (str "slow")) [])
   = [[str "piper"; str "--model"; str "/app/models/en_US-amy-medium.onnx";
       str "--output-raw"; str "--length-scale"; str "1.3";
       str "--noise-scale"; str "0.667"; str "--noise-w"; str "0.8"]] /\
   snd (speak_chunks slower_config (printing_os (Ok (exits 0 [x01; x02] [])))
          (SpeakRequest_of (str "hi") (str "slow")) [])
   = [[str "piper"; str "--model"; str "/app/models/en_US-amy-medium.onnx";
       str "--output-raw"; str "--length-scale"; str "1.3";
       str "--noise-scale"; str "0.667"; str "--noise-w"; str "0.8"]]) /\
  (snd (speak slower_config (printing_os (Ok (exits 0 [x01; x02] [])))
          (SpeakRequest_of (str "hi") (str "turbo")) [])
   = [[str "piper"; str "--model"; str "/app/models/en_US-amy-medium.onnx";
       str "--output-raw"; str "--length-scale"; str "1.1";
       str "--noise-scale"; str "0.667"; str "--noise-w"; str "0.8"]] /\
   exists r s' c t',
     speak slower_config (printing_os (Ok (exits 0 [x01; x02] [])))
       (SpeakRequest_of (str "hi") (str "turbo")) [] = (Returned r, t') /\
     speak_stream slower_config (printing_os (Ok (exits 0 [x01; x02] [])))
       (SpeakRequest_of (str "hi") (str "turbo")) [] = (Returned s', t') /\
     speak_chunks slower_config (printing_os (Ok (exits 0 [x01; x02] [])))
       (SpeakRequest_of (str "hi") (str "turbo")) [] = (Returned c, t')).
Proof.
  pose proof speed_presets_and_default as (Hslow & _ & _ & _ & _ & Hpreset & _ & Hother).
  split.
  - destruct (Hpreset slower_config (printing_os (Ok (exits 0 [x01; x02] [])))
                (SpeakRequest_of (str "hi") (str "slow")) [] (str "slow") 1.3%float
                eq_refl Hslow) as (_ & H1 & H2 & H3).
    split; [exact H1|]. split; [exact H2 | exact H3].
  - destruct (Hother slower_config (printing_os (Ok (exits 0 [x01; x02] [])))
                (SpeakRequest_of (str "hi") (str "turbo")) [] (str "turbo")
                eq_refl ltac:(discriminate) ltac:(discriminate) ltac:(discriminate)
                ltac:(discriminate)) as (_ & H1 & _ & _ & H5).
    split; [exact H1|].
    destruct (H5 [x01; x02] _ eq_refl ltac:(discriminate) ltac:(cbn; lia)
                ltac:(cbn; lia)) as (r & s' & c & Hr & Hs' & Hc).
    exists r, s', c. eexists. split; [exact Hr|]. split; [exact Hs' | exact Hc].
Defined.

(** *** Synthesis errors *)

(** C7 (where the code departs from the claim): Piper exits with status 1
    and writes the single byte 0xFF to stderr. [stderr.decode('utf-8')]
    raises, so [synthesize_speech] fails with a [UnicodeDecodeError] and not
    with the [RuntimeError] "Piper synthesis failed: ..." that carries the
    captured output. One process was started. *)
Theorem synthesize_speech_undecodable_stderr :
  synthesize_speech default_config (sample_os (Ok (exits 1 [] [xff])))
    (str "hi") 1.0%float None None []
  = (Raise (Exn UnicodeDecodeError (str "'utf-8' codec can't decode bytes")),
     [piper_cmd default_config (sample_os (Ok (exits 1 [] [xff])))
        1.0%float None None])
  /\ forall msg,
       Exn UnicodeDecodeError (str "'utf-8' codec can't decode bytes")
       <> synthesis_failed msg.
Proof.
  split; [vm_compute; reflexivity|].
  intros msg. unfold synthesis_failed. discriminate.
Qed.

(** The rest of what C7 says holds: a non-zero exit whose stderr is empty or
    decodes as UTF-8 raises "Piper synthesis failed: " followed by the
    decoded text ("Unknown error" when there is none), a missing executable
    raises the other, different [RuntimeError], and either way exactly one
    process was started. *)
Lemma synthesize_speech_errors (cfg : config) (w : os) txt ls ns nw t :
  (forall p input audio_data stderr msg,
     popen w (piper_cmd cfg w ls ns nw) = Ok p ->
     encode_utf8 txt = Ok input ->
     communicate p input = (audio_data, stderr) ->
     returncode p input <> 0 ->
     error_msg_of stderr = Ok msg ->
     synthesize_speech cfg w txt ls ns nw t
     = (Raise (Exn RuntimeError (str "Piper synthesis failed: " ++ msg)),
        t ++ [piper_cmd cfg w ls ns nw])) /\
  (forall e,
     popen w (piper_cmd cfg w ls ns nw) = Raise e ->
     exc_type e = FileNotFoundError ->
     synthesize_speech cfg w txt ls ns nw t
     = (Raise executable_not_found, t ++ [piper_cmd cfg w ls ns nw])) /\
  (forall msg, synthesis_failed msg <> executable_not_found) /\
  snd (synthesize_speech cfg w txt ls ns nw t) = t ++ [piper_cmd cfg w ls ns nw].
Proof.
  repeat split.
  - intros p input audio_data stderr msg Hp Hi Hc Hr Hm.
    pose proof (synthesize_speech_nonzero cfg w txt ls ns nw t _ _ _ _ _ Hp Hi Hc Hr Hm) as H1.
    pose proof (synthesize_speech_trace cfg w txt ls ns nw t) as H2.
    destruct (synthesize_speech cfg w txt ls ns nw t) as [r t'].
    cbn in H1, H2. by subst.
  - intros e Hp He.
    pose proof (synthesize_speech_missing cfg w txt ls ns nw t _ Hp He) as H1.
    pose proof (synthesize_speech_trace cfg w txt ls ns nw t) as H2.
    destruct (synthesize_speech cfg w txt ls ns nw t) as [r t'].
    cbn in H1, H2. by subst.
  - apply synthesis_failed_not_missing.
  - apply synthesize_speech_trace.
Qed.

(** *** GET /speak *)

(** C9: [speak_get text speed] is [speak] on the request that carries that
    text and speed and leaves speaker id, noise-scale and noise-width unset;
    Piper is started with the configured [NOISE_SCALE] and [NOISE_W]. *)
Theorem speak_get_is_speak (cfg : config) (w : os) (txt spd : pystr) (t : trace) :
  speak_get cfg w txt spd t
  = speak cfg w {| text := txt; speaker_id := None; speed := Some spd;
                   noise_scale := None; noise_w := None |} t
  /\ snd (speak_get cfg w txt spd t)
     = t ++ [[PIPER_PATH cfg;
              str "--model"; MODEL_PATH cfg;
              str "--output-raw";
              str "--length-scale"; str_float w (length_scale_of cfg (Some spd));
              str "--noise-scale"; str_float w (NOISE_SCALE cfg);
              str "--noise-w"; str_float w (NOISE_W cfg)]
             ++ (if path_exists w (MODEL_CONFIG_PATH cfg)
                 then [str "--config"; MODEL_CONFIG_PATH cfg] else [])].
Proof.
  split.
  - reflexivity.
  - unfold speak_get. rewrite speak_trace. reflexivity.
Qed.

(** *** GET /health *)

(** C10: [piper_available] is true exactly when [subprocess.run] of
    [PIPER_PATH --help] returns (whatever the exit status) and false exactly
    when it raises (a missing executable, the elapsed time limit, anything
    else); the status is "healthy" exactly when [piper_available] is true and
    "degraded" exactly when it is false. *)
Theorem health_check_availability (cfg : config) (w : os) :
  (piper_available (health_check cfg w) = true
   <-> exists status stdout stderr,
         run w [PIPER_PATH cfg; str "--help"] = Ok (status, stdout, stderr)) /\
  (piper_available (health_check cfg w) = false
   <-> exists e, run w [PIPER_PATH cfg; str "--help"] = Raise e) /\
  (status (health_check cfg w) = str "healthy"
   <-> piper_available (health_check cfg w) = true) /\
  (status (health_check cfg w) = str "degraded"
   <-> piper_available (health_check cfg w) = false).
Proof.
  unfold health_check. cbn [piper_available status].
  destruct (run w [PIPER_PATH cfg; str "--help"]) as [[[rc out] err]|e].
  - repeat split; try discriminate; try reflexivity.
    + intros _. by exists rc, out, err.
    + intros [e He]. discriminate He.
  - repeat split; try discriminate; try reflexivity.
    + intros (rc & out & err & H). discriminate H.
    + intros _. by exists e.
Qed.

End Piper.

(** ** services/whisper/main.py *)

Module Whisper.
Import Py.

(** *** What faster-whisper hands back

    The fields of the library's [Word], [Segment] and [TranscriptionInfo]
    carry the prefixes [word_], [seg_] and [info_] here. [segments] is the
    generator [model.transcribe] returns: iterating it yields [yielded] and
    then, if [failure] is set, raises. *)

Record Word := {
  word_word : pystr;
  word_start : float;
  word_end : float;
  word_probability : float
}.

Record Segment := {
  seg_start : float;
  seg_end : float;
  seg_text : pystr;
  seg_words : option (list Word)
}.

Record TranscriptionInfo := {
  info_language : pystr;
  info_language_probability : float;
  info_duration : float
}.

Record segments := {
  yielded : list Segment;
  failure : option exn
}.

(** [list(segments)] *)
Definition list_of (s : segments) : result (list Segment) :=
  match failure s with
  | None => Ok (yielded s)
  | Some e => Raise e
  end.

(** The arguments of one [model.transcribe] call; [None] for a keyword the
    call does not pass. *)
Record transcribe_call := {
  call_path : pystr;
  call_beam_size : Z;
  call_language : option pystr;
  call_task : option (option pystr);
  call_word_timestamps : option bool;
  call_vad_filter : bool;
  call_vad_parameters : option (Z * Z)
}.

(** The files that exist, with their contents. *)
Abbreviation files := (gmap pystr bytes).

(** What the service asks of its surroundings: loading the model, the name
    [NamedTemporaryFile(suffix=".wav", delete=False)] picks, the model's
    answer to a call (it may read the files), the text of a float and of the
    JSON object of a segment event. *)
Record env := {
  load_model : result unit;
  mktemp : files -> pystr;
  model_transcribe : files -> transcribe_call -> result (segments * TranscriptionInfo);
  str_float : float -> pystr;
  json_dumps_segment : float -> float -> pystr -> pystr
}.

(** The state a request runs in: the files, and whether the module-level
    [_model] is set. *)
Record state := {
  fs : files;
  _model : bool
}.

(** *** The response models *)

Record TranscriptionResponse := {
  text : pystr;
  language : option pystr;
  language_probability : option float;
  duration : option float
}.

(** The dictionary built for one word. *)
Record WordDict := {
  wd_word : pystr;
  wd_start : float;
  wd_end : float;
  wd_probability : float
}.

Record TranscriptionSegment := {
  id : nat;
  ts_start : float;
  ts_end : float;
  ts_text : pystr;
  ts_words : option (list WordDict)
}.

Record DetailedTranscriptionResponse := {
  d_text : pystr;
  d_language : pystr;
  d_language_probability : float;
  d_duration : float;
  d_segments : list TranscriptionSegment
}.

(** *** Server-sent events *)

Inductive event :=
| InfoEvent (language : pystr) (probability : float)
| SegmentEvent (start end_ : float) (text : pystr)
| DoneEvent.

(** The state of the generator [generate_segments]: not started, suspended
    at a [yield] with the rest of the segments still to come, suspended at
    the last [yield], or finished. *)
Inductive gen_state :=
| Created
| Suspended (rest : list Segment) (failure : option exn)
| SuspendedAtDone
| Finished.

Record generator := {
  gen_tmp_path : pystr;
  gen_language : option pystr;
  gen_state_of : gen_state
}.

(** What one [__anext__] gives. *)
Inductive step :=
| Yield (chunk : pystr)
| StopIteration
| Raised (e : exn).

(** How a consumer that iterates to the end leaves the generator. *)
Inductive drained :=
| Exhausted
| Failed (e : exn)
| OutOfFuel.

Record StreamingResponse := {
  body_iterator : generator;
  media_type : pystr
}.

(** [isinstance(e, ValueError)]: [ValueError] and every subclass of it. *)
Definition is_ValueError (c : exc_class) : bool :=
  match c with
  | ValueError | UnicodeDecodeError | UnicodeEncodeError | OtherValueError _ => true
  | _ => false
  end.

(** The test of the inner handlers, [ "max()" in str(e) or "empty" in str(e) ],
    and of the outermost ones, [ "max()" in error_str and "empty" in error_str ]. *)
Definition max_or_empty (e : exn) : bool :=
  contains (str "max()") (exc_str e) || contains (str "empty") (exc_str e).

Definition max_and_empty (e : exn) : bool :=
  contains (str "max()") (exc_str e) && contains (str "empty") (exc_str e).

(** Truth value of a [str]. *)
Definition str_truthy (s : pystr) : bool :=
  match s with [] => false | _ :: _ => true end.

Section Service.

Variable w : env.

(** [get_model()]: loads the model on first use and keeps it. *)
Definition get_model : M state unit :=
  fun st =>
    if _model st then (Ok tt, st)
    else
      match load_model w with
      | Ok _ => (Ok tt, {| fs := fs st; _model := true |})
      | Raise e => (Raise e, st)
      end.

(** The [with tempfile.NamedTemporaryFile(...)] block: the file is created
    with the upload as its content and outlives the block. *)
Definition write_temp (audio_bytes : bytes) : M state pystr :=
  fun st =>
    let tmp_path := mktemp w (fs st) in
    (Ok tmp_path, {| fs := <[tmp_path := audio_bytes]> (fs st); _model := _model st |}).

(** [os.unlink(path)] *)
Definition unlink (path : pystr) : M state unit :=
  fun st =>
    match fs st !! path with
    | Some _ => (Ok tt, {| fs := delete path (fs st); _model := _model st |})
    | None =>
        (Raise (Exn FileNotFoundError (str "[Errno 2] No such file or directory")), st)
    end.

Definition call_model (c : transcribe_call) : M state (segments * TranscriptionInfo) :=
  fun st => (model_transcribe w (fs st) c, st).

(** **** POST /transcribe *)

Definition transcribe_call_of (tmp_path : pystr) (language task : option pystr)
    : transcribe_call :=
  {| call_path := tmp_path;
     call_beam_size := 5;
     call_language := language;
     call_task := Some task;
     call_word_timestamps := None;
     call_vad_filter := true;
     call_vad_parameters := Some (500, 200) |}.

(** The outer [try] block of [transcribe]. *)
Definition transcribe_try (audio : result bytes) (language task : option pystr)
    : M state TranscriptionResponse :=
  _ <- get_model ;;
  audio_bytes <- lift audio ;;
  tmp_path <- write_temp audio_bytes ;;
  try_finally
    (r <- call_model (transcribe_call_of tmp_path language task) ;;
     let '(segments, info) := r in
     match list_of segments with
     | Raise e =>
         if max_or_empty e then
           ret {| text := [];
                  language := Some (str "en");
                  language_probability := Some 0%float;
                  duration := Some (if float_truthy (info_duration info)
                                    then info_duration info else 0%float) |}
         else raise e
     | Ok segments_list =>
         match segments_list with
         | [] =>
             ret {| text := [];
                    language := Some (if str_truthy (info_language info)
                                      then info_language info else str "en");
                    language_probability :=
                      Some (if float_truthy (info_language_probability info)
                            then info_language_probability info else 0%float);
                    duration := Some (if float_truthy (info_duration info)
                                      then info_duration info else 0%float) |}
         | _ :: _ =>
             let text_parts := map (fun segment => strip (seg_text segment)) segments_list in
             let full_text := join (str " ") text_parts in
             ret {| text := full_text;
                    language := Some (info_language info);
                    language_probability := Some (info_language_probability info);
                    duration := Some (info_duration info) |}
         end
     end)
    (unlink tmp_path).

Definition transcribe (audio : result bytes) (language task : option pystr)
    (st : state) : http_result TranscriptionResponse * state :=
  match transcribe_try audio language task st with
  | (Ok r, st') => (Returned r, st')
  | (Raise e, st') =>
      if max_and_empty e then
        (Returned {| text := [];
                     language := Some (str "en");
                     language_probability := Some 0%float;
                     duration := Some 0%float |}, st')
      else (HTTPException 500 (exc_str e), st')
  end.

(** **** POST /transcribe/detailed *)

Definition detailed_call_of (tmp_path : pystr) (language task : option pystr)
    (word_timestamps : bool) : transcribe_call :=
  {| call_path := tmp_path;
     call_beam_size := 5;
     call_language := language;
     call_task := Some task;
     call_word_timestamps := Some word_timestamps;
     call_vad_filter := true;
     call_vad_parameters := None |}.

(** One turn of the loop over [enumerate(segment_list)]. *)
Definition seg_data_of (word_timestamps : bool) (i : nat) (segment : Segment)
    : TranscriptionSegment :=
  {| id := i;
     ts_start := seg_start segment;
     ts_end := seg_end segment;
     ts_text := strip (seg_text segment);
     ts_words :=
       match seg_words segment with
       | Some (wd :: wds) =>
           if word_timestamps then
             Some (map (fun x => {| wd_word := word_word x;
                                    wd_start := word_start x;
                                    wd_end := word_end x;
                                    wd_probability := word_probability x |})
                       (wd :: wds))
           else None
       | _ => None
       end |}.

Definition transcribe_detailed_try (audio : result bytes)
    (language task : option pystr) (word_timestamps : bool)
    : M state DetailedTranscriptionResponse :=
  _ <- get_model ;;
  audio_bytes <- lift audio ;;
  tmp_path <- write_temp audio_bytes ;;
  try_finally
    (r <- call_model (detailed_call_of tmp_path language task word_timestamps) ;;
     let '(segments_gen, info) := r in
     match list_of segments_gen with
     | Raise e =>
         if is_ValueError (exc_type e) then
           if max_or_empty e then
             ret {| d_text := [];
                    d_language := str "en";
                    d_language_probability := 0%float;
                    d_duration := if float_truthy (info_duration info)
                                  then info_duration info else 0%float;
                    d_segments := [] |}
           else raise e
         else raise e
     | Ok segment_list =>
         let text_parts := map (fun segment => strip (seg_text segment)) segment_list in
         let segments := imap (seg_data_of word_timestamps) segment_list in
         match segments with
         | [] =>
             ret {| d_text := [];
                    d_language := if str_truthy (info_language info)
                                  then info_language info else str "en";
                    d_language_probability :=
                      if float_truthy (info_language_probability info)
                      then info_language_probability info else 0%float;
                    d_duration := if float_truthy (info_duration info)
                                  then info_duration info else 0%float;
                    d_segments := [] |}
         | _ :: _ =>
             ret {| d_text := join (str " ") text_parts;
                    d_language := info_language info;
                    d_language_probability := info_language_probability info;
                    d_duration := info_duration info;
                    d_segments := segments |}
         end
     end)
    (unlink tmp_path).

Definition transcribe_detailed (audio : result bytes)
    (language task : option pystr) (word_timestamps : bool) (st : state)
    : http_result DetailedTranscriptionResponse * state :=
  match transcribe_detailed_try audio language task word_timestamps st with
  | (Ok r, st') => (Returned r, st')
  | (Raise e, st') =>
      if max_and_empty e then
        (Returned {| d_text := [];
                     d_language := str "en";
                     d_language_probability := 0%float;
                     d_duration := 0%float;
                     d_segments := [] |}, st')
      else (HTTPException 500 (exc_str e), st')
  end.

(** **** POST /transcribe/stream *)

Definition stream_call_of (tmp_path : pystr) (language : option pystr)
    : transcribe_call :=
  {| call_path := tmp_path;
     call_beam_size := 5;
     call_language := language;
     call_task := None;
     call_word_timestamps := None;
     call_vad_filter := true;
     call_vad_parameters := None |}.

(** The text of one event, as the generator yields it. *)
Definition sse (ev : event) : pystr :=
  match ev with
  | InfoEvent language probability =>
      str "data: {'type': 'info', 'language': '" ++ language
      ++ str "', 'probability': " ++ str_float w probability
      ++ str "}" ++ [10%N; 10%N]
  | SegmentEvent start end_ text =>
      str "data: " ++ json_dumps_segment w start end_ text ++ [10%N; 10%N]
  | DoneEvent =>
      str "data: {" ++ [34%N] ++ str "type" ++ [34%N] ++ str ": "
      ++ [34%N] ++ str "done" ++ [34%N] ++ str "}" ++ [10%N; 10%N]
  end.

Definition segment_event (segment : Segment) : event :=
  SegmentEvent (seg_start segment) (seg_end segment) (strip (seg_text segment)).

Definition set_gen_state (g : generator) (s : gen_state) : generator :=
  {| gen_tmp_path := gen_tmp_path g;
     gen_language := gen_language g;
     gen_state_of := s |}.

(** Leaving the generator's [try] with outcome [out]: the [finally] clause
    unlinks the temporary file first. *)
Definition leave (g : generator) (out : step) (st : state)
    : step * generator * state :=
  match unlink (gen_tmp_path g) st with
  | (Ok _, st') => (out, set_gen_state g Finished, st')
  | (Raise e, st') => (Raised e, set_gen_state g Finished, st')
  end.

(** One [__anext__] of [generate_segments]: run to the next [yield], to the
    end, or to an exception. *)
Definition gen_next (g : generator) (st : state) : step * generator * state :=
  match gen_state_of g with
  | Created =>
      match model_transcribe w (fs st) (stream_call_of (gen_tmp_path g) (gen_language g)) with
      | Raise e => leave g (Raised e) st
      | Ok (segments, info) =>
          (Yield (sse (InfoEvent (info_language info) (info_language_probability info))),
           set_gen_state g (Suspended (yielded segments) (failure segments)), st)
      end
  | Suspended (segment :: rest) f =>
      (Yield (sse (segment_event segment)), set_gen_state g (Suspended rest f), st)
  | Suspended [] (Some e) => leave g (Raised e) st
  | Suspended [] None => (Yield (sse DoneEvent), set_gen_state g SuspendedAtDone, st)
  | SuspendedAtDone => leave g StopIteration st
  | Finished => (StopIteration, g, st)
  end.

(** [aclose()]: a generator suspended at a [yield] runs its [finally]; one
    that never started, or has finished, runs nothing. *)
Definition gen_close (g : generator) (st : state) : generator * state :=
  match gen_state_of g with
  | Created | Finished => (set_gen_state g Finished, st)
  | Suspended _ _ | SuspendedAtDone =>
      let '(_, g', st') := leave g StopIteration st in (g', st')
  end.

(** The consumer of the response body: it asks for the next piece until the
    generator stops or raises. *)
Fixpoint drain (fuel : nat) (g : generator) (st : state)
    : list pystr * drained * generator * state :=
  match fuel with
  | O => ([], OutOfFuel, g, st)
  | S fuel' =>
      match gen_next g st with
      | (Yield chunk, g', st') =>
          let '(chunks, d, g'', st'') := drain fuel' g' st' in
          (chunk :: chunks, d, g'', st'')
      | (StopIteration, g', st') => ([], Exhausted, g', st')
      | (Raised e, g', st') => ([], Failed e, g', st')
      end
  end.

Definition transcribe_stream_try (audio : result bytes) (language : option pystr)
    : M state StreamingResponse :=
  _ <- get_model ;;
  audio_bytes <- lift audio ;;
  tmp_path <- write_temp audio_bytes ;;
  ret {| body_iterator := {| gen_tmp_path := tmp_path;
                             gen_language := language;
                             gen_state_of := Created |};
         media_type := str "text/event-stream" |}.

Definition transcribe_stream (audio : result bytes) (language : option pystr)
    (st : state) : http_result StreamingResponse * state :=
  match transcribe_stream_try audio language st with
  | (Ok r, st') => (Returned r, st')
  | (Raise e, st') => (HTTPException 500 (exc_str e), st')
  end.

End Service.

(** *** Sample surroundings *)

Definition sample_env (answer : result (segments * TranscriptionInfo)) : env :=
  {| load_model := Ok tt;
     mktemp := fun _ => str "/tmp/tmpk3_x9.wav";
     model_transcribe := fun _ _ => answer;
     str_float := fun _ => str "0.98";
     json_dumps_segment := fun _ _ t => t |}.

(** Surroundings that print the floats of the samples below as Python does,
    and the JSON object of a segment event as [json.dumps] does for a text
    that needs no escaping. [dq] is the double quote. *)
Definition dq : pystr := [34%N].

Definition printed_float (x : float) : pystr :=
  if PrimFloat.eqb x 0.98%float then str "0.98"
  else if PrimFloat.eqb x 1.2%float then str "1.2"
  else if PrimFloat.eqb x 2.5%float then str "2.5"
  else str "0.0".

Definition printed_segment (start end_ : float) (text : pystr) : pystr :=
  str "{" ++ dq ++ str "type" ++ dq ++ str ": " ++ dq ++ str "segment" ++ dq
  ++ str ", " ++ dq ++ str "start" ++ dq ++ str ": " ++ printed_float start
  ++ str ", " ++ dq ++ str "end" ++ dq ++ str ": " ++ printed_float end_
  ++ str ", " ++ dq ++ str "text" ++ dq ++ str ": " ++ dq ++ text ++ dq ++ str "}".

Definition printing_env (answer : result (segments * TranscriptionInfo)) : env :=
  {| load_model := Ok tt;
     mktemp := fun _ => str "/tmp/tmpk3_x9.wav";
     model_transcribe := fun _ _ => answer;
     str_float := printed_float;
     json_dumps_segment := printed_segment |}.

Definition initial : state := {| fs := ∅; _model := false |}.

Definition sample_info : TranscriptionInfo :=
  {| info_language := str "en";
     info_language_probability := 0.98%float;
     info_duration := 2.5%float |}.

Definition hello_world : list Segment :=
  [ {| seg_start := 0.0%float; seg_end := 1.2%float;
       seg_text := str " hello"; seg_words := None |};
    {| seg_start := 1.2%float; seg_end := 2.5%float;
       seg_text := str " world "; seg_words := None |} ].

(** A failure whose text has "empty" in it and no "max()". *)
Definition queue_is_empty : exn := Exn RuntimeError (str "the queue is empty").

(** The library's failure on audio with no speech left. *)
Definition max_of_empty : exn :=
  Exn ValueError (str "max() iterable argument is empty").

(** *** The states a request goes through *)

(** The model can be had: it is loaded already, or loading succeeds. *)
Definition model_ready (w : env) (st : state) : Prop :=
  _model st = true \/ load_model w = Ok tt.

(** After staging the upload: the temporary file holds it. *)
Definition staged (w : env) (audio_bytes : bytes) (st : state) : state :=
  {| fs := <[mktemp w (fs st) := audio_bytes]> (fs st); _model := true |}.

(** After the temporary file is unlinked. *)
Definition cleaned (w : env) (st : state) : state :=
  {| fs := delete (mktemp w (fs st)) (fs st); _model := true |}.

(** The empty result of the no-speech handlers, with the duration they
    report. *)
Definition no_speech (d : float) : TranscriptionResponse :=
  {| text := [];
     language := Some (str "en");
     language_probability := Some 0%float;
     duration := Some d |}.

(** The claim about no-speech failures, for a reading [known] of "matches
    the known signatures": a failure of the invocation, or of materializing
    the segments, is answered by the empty result when it is known and by a
    server error when it is not. *)
Definition absorbs_exactly (known : exn -> bool) : Prop :=
  forall (w : env) (audio_bytes : bytes) (language task : option pystr)
         (st : state) (e : exn) (answer : result (segments * TranscriptionInfo)),
    model_ready w st ->
    model_transcribe w (fs (staged w audio_bytes st))
      (transcribe_call_of (mktemp w (fs st)) language task) = answer ->
    (answer = Raise e \/
     exists segs info, answer = Ok ({| yielded := segs; failure := Some e |}, info)) ->
    if known e
    then exists d, fst (transcribe w (Ok audio_bytes) language task st)
                   = Returned (no_speech d)
    else exists detail, fst (transcribe w (Ok audio_bytes) language task st)
                        = HTTPException 500 detail.

(** The claim about the temporary file as it is stated: after any
    transcription call on an upload that was staged, the file no longer
    exists. *)
Definition removed_after_every_call : Prop :=
  forall (w : env) (audio_bytes : bytes) (language task : option pystr)
         (word_timestamps : bool) (st : state),
    model_ready w st ->
    fs (transcribe w (Ok audio_bytes) language task st).2 !! mktemp w (fs st) = None /\
    fs (transcribe_detailed w (Ok audio_bytes) language task word_timestamps st).2
      !! mktemp w (fs st) = None /\
    fs (transcribe_stream w (Ok audio_bytes) language st).2 !! mktemp w (fs st) = None.

(** The generator and the files agree: while the generator has not finished
    the temporary file [p] is there, once it has finished the file is gone;
    no other file is touched. [fs0] is the files without [p]. *)
Definition gen_inv (p : pystr) (fs0 : files) (g : generator) (st : state) : Prop :=
  gen_tmp_path g = p /\
  match gen_state_of g with
  | Finished => fs st = delete p fs0
  | _ => exists b, fs st = <[p := b]> fs0
  end.

(** *** Staging and cleaning up *)

Section Facts.

Variable w : env.

Lemma get_model_ready st :
  model_ready w st ->
  get_model w st = (Ok tt, {| fs := fs st; _model := true |}).
Proof.
  intros [H|H]; unfold get_model.
  - rewrite H. destruct st as [f m]; cbn in *; by subst.
  - destruct (_model st) eqn:E.
    + destruct st as [f m]; cbn in *; by subst.
    + rewrite H. reflexivity.
Qed.

Lemma unlink_staged audio_bytes st :
  unlink (mktemp w (fs st)) (staged w audio_bytes st) = (Ok tt, cleaned w st).
Proof.
  unfold unlink, staged, cleaned. cbn [fs _model].
  rewrite lookup_insert_eq, delete_insert_eq. reflexivity.
Qed.

(** Once the upload is staged, whatever the body of the [try] does, the
    [finally] clause unlinks the file. *)
Lemma staged_try_finally {A} (body : pystr -> M state A) audio_bytes st :
  model_ready w st ->
  (forall s, snd (body (mktemp w (fs st)) s) = s) ->
  (_ <- get_model w ;;
   audio <- lift (Ok audio_bytes) ;;
   tmp_path <- write_temp w audio ;;
   try_finally (body tmp_path) (unlink tmp_path)) st
  = (fst (body (mktemp w (fs st)) (staged w audio_bytes st)), cleaned w st).
Proof.
  intros Hr Hb. unfold mbind at 1. rewrite (get_model_ready _ Hr).
  unfold mbind, lift, write_temp, try_finally. cbn [fs _model].
  fold (staged w audio_bytes st).
  specialize (Hb (staged w audio_bytes st)).
  destruct (body _ (staged w audio_bytes st)) as [r s']. cbn in Hb. subst s'.
  rewrite unlink_staged. reflexivity.
Qed.

End Facts.

Section Endpoints.

Variable w : env.

(** What [transcribe] answers once the upload is staged, by what the model
    does. *)
Lemma transcribe_staged audio_bytes language task st :
  model_ready w st ->
  transcribe w (Ok audio_bytes) language task st
  = (match model_transcribe w (fs (staged w audio_bytes st))
             (transcribe_call_of (mktemp w (fs st)) language task) with
     | Raise e =>
         if max_and_empty e then Returned (no_speech 0%float)
         else HTTPException 500 (exc_str e)
     | Ok (segs, info) =>
         match failure segs with
         | Some e =>
             if max_or_empty e then
               Returned (no_speech (if float_truthy (info_duration info)
                                    then info_duration info else 0%float))
             else if max_and_empty e then Returned (no_speech 0%float)
             else HTTPException 500 (exc_str e)
         | None =>
             match yielded segs with
             | [] =>
                 Returned
                   {| text := [];
                      language := Some (if str_truthy (info_language info)
                                        then info_language info else str "en");
                      language_probability :=
                        Some (if float_truthy (info_language_probability info)
                              then info_language_probability info else 0%float);
                      duration := Some (if float_truthy (info_duration info)
                                        then info_duration info else 0%float) |}
             | _ :: _ =>
                 Returned
                   {| text := join (str " ")
                                (map (fun segment => strip (seg_text segment))
                                     (yielded segs));
                      language := Some (info_language info);
                      language_probability := Some (info_language_probability info);
                      duration := Some (info_duration info) |}
             end
         end
     end, cleaned w st).
Proof.
  intros Hr. unfold transcribe, transcribe_try.
  rewrite staged_try_finally; [|exact Hr|].
  - unfold mbind, call_model, list_of.
    destruct (model_transcribe w _ _) as [[segs info]|e]; cbn [fst].
    + destruct (failure segs) as [e|].
      * destruct (max_or_empty e); [reflexivity|].
        cbn. destruct (max_and_empty e); reflexivity.
      * destruct (yielded segs); reflexivity.
    + cbn. destruct (max_and_empty e); reflexivity.
  - intros s. unfold mbind, call_model, list_of.
    destruct (model_transcribe w _ _) as [[segs info]|e]; [|reflexivity].
    destruct (failure segs) as [e|].
    + destruct (max_or_empty e); reflexivity.
    + destruct (yielded segs); reflexivity.
Qed.

(** The same for [transcribe_detailed]. *)
Lemma transcribe_detailed_staged audio_bytes language task word_timestamps st :
  model_ready w st ->
  transcribe_detailed w (Ok audio_bytes) language task word_timestamps st
  = (match model_transcribe w (fs (staged w audio_bytes st))
             (detailed_call_of (mktemp w (fs st)) language task word_timestamps) with
     | Raise e =>
         if max_and_empty e then
           Returned {| d_text := []; d_language := str "en";
                       d_language_probability := 0%float; d_duration := 0%float;
                       d_segments := [] |}
         else HTTPException 500 (exc_str e)
     | Ok (segs, info) =>
         match failure segs with
         | Some e =>
             if is_ValueError (exc_type e) && max_or_empty e then
               Returned {| d_text := []; d_language := str "en";
                           d_language_probability := 0%float;
                           d_duration := if float_truthy (info_duration info)
                                         then info_duration info else 0%float;
                           d_segments := [] |}
             else if max_and_empty e then
               Returned {| d_text := []; d_language := str "en";
                           d_language_probability := 0%float; d_duration := 0%float;
                           d_segments := [] |}
             else HTTPException 500 (exc_str e)
         | None =>
             match yielded segs with
             | [] =>
                 Returned
                   {| d_text := [];
                      d_language := if str_truthy (info_language info)
                                    then info_language info else str "en";
                      d_language_probability :=
                        if float_truthy (info_language_probability info)
                        then info_language_probability info else 0%float;
                      d_duration := if float_truthy (info_duration info)
                                    then info_duration info else 0%float;
                      d_segments := [] |}
             | _ :: _ =>
                 Returned
                   {| d_text := join (str " ")
                                  (map (fun segment => strip (seg_text segment))
                                       (yielded segs));
                      d_language := info_language info;
                      d_language_probability := info_language_probability info;
                      d_duration := info_duration info;
                      d_segments := imap (seg_data_of word_timestamps) (yielded segs) |}
             end
         end
     end, cleaned w st).
Proof.
  intros Hr. unfold transcribe_detailed, transcribe_detailed_try.
  rewrite staged_try_finally; [|exact Hr|].
  - unfold mbind, call_model, list_of.
    destruct (model_transcribe w _ _) as [[segs info]|e]; cbn [fst].
    + destruct (failure segs) as [e|].
      * destruct (is_ValueError (exc_type e)); [destruct (max_or_empty e)|];
          cbn; try reflexivity; destruct (max_and_empty e); reflexivity.
      * destruct (yielded segs); reflexivity.
    + cbn. destruct (max_and_empty e); reflexivity.
  - intros s. unfold mbind, call_model, list_of.
    destruct (model_transcribe w _ _) as [[segs info]|e]; [|reflexivity].
    destruct (failure segs) as [e|].
    + destruct (is_ValueError (exc_type e)); [destruct (max_or_empty e)|]; reflexivity.
    + destruct (yielded segs); reflexivity.
Qed.

(** When the model cannot be had or the upload cannot be read, nothing is
    staged and the files stay as they were. *)
Lemma nothing_staged audio language task st :
  (_model st = false /\ exists e, load_model w = Raise e) \/ (exists e, audio = Raise e) ->
  fs (snd (transcribe w audio language task st)) = fs st.
Proof.
  intros H. unfold transcribe, transcribe_try, mbind at 1, get_model.
  destruct (_model st) eqn:Em.
  - destruct H as [[H _]|[e ->]]; [discriminate|].
    unfold mbind, lift. destruct (max_and_empty e); reflexivity.
  - destruct (load_model w) as [[]|e'] eqn:El.
    + destruct H as [[_ [e H]]|[e ->]]; [discriminate|].
      unfold mbind, lift. destruct (max_and_empty e); reflexivity.
    + destruct (max_and_empty e'); reflexivity.
Qed.

End Endpoints.

(** *** The generator of the event stream *)

Section Generator.

Variable w : env.

Lemma leave_inv p fs0 g out st :
  gen_tmp_path g = p ->
  (exists b, fs st = <[p := b]> fs0) ->
  exists out', leave g out st
               = (out', set_gen_state g Finished,
                  {| fs := delete p fs0; _model := _model st |})
               /\ (out' = out).
Proof.
  intros Hp [b Hb]. unfold leave, unlink. rewrite Hp, Hb, lookup_insert_eq.
  rewrite delete_insert_eq. eauto.
Qed.

(** One step keeps the agreement. *)
Lemma gen_next_inv p fs0 g st :
  gen_inv p fs0 g st ->
  gen_inv p fs0 (gen_next w g st).1.2 (gen_next w g st).2.
Proof.
  intros [Hp Hs]. unfold gen_next.
  destruct (gen_state_of g) as [|rest f| |] eqn:E.
  - destruct (model_transcribe w _ _) as [[segs info]|e].
    + split; [exact Hp|]. cbn. exact Hs.
    + destruct (leave_inv p fs0 g (Raised e) st Hp Hs) as (o & -> & _).
      split; [exact Hp | reflexivity].
  - destruct rest as [|segment rest].
    + destruct f as [e|].
      * destruct (leave_inv p fs0 g (Raised e) st Hp Hs) as (o & -> & _).
        split; [exact Hp | reflexivity].
      * split; [exact Hp|]. cbn. exact Hs.
    + split; [exact Hp|]. cbn. exact Hs.
  - destruct (leave_inv p fs0 g StopIteration st Hp Hs) as (o & -> & _).
    split; [exact Hp | reflexivity].
  - split; [exact Hp|]. cbn. rewrite E. exact Hs.
Qed.

(** A step that does not yield finishes the generator; one that yields does
    not. *)
Lemma gen_next_finished g st :
  match (gen_next w g st).1.1 with
  | Yield _ => gen_state_of (gen_next w g st).1.2 <> Finished
  | _ => gen_state_of (gen_next w g st).1.2 = Finished
  end.
Proof.
  unfold gen_next, leave.
  destruct (gen_state_of g) as [|rest f| |] eqn:E.
  - destruct (model_transcribe w _ _) as [[segs info]|e]; [discriminate|].
    destruct (unlink _ _) as [[|] ?]; reflexivity.
  - destruct rest as [|segment rest]; [destruct f as [e|]|]; try discriminate.
    destruct (unlink _ _) as [[|] ?]; reflexivity.
  - destruct (unlink _ _) as [[|] ?]; reflexivity.
  - exact E.
Qed.

(** However long the consumer iterates, the agreement holds at the end; and
    if it iterated to the end, the generator has finished. *)
Lemma drain_inv p fs0 fuel g st :
  gen_inv p fs0 g st ->
  gen_inv p fs0 (drain w fuel g st).1.2 (drain w fuel g st).2 /\
  ((drain w fuel g st).1.1.2 <> OutOfFuel ->
   gen_state_of (drain w fuel g st).1.2 = Finished).
Proof.
  revert g st. induction fuel as [|fuel IH]; intros g st Hi.
  - cbn. split; [exact Hi | congruence].
  - cbn [drain].
    pose proof (gen_next_inv p fs0 g st Hi) as Hn.
    pose proof (gen_next_finished g st) as Hf.
    destruct (gen_next w g st) as [[o g'] st']. cbn in Hn, Hf.
    destruct o as [chunk| |e].
    + specialize (IH g' st' Hn).
      destruct (drain w fuel g' st') as [[[chunks d] g''] st'']. exact IH.
    + cbn. split; [exact Hn | intros _; exact Hf].
    + cbn. split; [exact Hn | intros _; exact Hf].
Qed.

(** Closing a generator that was started unlinks the file. *)
Lemma gen_close_inv p fs0 g st :
  gen_inv p fs0 g st ->
  gen_state_of g <> Created ->
  fs (gen_close g st).2 = delete p fs0.
Proof.
  intros [Hp Hs] Hc. unfold gen_close.
  destruct (gen_state_of g) as [|rest f| |] eqn:E; [contradiction| | |exact Hs].
  - destruct (leave_inv p fs0 g StopIteration st Hp Hs) as (o & -> & _). reflexivity.
  - destruct (leave_inv p fs0 g StopIteration st Hp Hs) as (o & -> & _). reflexivity.
Qed.

(** From a [yield] inside the loop on: the remaining segments, then "done"
    and the end, or the failure. *)
Lemma drain_suspended p l rest f st b fs0 fuel :
  fs st = <[p := b]> fs0 ->
  (length rest + 2 <= fuel)%nat ->
  drain w fuel {| gen_tmp_path := p; gen_language := l;
                  gen_state_of := Suspended rest f |} st
  = (map (sse w) (map segment_event rest
                  ++ match f with None => [DoneEvent] | Some _ => [] end),
     match f with None => Exhausted | Some e => Failed e end,
     {| gen_tmp_path := p; gen_language := l; gen_state_of := Finished |},
     {| fs := delete p fs0; _model := _model st |}).
Proof.
  intros Hfs. revert fuel. induction rest as [|segment rest IH]; intros fuel Hfuel.
  - destruct fuel as [|[|fuel]]; [cbn in Hfuel; lia | cbn in Hfuel; lia |].
    destruct f as [e|].
    + cbn [drain gen_next gen_state_of]. unfold leave, unlink. cbn [gen_tmp_path].
      rewrite Hfs, lookup_insert_eq, delete_insert_eq. reflexivity.
    + cbn [drain gen_next gen_state_of set_gen_state gen_tmp_path gen_language].
      unfold leave, unlink. cbn [gen_tmp_path].
      rewrite Hfs, lookup_insert_eq, delete_insert_eq. reflexivity.
  - destruct fuel as [|fuel]; [cbn in Hfuel; lia|].
    cbn [drain gen_next gen_state_of set_gen_state gen_tmp_path gen_language].
    rewrite IH by (cbn in Hfuel; lia). reflexivity.
Qed.

(** From the start: the "info" event first, if the model answers. *)
Lemma drain_created p l st b fs0 fuel segs info :
  fs st = <[p := b]> fs0 ->
  model_transcribe w (fs st) (stream_call_of p l) = Ok (segs, info) ->
  (length (yielded segs) + 3 <= fuel)%nat ->
  drain w fuel {| gen_tmp_path := p; gen_language := l; gen_state_of := Created |} st
  = (map (sse w)
       (InfoEvent (info_language info) (info_language_probability info)
        :: map segment_event (yielded segs)
        ++ match failure segs with None => [DoneEvent] | Some _ => [] end),
     match failure segs with None => Exhausted | Some e => Failed e end,
     {| gen_tmp_path := p; gen_language := l; gen_state_of := Finished |},
     {| fs := delete p fs0; _model := _model st |}).
Proof.
  intros Hfs Hm Hfuel.
  destruct fuel as [|fuel]; [lia|].
  cbn [drain gen_next gen_state_of gen_tmp_path gen_language]. rewrite Hm.
  unfold set_gen_state. cbn [gen_tmp_path gen_language].
  rewrite (drain_suspended p l _ _ st b fs0) by (assumption || lia).
  reflexivity.
Qed.

Lemma drain_created_raises p l st b fs0 fuel e :
  fs st = <[p := b]> fs0 ->
  model_transcribe w (fs st) (stream_call_of p l) = Raise e ->
  (1 <= fuel)%nat ->
  drain w fuel {| gen_tmp_path := p; gen_language := l; gen_state_of := Created |} st
  = ([], Failed e,
     {| gen_tmp_path := p; gen_language := l; gen_state_of := Finished |},
     {| fs := delete p fs0; _model := _model st |}).
Proof.
  intros Hfs Hm Hfuel.
  destruct fuel as [|fuel]; [lia|].
  cbn [drain gen_next gen_state_of gen_tmp_path gen_language]. rewrite Hm.
  unfold leave, unlink. cbn [gen_tmp_path].
  rewrite Hfs, lookup_insert_eq, delete_insert_eq. reflexivity.
Qed.

(** What [transcribe_stream] returns once the upload is staged: the response
    around a generator that has not started; the file is there. *)
Lemma transcribe_stream_staged audio_bytes language st :
  model_ready w st ->
  transcribe_stream w (Ok audio_bytes) language st
  = (Returned {| body_iterator := {| gen_tmp_path := mktemp w (fs st);
                                     gen_language := language;
                                     gen_state_of := Created |};
                 media_type := str "text/event-stream" |},
     staged w audio_bytes st).
Proof.
  intros Hr. unfold transcribe_stream, transcribe_stream_try, mbind at 1.
  rewrite (get_model_ready _ _ Hr). reflexivity.
Qed.

End Generator.

(** *** No-speech failures *)

Lemma max_and_empty_or e : max_and_empty e = true -> max_or_empty e = true.
Proof.
  unfold max_and_empty, max_or_empty.
  destruct (contains (str "max()") (exc_str e)); [reflexivity | discriminate].
Qed.

Lemma max_or_empty_and e : max_or_empty e = false -> max_and_empty e = false.
Proof.
  unfold max_and_empty, max_or_empty.
  destruct (contains (str "max()") (exc_str e)); [discriminate | reflexivity].
Qed.

(** C3 (as stated, refuted): no reading of "matches the known signatures"
    makes the claim true. The failure "the queue is empty" is answered by
    the empty result (HTTP 200) when it is raised while the segments are
    materialized, and by an HTTP 500 when the invocation itself raises it:
    the inner handler tests for "max()" or "empty", the outermost one for
    "max()" and "empty". *)
Lemma no_signature_fits : ~ exists known, absorbs_exactly known.
Proof.
  intros [known H].
  pose proof (H (sample_env (Raise queue_is_empty)) [] None None initial
                queue_is_empty _ (or_intror eq_refl) eq_refl
                (or_introl eq_refl)) as H1.
  pose proof (H (sample_env (Ok ({| yielded := []; failure := Some queue_is_empty |},
                                 sample_info)))
                [] None None initial queue_is_empty _ (or_intror eq_refl) eq_refl
                (or_intror (ex_intro _ [] (ex_intro _ sample_info eq_refl)))) as H2.
  destruct (known queue_is_empty).
  - destruct H1 as [d H1]. vm_compute in H1. discriminate H1.
  - destruct H2 as [detail H2]. vm_compute in H2. discriminate H2.
Qed.

(** C3 (amended): once the upload is staged, a failure whose text contains
    both "max()" and "empty" is absorbed at both points: raised by the
    invocation it is answered (HTTP 200) with text "", language "en",
    probability 0.0 and duration 0.0; raised while the segments are
    materialized, with the same and the source duration when that is not
    zero. A failure of the invocation whose text lacks one of the two, and a
    failure while materializing whose text has neither, leaves as an HTTP 500
    carrying the failure's text. The temporary file is unlinked each time. *)
Theorem no_speech_failure_absorbed (w : env) (audio_bytes : bytes)
    (language task : option pystr) (st : state) (e : exn) :
  model_ready w st ->
  (model_transcribe w (fs (staged w audio_bytes st))
     (transcribe_call_of (mktemp w (fs st)) language task) = Raise e ->
   transcribe w (Ok audio_bytes) language task st
   = (if max_and_empty e then Returned (no_speech 0%float)
      else HTTPException 500 (exc_str e), cleaned w st)) /\
  (forall segs info,
     model_transcribe w (fs (staged w audio_bytes st))
       (transcribe_call_of (mktemp w (fs st)) language task)
     = Ok ({| yielded := segs; failure := Some e |}, info) ->
     (max_and_empty e = true ->
      transcribe w (Ok audio_bytes) language task st
      = (Returned (no_speech (if float_truthy (info_duration info)
                              then info_duration info else 0%float)),
         cleaned w st)) /\
     (max_or_empty e = false ->
      transcribe w (Ok audio_bytes) language task st
      = (HTTPException 500 (exc_str e), cleaned w st))).
Proof.
  intros Hr. split.
  - intros Hm. rewrite (transcribe_staged _ _ _ _ _ Hr), Hm. reflexivity.
  - intros segs info Hm. split.
    + intros He. rewrite (transcribe_staged _ _ _ _ _ Hr), Hm. cbn [failure].
      rewrite (max_and_empty_or _ He). reflexivity.
    + intros He. rewrite (transcribe_staged _ _ _ _ _ Hr), Hm. cbn [failure].
      rewrite He, (max_or_empty_and _ He). reflexivity.
Qed.

(** The library's own failure text, raised by the invocation and raised
    while materializing. *)
Lemma no_speech_failure_absorbed_witness :
  transcribe (sample_env (Raise max_of_empty)) (Ok [x01]) None
    (Some (str "transcribe")) initial
  = (Returned (no_speech 0%float), cleaned (sample_env (Raise max_of_empty)) initial)
  /\
  transcribe
    (sample_env (Ok ({| yielded := []; failure := Some max_of_empty |}, sample_info)))
    (Ok [x01]) None (Some (str "transcribe")) initial
  = (Returned (no_speech 2.5%float),
     cleaned (sample_env (Ok ({| yielded := []; failure := Some max_of_empty |},
                              sample_info))) initial).
Proof.
  split.
  - exact (proj1 (no_speech_failure_absorbed (sample_env (Raise max_of_empty))
                    [x01] None (Some (str "transcribe")) initial max_of_empty
                    (or_intror eq_refl)) eq_refl).
  - exact (proj1 (proj2 (no_speech_failure_absorbed
                           (sample_env (Ok ({| yielded := []; failure := Some max_of_empty |},
                                            sample_info)))
                           [x01] None (Some (str "transcribe")) initial max_of_empty
                           (or_intror eq_refl)) [] sample_info eq_refl) eq_refl).
Defined.

(** What is left out of the amended C3: a failure while materializing whose
    text has just one of "max()" and "empty" is absorbed too. *)
Lemma materializing_failure_absorbed (w : env) audio_bytes language task st e segs info :
  model_ready w st ->
  model_transcribe w (fs (staged w audio_bytes st))
    (transcribe_call_of (mktemp w (fs st)) language task)
  = Ok ({| yielded := segs; failure := Some e |}, info) ->
  max_or_empty e = true ->
  transcribe w (Ok audio_bytes) language task st
  = (Returned (no_speech (if float_truthy (info_duration info)
                          then info_duration info else 0%float)),
     cleaned w st).
Proof.
  intros Hr Hm He. rewrite (transcribe_staged _ _ _ _ _ Hr), Hm. cbn [failure].
  rewrite He. reflexivity.
Qed.

(** *** The temporary file *)

Lemma fs_cleaned w st : fs (cleaned w st) = delete (mktemp w (fs st)) (fs st).
Proof. reflexivity. Qed.

Lemma staged_inv w audio_bytes language st :
  gen_inv (mktemp w (fs st)) (fs st)
    {| gen_tmp_path := mktemp w (fs st); gen_language := language;
       gen_state_of := Created |}
    (staged w audio_bytes st).
Proof. split; [reflexivity|]. cbn. by exists audio_bytes. Qed.

(** C4 (as stated, refuted): the call of [transcribe_stream] ends with the
    temporary file still in place. The endpoint stages the upload and
    returns the response around a generator that has not started; the model
    reads the file only when the body is iterated, and the [finally] that
    unlinks it belongs to the generator. *)
Lemma stream_returns_with_file : ~ removed_after_every_call.
Proof.
  intros H.
  destruct (H (sample_env (Ok ({| yielded := hello_world; failure := None |},
                               sample_info)))
              [x01] None None false initial (or_intror eq_refl)) as (_ & _ & H3).
  rewrite transcribe_stream_staged in H3 by (right; reflexivity).
  cbn [snd staged fs] in H3. rewrite lookup_insert_eq in H3. discriminate H3.
Qed.

(** C4 (amended): once the upload is staged in the temporary file
    [mktemp w (fs st)], every way through [transcribe] and
    [transcribe_detailed] (a result, the no-speech result, a failure of the
    model) ends with that file unlinked and the other files as they were;
    [transcribe_stream] returns with the file in place for its generator, and
    a consumer that iterates the generator to its end (the last event or the
    failure) leaves the file unlinked; the iteration does end. *)
Theorem temporary_file_removed (w : env) (audio_bytes : bytes)
    (language task : option pystr) (word_timestamps : bool) (st : state) :
  model_ready w st ->
  (fs (transcribe w (Ok audio_bytes) language task st).2
     = delete (mktemp w (fs st)) (fs st) /\
   fs (transcribe w (Ok audio_bytes) language task st).2 !! mktemp w (fs st) = None) /\
  (fs (transcribe_detailed w (Ok audio_bytes) language task word_timestamps st).2
     = delete (mktemp w (fs st)) (fs st) /\
   fs (transcribe_detailed w (Ok audio_bytes) language task word_timestamps st).2
     !! mktemp w (fs st) = None) /\
  exists r st1,
    transcribe_stream w (Ok audio_bytes) language st = (Returned r, st1) /\
    gen_tmp_path (body_iterator r) = mktemp w (fs st) /\
    fs st1 !! mktemp w (fs st) = Some audio_bytes /\
    (forall fuel,
       (drain w fuel (body_iterator r) st1).1.1.2 <> OutOfFuel ->
       fs (drain w fuel (body_iterator r) st1).2 = delete (mktemp w (fs st)) (fs st) /\
       fs (drain w fuel (body_iterator r) st1).2 !! mktemp w (fs st) = None) /\
    exists n, forall fuel,
      (n <= fuel)%nat -> (drain w fuel (body_iterator r) st1).1.1.2 <> OutOfFuel.
Proof.
  intros Hr. repeat split.
  - rewrite (transcribe_staged _ _ _ _ _ Hr). reflexivity.
  - rewrite (transcribe_staged _ _ _ _ _ Hr). cbn. apply lookup_delete_eq.
  - rewrite (transcribe_detailed_staged _ _ _ _ _ _ Hr). reflexivity.
  - rewrite (transcribe_detailed_staged _ _ _ _ _ _ Hr). cbn. apply lookup_delete_eq.
  - eexists _, _. split; [apply (transcribe_stream_staged _ _ _ _ Hr)|].
    cbn [body_iterator gen_tmp_path].
    split; [reflexivity|].
    split; [cbn; apply lookup_insert_eq|].
    split.
    + intros fuel Hd.
      destruct (drain_inv w _ _ fuel _ _ (staged_inv w audio_bytes language st))
        as [[_ Hi] Hf].
      rewrite (Hf Hd) in Hi. rewrite Hi. split; [reflexivity | apply lookup_delete_eq].
    + destruct (model_transcribe w (fs (staged w audio_bytes st))
                  (stream_call_of (mktemp w (fs st)) language))
        as [[segs info]|e] eqn:Hm.
      * exists (length (yielded segs) + 3)%nat. intros fuel Hfuel.
        rewrite (drain_created w (mktemp w (fs st)) language (staged w audio_bytes st) audio_bytes (fs st) fuel segs info
                   eq_refl Hm Hfuel).
        cbn. destruct (failure segs); discriminate.
      * exists 1%nat. intros fuel Hfuel.
        rewrite (drain_created_raises w (mktemp w (fs st)) language (staged w audio_bytes st) audio_bytes (fs st) fuel e
                   eq_refl Hm Hfuel).
        discriminate.
Qed.

(** A request whose transcription fails: the file is gone afterwards. *)
Lemma temporary_file_removed_witness :
  fs (transcribe (sample_env (Raise queue_is_empty)) (Ok [x01]) None
        (Some (str "transcribe")) initial).2 !! str "/tmp/tmpk3_x9.wav" = None /\
  fs (transcribe_detailed (sample_env (Raise queue_is_empty)) (Ok [x01]) None
        (Some (str "transcribe")) false initial).2 !! str "/tmp/tmpk3_x9.wav" = None.
Proof.
  pose proof (temporary_file_removed (sample_env (Raise queue_is_empty)) [x01] None
                (Some (str "transcribe")) false initial (or_intror eq_refl)) as H.
  split.
  - exact (proj2 (proj1 H)).
  - exact (proj2 (proj1 (proj2 H))).
Defined.

(** A generator that was started and is then closed early also unlinks the
    file. *)
Lemma gen_next_not_created w g st : gen_state_of (gen_next w g st).1.2 <> Created.
Proof.
  unfold gen_next, leave.
  destruct (gen_state_of g) as [|rest f| |] eqn:E.
  - destruct (model_transcribe w _ _) as [[segs info]|e]; [discriminate|].
    destruct (unlink _ _) as [[|] ?]; discriminate.
  - destruct rest as [|segment rest]; [destruct f as [e|]|]; try discriminate.
    destruct (unlink _ _) as [[|] ?]; discriminate.
  - destruct (unlink _ _) as [[|] ?]; discriminate.
  - cbn. rewrite E. discriminate.
Qed.

Lemma close_after_first_event (w : env) audio_bytes language st r st1 :
  model_ready w st ->
  transcribe_stream w (Ok audio_bytes) language st = (Returned r, st1) ->
  fs (gen_close (gen_next w (body_iterator r) st1).1.2
                (gen_next w (body_iterator r) st1).2).2
  = delete (mktemp w (fs st)) (fs st).
Proof.
  intros Hr Hs. rewrite (transcribe_stream_staged _ _ _ _ Hr) in Hs.
  injection Hs as <- <-. cbn [body_iterator].
  apply gen_close_inv.
  - apply gen_next_inv, staged_inv.
  - apply gen_next_not_created.
Qed.

(** *** Detailed transcription *)

(** C6: when the model yields a non-empty sequence of segments (and the
    upload was staged), [transcribe_detailed] returns as many segments, in
    the same order; the one at position [i] has id [i], the start and end of
    the [i]-th segment and its text stripped, which has no white space at
    either end; the top-level text is the stripped texts joined by single
    spaces, in order. *)
Theorem detailed_segments_in_order (w : env) (audio_bytes : bytes)
    (language task : option pystr) (word_timestamps : bool) (st : state)
    (segs : list Segment) (info : TranscriptionInfo) :
  model_ready w st ->
  model_transcribe w (fs (staged w audio_bytes st))
    (detailed_call_of (mktemp w (fs st)) language task word_timestamps)
  = Ok ({| yielded := segs; failure := None |}, info) ->
  segs <> [] ->
  exists r,
    transcribe_detailed w (Ok audio_bytes) language task word_timestamps st
    = (Returned r, cleaned w st) /\
    d_text r = join (str " ") (map (fun segment => strip (seg_text segment)) segs) /\
    length (d_segments r) = length segs /\
    (forall i segment,
       segs !! i = Some segment ->
       exists ts,
         d_segments r !! i = Some ts /\
         id ts = i /\
         ts_start ts = seg_start segment /\
         ts_end ts = seg_end segment /\
         ts_text ts = strip (seg_text segment) /\
         trimmed (ts_text ts)) /\
    d_language r = info_language info /\
    d_language_probability r = info_language_probability info /\
    d_duration r = info_duration info.
Proof.
  intros Hr Hm Hne.
  rewrite (transcribe_detailed_staged _ _ _ _ _ _ Hr), Hm. cbn [failure yielded].
  destruct segs as [|s0 segs']; [contradiction|].
  eexists. split; [reflexivity|]. cbn [d_text d_segments d_language
    d_language_probability d_duration].
  split; [reflexivity|].
  split; [apply length_imap|].
  split; [|repeat split].
  intros i segment Hi.
  exists (seg_data_of word_timestamps i segment).
  split; [rewrite list_lookup_imap, Hi; reflexivity|].
  repeat split; try apply strip_trimmed.
Qed.

(** The segments " hello" (0.0 to 1.2) and " world " (1.2 to 2.5): the text
    is "hello world". *)
Lemma detailed_segments_in_order_witness :
  exists r,
    transcribe_detailed
      (sample_env (Ok ({| yielded := hello_world; failure := None |}, sample_info)))
      (Ok [x01]) None (Some (str "transcribe")) false initial
    = (Returned r,
       cleaned (sample_env (Ok ({| yielded := hello_world; failure := None |},
                                sample_info))) initial) /\
    d_text r = str "hello world" /\
    length (d_segments r) = 2%nat.
Proof.
  destruct (detailed_segments_in_order
              (sample_env (Ok ({| yielded := hello_world; failure := None |},
                               sample_info)))
              [x01] None (Some (str "transcribe")) false initial
              hello_world sample_info (or_intror eq_refl) eq_refl
              ltac:(discriminate))
    as (r & H1 & H2 & H3 & _).
  exists r. split; [exact H1|]. split; [exact H2 | exact H3].
Defined.

(** *** The event stream *)

(** C8: when the model answers and its segments come without a failure, the
    generator of [transcribe_stream], iterated to its end, yields the text of
    one "info" event with the detected language and its probability, then of
    one "segment" event per segment, in the order of the segments, each with
    the segment's start, end and stripped text, then of one "done" event, and
    stops; asked again it only stops again, so nothing follows "done". The
    texts are spelled out: the "info" line with the language between single
    quotes and the text of the probability, a "data: " line around the JSON
    object of each segment ([json_dumps_segment] is [json.dumps] of the
    dictionary with "type": "segment", the start, the end and the text), and
    the fixed "done" line; each ends in an empty line. *)
Theorem stream_event_sequence (w : env) (audio_bytes : bytes)
    (language : option pystr) (st : state) (segs : list Segment)
    (info : TranscriptionInfo) (fuel : nat) :
  model_ready w st ->
  model_transcribe w (fs (staged w audio_bytes st))
    (stream_call_of (mktemp w (fs st)) language)
  = Ok ({| yielded := segs; failure := None |}, info) ->
  (length segs + 3 <= fuel)%nat ->
  exists r g,
    transcribe_stream w (Ok audio_bytes) language st
    = (Returned r, staged w audio_bytes st) /\
    drain w fuel (body_iterator r) (staged w audio_bytes st)
    = (map (sse w)
         ([InfoEvent (info_language info) (info_language_probability info)]
          ++ map (fun segment =>
                    SegmentEvent (seg_start segment) (seg_end segment)
                      (strip (seg_text segment))) segs
          ++ [DoneEvent]),
       Exhausted, g, cleaned w st) /\
    drain w fuel (body_iterator r) (staged w audio_bytes st)
    = ([str "data: {'type': 'info', 'language': '" ++ info_language info
        ++ str "', 'probability': " ++ str_float w (info_language_probability info)
        ++ str "}" ++ [10%N; 10%N]]
       ++ map (fun segment =>
                 str "data: "
                 ++ json_dumps_segment w (seg_start segment) (seg_end segment)
                      (strip (seg_text segment))
                 ++ [10%N; 10%N]) segs
       ++ [str "data: {" ++ [34%N] ++ str "type" ++ [34%N] ++ str ": "
           ++ [34%N] ++ str "done" ++ [34%N] ++ str "}" ++ [10%N; 10%N]],
       Exhausted, g, cleaned w st) /\
    gen_state_of g = Finished /\
    forall st', gen_next w g st' = (StopIteration, g, st').
Proof.
  intros Hr Hm Hfuel.
  eexists _, _.
  split; [apply (transcribe_stream_staged _ _ _ _ Hr)|].
  cbn [body_iterator].
  rewrite (drain_created w (mktemp w (fs st)) language (staged w audio_bytes st)
             audio_bytes (fs st) fuel _ info eq_refl Hm Hfuel).
  cbn [yielded failure].
  split; [reflexivity|].
  split.
  - f_equal. f_equal. f_equal.
    change (InfoEvent (info_language info) (info_language_probability info)
            :: map segment_event segs ++ [DoneEvent])
      with ([InfoEvent (info_language info) (info_language_probability info)]
            ++ map segment_event segs ++ [DoneEvent]).
    rewrite !map_app, map_map. reflexivity.
  - split; [reflexivity|]. intros st'. reflexivity.
Qed.

(** The two segments " hello" and " world " as a stream, printed as Python
    prints them: the info line, two segment lines, the done line. *)
Lemma stream_event_sequence_witness :
  exists r g,
    transcribe_stream
      (printing_env (Ok ({| yielded := hello_world; failure := None |}, sample_info)))
      (Ok [x01]) None initial
    = (Returned r,
       staged (printing_env (Ok ({| yielded := hello_world; failure := None |},
                                 sample_info))) [x01] initial) /\
    drain (printing_env (Ok ({| yielded := hello_world; failure := None |}, sample_info)))
      5 (body_iterator r)
      (staged (printing_env (Ok ({| yielded := hello_world; failure := None |},
                                 sample_info))) [x01] initial)
    = ([str "data: {'type': 'info', 'language': 'en', 'probability': 0.98}"
        ++ [10%N; 10%N];
        str "data: {" ++ dq ++ str "type" ++ dq ++ str ": " ++ dq ++ str "segment" ++ dq
        ++ str ", " ++ dq ++ str "start" ++ dq ++ str ": 0.0, "
        ++ dq ++ str "end" ++ dq ++ str ": 1.2, "
        ++ dq ++ str "text" ++ dq ++ str ": " ++ dq ++ str "hello" ++ dq ++ str "}"
        ++ [10%N; 10%N];
        str "data: {" ++ dq ++ str "type" ++ dq ++ str ": " ++ dq ++ str "segment" ++ dq
        ++ str ", " ++ dq ++ str "start" ++ dq ++ str ": 1.2, "
        ++ dq ++ str "end" ++ dq ++ str ": 2.5, "
        ++ dq ++ str "text" ++ dq ++ str ": " ++ dq ++ str "world" ++ dq ++ str "}"
        ++ [10%N; 10%N];
        str "data: {" ++ dq ++ str "type" ++ dq ++ str ": " ++ dq ++ str "done" ++ dq
        ++ str "}" ++ [10%N; 10%N]],
       Exhausted, g,
       cleaned (printing_env (Ok ({| yielded := hello_world; failure := None |},
                                  sample_info))) initial) /\
    gen_state_of g = Finished /\
    forall st',
      gen_next (printing_env (Ok ({| yielded := hello_world; failure := None |},
                                  sample_info))) g st'
      = (StopIteration, g, st').
Proof.
  destruct (stream_event_sequence
              (printing_env (Ok ({| yielded := hello_world; failure := None |},
                                 sample_info)))
              [x01] None initial hello_world sample_info 5
              (or_intror eq_refl) eq_refl ltac:(cbn; lia))
    as (r & g & H1 & _ & H3 & H4 & H5).
  exists r, g. split; [exact H1|]. split; [exact H3|]. split; [exact H4 | exact H5].
Defined.

End Whisper.

(** ** More about services/piper/main.py *)

Module PiperFacts.
Import Py Piper.

(** The first newline of a byte string splits it in a line and the rest. *)
Fixpoint split_line (b : bytes) : option (bytes * bytes) :=
  match b with
  | [] => None
  | c :: b' =>
      if Byte.eqb c x0a then Some ([], b')
      else
        match split_line b' with
        | Some (line, rest) => Some (c :: line, rest)
        | None => None
        end
  end.

(** Every value of a header fits its field. *)
Definition header_fits (R C D N : Z) : Prop :=
  fits_I R /\ fits_H C /\ fits_H D /\ fits_I (36 + N) /\ fits_I N /\
  fits_I (R * C * D / 8) /\ fits_H (C * D / 8).

#[local] Instance header_fits_dec R C D N : Decision (header_fits R C D N).
Proof. unfold header_fits, fits_I, fits_H. apply _. Defined.

(** X1: [create_wav_header] returns a header exactly when every value fits
    its field, and then the header has 44 bytes; in every other case
    [struct.pack] raises and nothing is returned. *)
Theorem create_wav_header_succeeds_iff (R C D N : Z) :
  ((exists h, create_wav_header R C D N = Ok h) <-> header_fits R C D N) /\
  (forall h, create_wav_header R C D N = Ok h -> length h = 44%nat) /\
  (~ header_fits R C D N -> exists e, create_wav_header R C D N = Raise e
                                      /\ exc_type e = StructError).
Proof.
  destruct (decide (header_fits R C D N)) as [Hf|Hn].
  - pose proof Hf as (HR & HC & HD & HS & HN & HB & HA).
    rewrite (create_wav_header_layout R C D N HR HC HD HS HN HB HA).
    split; [split; [intros _; exact Hf | intros _; eauto]|].
    split; [intros h [= <-]; reflexivity | contradiction].
  - rewrite (create_wav_header_raises R C D N Hn).
    split; [split; [intros [h Hh]; discriminate Hh | contradiction]|].
    split; [intros h Hh; discriminate Hh | intros _; eauto].
Qed.

Lemma create_wav_header_ok R C D N h :
  create_wav_header R C D N = Ok h ->
  header_fits R C D N /\ h = wav_layout R C D N.
Proof.
  intros Hh. destruct (decide (header_fits R C D N)) as [Hf|Hn].
  - split; [exact Hf|].
    destruct Hf as (HR & HC & HD & HS & HN & HB & HA).
    rewrite (create_wav_header_layout R C D N HR HC HD HS HN HB HA) in Hh.
    by injection Hh.
  - rewrite (create_wav_header_raises R C D N Hn) in Hh. discriminate Hh.
Qed.

Lemma mono16_fits (R N : Z) :
  header_fits R 1 16 N <-> 0 <= R <= 2147483647 /\ 0 <= N /\ 36 + N <= 4294967295.
Proof.
  unfold header_fits, fits_I, fits_H.
  replace (R * 1 * 16 / 8) with (2 * R)
    by (replace (R * 1 * 16) with (2 * R * 8) by lia; by rewrite Z.div_mul).
  change (1 * 16 / 8) with 2. lia.
Qed.

Section Inversion.

Variable cfg : config.
Variable w : os.

(** What must have happened for [speak] to return. *)
Lemma speak_inv req t r t' :
  speak cfg w req t = (Returned r, t') ->
  exists raw,
    synthesize_speech cfg w (text req) (length_scale_of cfg (speed req))
      (noise_scale req) (noise_w req) t = (Ok raw, t') /\
    raw <> [] /\
    1 <= SAMPLE_RATE cfg <= 2147483647 /\
    36 + Z.of_nat (length raw) <= 4294967295.
Proof.
  unfold speak, speak_try, mbind.
  destruct (synthesize_speech _ _ _ _ _ _ t) as [[raw|e] t1];
    [|rewrite to_http_500_raise; discriminate].
  destruct raw as [|b raw]; [unfold raise; rewrite to_http_500_raise; discriminate|].
  unfold lift.
  destruct (create_wav_header _ _ _ _) as [h|e] eqn:Eh;
    [|rewrite to_http_500_raise; discriminate].
  apply create_wav_header_ok in Eh as [Hf _]. apply mono16_fits in Hf.
  unfold str_of_truediv.
  destruct (Z.eqb_spec (SAMPLE_RATE cfg * 2) 0) as [Hz|Hz];
    [rewrite to_http_500_raise; discriminate|].
  cbn. intros [= _ <-]. exists (b :: raw).
  split; [reflexivity|]. split; [discriminate|]. lia.
Qed.

Lemma speak_stream_inv req t s t' :
  speak_stream cfg w req t = (Returned s, t') ->
  exists raw,
    synthesize_speech cfg w (text req) (length_scale_of cfg (speed req))
      (noise_scale req) (noise_w req) t = (Ok raw, t') /\
    raw <> [] /\
    0 <= SAMPLE_RATE cfg <= 2147483647 /\
    36 + Z.of_nat (length raw) <= 4294967295.
Proof.
  unfold speak_stream, speak_stream_try, mbind.
  destruct (synthesize_speech _ _ _ _ _ _ t) as [[raw|e] t1];
    [|rewrite to_http_500_raise; discriminate].
  destruct raw as [|b raw]; [unfold raise; rewrite to_http_500_raise; discriminate|].
  unfold lift.
  destruct (create_wav_header _ _ _ _) as [h|e] eqn:Eh;
    [|rewrite to_http_500_raise; discriminate].
  apply create_wav_header_ok in Eh as [Hf _]. apply mono16_fits in Hf.
  cbn. intros [= _ <-]. exists (b :: raw).
  split; [reflexivity|]. split; [discriminate|]. lia.
Qed.

Lemma speak_chunks_inv req t s t' :
  speak_chunks cfg w req t = (Returned s, t') ->
  exists raw,
    synthesize_speech cfg w (text req) (length_scale_of cfg (speed req))
      (noise_scale req) (noise_w req) t = (Ok raw, t') /\
    raw <> [] /\
    SAMPLE_RATE cfg <> 0.
Proof.
  unfold speak_chunks, speak_chunks_try, mbind.
  destruct (synthesize_speech _ _ _ _ _ _ t) as [[raw|e] t1]; [|discriminate].
  destruct raw as [|b raw]; [discriminate|].
  unfold lift, str_of_truediv.
  destruct (Z.eqb_spec (SAMPLE_RATE cfg * 2) 0) as [Hz|Hz]; [discriminate|].
  cbn. intros [= _ <-]. exists (b :: raw).
  split; [reflexivity|]. split; [discriminate|]. lia.
Qed.

End Inversion.

(** X2: whatever [speak] returns is a well-formed WAV file: 44 bytes of
    header followed by the audio Piper wrote, never empty; the header
    declares exactly the audio's length ([Subchunk2Size]) and the file's
    length less 8 ([ChunkSize]), PCM format, one channel, 16 bits, the
    configured sample rate, and a byte rate and block align derived from
    them. *)
Theorem speak_response_is_wav (cfg : config) (w : os) (req : SpeakRequest)
    (t t' : trace) (r : Response) :
  speak cfg w req t = (Returned r, t') ->
  exists raw,
    synthesize_speech cfg w (text req) (length_scale_of cfg (speed req))
      (noise_scale req) (noise_w req) t = (Ok raw, t') /\
    raw <> [] /\
    drop 44 (content r) = raw /\
    length (content r) = (44 + length raw)%nat /\
    ChunkID (content r) = list_byte_of_string "RIFF" /\
    ChunkSize (content r) = Z.of_nat (length (content r)) - 8 /\
    Format (content r) = list_byte_of_string "WAVE" /\
    AudioFormat (content r) = 1 /\
    NumChannels (content r) = 1 /\
    SampleRate (content r) = SAMPLE_RATE cfg /\
    ByteRate (content r) = 2 * SAMPLE_RATE cfg /\
    BlockAlign (content r) = 2 /\
    BitsPerSample (content r) = 16 /\
    Subchunk2Size (content r) = Z.of_nat (length raw).
Proof.
  intros Hs. destruct (speak_inv cfg w req t r t' Hs) as (raw & Hsyn & Hne & HR & HN).
  assert (Hc : content r
               = wav_layout (SAMPLE_RATE cfg) 1 16 (Z.of_nat (length raw)) ++ raw).
  { pose proof (speak_returns cfg w req t raw t' Hsyn Hne HR HN) as Hr.
    rewrite Hs in Hr. assert (Hr' := f_equal fst Hr). cbn [fst] in Hr'.
    by injection Hr' as ->. }
  exists raw. rewrite Hc.
  split; [exact Hsyn|]. split; [exact Hne|].
  split; [reflexivity|].
  split; [rewrite length_app; reflexivity|].
  assert (Hb : 2 * SAMPLE_RATE cfg = SAMPLE_RATE cfg * 1 * 16 / 8).
  { replace (SAMPLE_RATE cfg * 1 * 16) with (2 * SAMPLE_RATE cfg * 8) by lia.
    by rewrite Z.div_mul. }
  rewrite length_app.
  unfold ChunkID, ChunkSize, Format, AudioFormat, NumChannels, SampleRate,
    ByteRate, BlockAlign, BitsPerSample, Subchunk2Size, wav_layout, slice.
  cbn -[byte_of_Z Z.div Z.add Z.mul Z.sub le_int Z.of_nat].
  repeat split.
  - transitivity (36 + Z.of_nat (length raw)); [|lia].
    apply (le_int_I (36 + Z.of_nat (length raw))). unfold fits_I. lia.
  - apply (le_int_I (SAMPLE_RATE cfg)). unfold fits_I. lia.
  - transitivity (SAMPLE_RATE cfg * 1 * 16 / 8); [|lia].
    apply (le_int_I (SAMPLE_RATE cfg * 1 * 16 / 8)). rewrite <- Hb. unfold fits_I. lia.
  - apply (le_int_I (Z.of_nat (length raw))). unfold fits_I. lia.
Qed.

(** Three bytes of audio under the default configuration. *)
Lemma speak_response_is_wav_witness :
  exists r raw,
    speak default_config (sample_os (Ok (exits 0 [x01; x02; x03] [])))
      sample_request [] = (Returned r,
        [piper_cmd default_config (sample_os (Ok (exits 0 [x01; x02; x03] [])))
           1.0%float None None]) /\
    drop 44 (content r) = raw /\
    Subchunk2Size (content r) = Z.of_nat (length raw) /\
    ChunkSize (content r) = Z.of_nat (length (content r)) - 8.
Proof.
  eexists _. 
  destruct (speak_response_is_wav default_config
              (sample_os (Ok (exits 0 [x01; x02; x03] []))) sample_request []
              _ _ eq_refl)
    as (raw & _ & _ & H3 & _ & _ & H6 & _ & _ & _ & _ & _ & _ & _ & H14).
  exists raw. split; [reflexivity|]. split; [exact H3|]. split; [exact H14 | exact H6].
Defined.

(** X3: [speak] returns a response exactly when synthesis gave non-empty
    audio, the configured sample rate is between 1 and 2^31 - 1 and
    [36 + len(audio)] fits 32 bits; in every other case it leaves with an
    [HTTPException] of status 500, never another status. *)
Theorem speak_returns_iff (cfg : config) (w : os) (req : SpeakRequest) (t : trace) :
  ((exists r t', speak cfg w req t = (Returned r, t')) <->
   (exists raw t',
      synthesize_speech cfg w (text req) (length_scale_of cfg (speed req))
        (noise_scale req) (noise_w req) t = (Ok raw, t') /\
      raw <> [] /\
      1 <= SAMPLE_RATE cfg <= 2147483647 /\
      36 + Z.of_nat (length raw) <= 4294967295)) /\
  (forall status detail t',
     speak cfg w req t = (HTTPException status detail, t') -> status = 500).
Proof.
  split; [split|].
  - intros (r & t' & Hs). destruct (speak_inv cfg w req t r t' Hs) as (raw & H).
    by exists raw, t'.
  - intros (raw & t' & Hsyn & Hne & HR & HN).
    eexists _, t'. apply (speak_returns cfg w req t raw t' Hsyn Hne HR HN).
  - intros status detail t'. unfold speak.
    destruct (speak_try cfg w req t) as [[r|e] t1]; [discriminate|].
    rewrite to_http_500_raise. by intros [= <- _ _].
Qed.

(** X4: [speak_stream] returns its stream exactly when synthesis gave
    non-empty audio, the sample rate is between 0 and 2^31 - 1 and
    [36 + len(audio)] fits 32 bits; [speak_chunks], which builds no header,
    exactly when synthesis gave non-empty audio and the sample rate is not
    0. So with a sample rate of 0 [speak_stream] still streams while [speak]
    and [speak_chunks] fail on the division for the duration. *)
Theorem stream_and_chunks_return_iff (cfg : config) (w : os) (req : SpeakRequest)
    (t : trace) :
  ((exists s t', speak_stream cfg w req t = (Returned s, t')) <->
   (exists raw t',
      synthesize_speech cfg w (text req) (length_scale_of cfg (speed req))
        (noise_scale req) (noise_w req) t = (Ok raw, t') /\
      raw <> [] /\
      0 <= SAMPLE_RATE cfg <= 2147483647 /\
      36 + Z.of_nat (length raw) <= 4294967295)) /\
  ((exists s t', speak_chunks cfg w req t = (Returned s, t')) <->
   (exists raw t',
      synthesize_speech cfg w (text req) (length_scale_of cfg (speed req))
        (noise_scale req) (noise_w req) t = (Ok raw, t') /\
      raw <> [] /\
      SAMPLE_RATE cfg <> 0)).
Proof.
  split; split.
  - intros (s & t' & Hs). destruct (speak_stream_inv cfg w req t s t' Hs) as (raw & H).
    by exists raw, t'.
  - intros (raw & t' & Hsyn & Hne & HR & HN).
    eexists _, t'. apply (speak_stream_returns cfg w req t raw t' Hsyn Hne HR HN).
  - intros (s & t' & Hs). destruct (speak_chunks_inv cfg w req t s t' Hs) as (raw & H).
    by exists raw, t'.
  - intros (raw & t' & Hsyn & Hne & HR).
    eexists _, t'. apply (speak_chunks_returns cfg w req t raw t' Hsyn Hne HR).
Qed.

Lemma length_slice {A} (b : list A) (i n : nat) :
  length (slice b i n) = Nat.min n (length b - i).
Proof. unfold slice. by rewrite length_take, length_drop. Qed.

(** X5: in the stream [speak_stream] returns, the first piece is the 44-byte
    header and declares the total length of the pieces after it; each later
    piece is non-empty and at most 4096 bytes long, and every one but the
    last is exactly 4096 bytes. *)
Theorem stream_piece_sizes (cfg : config) (w : os) (req : SpeakRequest)
    (t t' : trace) (s : StreamingResponse) :
  speak_stream cfg w req t = (Returned s, t') ->
  exists wav_header pieces,
    body_iterator s = wav_header :: pieces /\
    length wav_header = 44%nat /\
    Subchunk2Size wav_header = Z.of_nat (length (concat pieces)) /\
    length pieces = ((length (concat pieces) + 4095) / 4096)%nat /\
    forall i piece,
      pieces !! i = Some piece ->
      (0 < length piece <= 4096)%nat /\
      ((S i < length pieces)%nat -> length piece = 4096%nat).
Proof.
  intros Hs. destruct (speak_stream_inv cfg w req t s t' Hs) as (raw & Hsyn & Hne & HR & HN).
  assert (Hb : body_iterator s
               = generate_audio (wav_layout (SAMPLE_RATE cfg) 1 16
                                   (Z.of_nat (length raw))) raw).
  { pose proof (speak_stream_returns cfg w req t raw t' Hsyn Hne HR HN) as Hr.
    rewrite Hs in Hr. assert (Hr' := f_equal fst Hr). cbn [fst] in Hr'.
    by injection Hr' as ->. }
  pose proof (concat_generate_audio
                (wav_layout (SAMPLE_RATE cfg) 1 16 (Z.of_nat (length raw))) raw) as Hcat.
  rewrite Hb. unfold generate_audio in *. cbn [concat] in Hcat.
  apply app_inv_head in Hcat.
  eexists _, _. split; [reflexivity|]. rewrite Hcat.
  split; [reflexivity|].
  split.
  { unfold Subchunk2Size, wav_layout, slice.
    cbn -[byte_of_Z Z.div Z.add Z.mul le_int Z.of_nat].
    apply (le_int_I (Z.of_nat (length raw))). unfold fits_I. lia. }
  split.
  { unfold range0. rewrite !length_map, length_seq. f_equal. lia. }
  intros i piece Hi.
  assert (Hlen : length (map (fun i0 => slice raw i0 4096) (range0 (length raw) 4096))
                 = ((length raw + 4096 - 1) / 4096)%nat)
    by (unfold range0; by rewrite !length_map, length_seq).
  destruct (generate_audio_pieces
              (wav_layout (SAMPLE_RATE cfg) 1 16 (Z.of_nat (length raw))) raw i piece)
    as [-> Hlt]; [exact Hi|].
  rewrite length_slice. split; [lia|].
  rewrite Hlen. intros Hnext.
  assert (Hd := Nat.div_mod_eq (length raw + 4096 - 1) 4096).
  assert (Hm := Nat.mod_upper_bound (length raw + 4096 - 1) 4096 ltac:(lia)).
  lia.
Qed.

(** Three bytes of audio: the header and one piece. *)
Lemma stream_piece_sizes_witness :
  exists s wav_header pieces,
    speak_stream default_config (sample_os (Ok (exits 0 [x01; x02; x03] [])))
      sample_request []
    = (Returned s,
       [piper_cmd default_config (sample_os (Ok (exits 0 [x01; x02; x03] [])))
          1.0%float None None]) /\
    body_iterator s = wav_header :: pieces /\
    length wav_header = 44%nat /\
    Subchunk2Size wav_header = Z.of_nat (length (concat pieces)).
Proof.
  eexists _.
  destruct (stream_piece_sizes default_config
              (sample_os (Ok (exits 0 [x01; x02; x03] []))) sample_request []
              _ _ eq_refl)
    as (h & ps & H1 & H2 & H3 & _).
  exists h, ps. split; [reflexivity|]. split; [exact H1|]. split; [exact H2 | exact H3].
Defined.

Lemma split_line_app (line rest : bytes) :
  x0a ∉ line -> split_line (line ++ x0a :: rest) = Some (line, rest).
Proof.
  induction line as [|c line IH]; intros Hn.
  - reflexivity.
  - cbn [app split_line].
    destruct (Byte.eqb c x0a) eqn:E.
    + apply Byte.byte_dec_bl in E. subst c. exfalso. apply Hn. left.
    + rewrite IH; [reflexivity|]. intros Hin. apply Hn. by right.
Qed.

(** X6: [speak_chunks] answers with exactly two pieces, the metadata line and
    the audio as Piper wrote it. As long as the JSON text has no newline in
    it, a consumer that cuts the byte stream at its first newline gets the
    metadata and the audio back exactly, whatever bytes the audio holds. *)
Theorem chunks_split_at_first_newline (cfg : config) (w : os)
    (req : SpeakRequest) (t t' : trace) (s : StreamingResponse) :
  speak_chunks cfg w req t = (Returned s, t') ->
  (forall n, x0a ∉ json_dumps_metadata w (SAMPLE_RATE cfg) n
                     (SAMPLE_RATE cfg * 2) (text req)) ->
  exists raw,
    synthesize_speech cfg w (text req) (length_scale_of cfg (speed req))
      (noise_scale req) (noise_w req) t = (Ok raw, t') /\
    body_iterator s
      = [json_dumps_metadata w (SAMPLE_RATE cfg) (Z.of_nat (length raw))
           (SAMPLE_RATE cfg * 2) (text req) ++ [x0a]; raw] /\
    split_line (concat (body_iterator s))
      = Some (json_dumps_metadata w (SAMPLE_RATE cfg) (Z.of_nat (length raw))
                (SAMPLE_RATE cfg * 2) (text req), raw).
Proof.
  intros Hs Hnl.
  destruct (speak_chunks_inv cfg w req t s t' Hs) as (raw & Hsyn & Hne & HR).
  assert (Hb : body_iterator s
               = [json_dumps_metadata w (SAMPLE_RATE cfg) (Z.of_nat (length raw))
                    (SAMPLE_RATE cfg * 2) (text req) ++ [x0a]; raw]).
  { pose proof (speak_chunks_returns cfg w req t raw t' Hsyn Hne HR) as Hr.
    rewrite Hs in Hr. assert (Hr' := f_equal fst Hr). cbn [fst] in Hr'.
    by injection Hr' as ->. }
  exists raw. split; [exact Hsyn|]. split; [exact Hb|].
  rewrite Hb. cbn [concat]. rewrite app_nil_r, <- app_assoc. cbn [app].
  apply split_line_app, Hnl.
Qed.

(** Audio that itself holds newline bytes. *)
Lemma chunks_split_at_first_newline_witness :
  exists s raw,
    speak_chunks default_config (sample_os (Ok (exits 0 [x0a; x01; x0a] [])))
      sample_request []
    = (Returned s,
       [piper_cmd default_config (sample_os (Ok (exits 0 [x0a; x01; x0a] [])))
          1.0%float None None]) /\
    raw = [x0a; x01; x0a] /\
    split_line (concat (body_iterator s)) = Some (list_byte_of_string "{}", raw).
Proof.
  eexists _.
  destruct (chunks_split_at_first_newline default_config
              (sample_os (Ok (exits 0 [x0a; x01; x0a] []))) sample_request []
              _ _ eq_refl)
    as (raw & H1 & H2 & H3).
  { intros n Hin. cbn in Hin. by repeat (apply elem_of_cons in Hin as [Hin|Hin];
      [discriminate Hin|]); apply elem_of_nil in Hin. }
  exists raw. split; [reflexivity|]. split; [|exact H3].
  cbn in H1. by injection H1 as <-.
Defined.

(** *** Synthesis *)

(** X7: when Piper exits with status 0, [synthesize_speech] returns exactly
    what Piper wrote to stdout and started one process; stderr is never
    looked at, so output there (not even bytes that are no valid UTF-8)
    cannot make a successful synthesis fail. *)
Theorem synthesize_speech_ignores_stderr (cfg : config) (w : os) (txt : pystr)
    (ls : float) (ns nw : option float) (t : trace) (p : process)
    (input audio_data stderr : bytes) :
  popen w (piper_cmd cfg w ls ns nw) = Ok p ->
  encode_utf8 txt = Ok input ->
  communicate p input = (audio_data, stderr) ->
  returncode p input = 0 ->
  synthesize_speech cfg w txt ls ns nw t
  = (Ok audio_data, t ++ [piper_cmd cfg w ls ns nw]).
Proof.
  intros Hp Hi Hc Hr.
  pose proof (synthesize_speech_zero cfg w txt ls ns nw t p input audio_data stderr
                Hp Hi Hc Hr) as H1.
  pose proof (synthesize_speech_trace cfg w txt ls ns nw t) as H2.
  destruct (synthesize_speech cfg w txt ls ns nw t) as [r t1]. cbn in H1, H2.
  by subst.
Qed.

(** Status 0 with the byte 0xFF on stderr. *)
Lemma synthesize_speech_ignores_stderr_witness :
  synthesize_speech default_config (sample_os (Ok (exits 0 [x01; x02] [xff])))
    (str "hi") 1.0%float None None []
  = (Ok [x01; x02],
     [] ++ [piper_cmd default_config (sample_os (Ok (exits 0 [x01; x02] [xff])))
              1.0%float None None]).
Proof.
  exact (synthesize_speech_ignores_stderr default_config
           (sample_os (Ok (exits 0 [x01; x02] [xff]))) (str "hi") 1.0%float None None
           [] (exits 0 [x01; x02] [xff]) (list_byte_of_string "hi") [x01; x02] [xff]
           eq_refl eq_refl eq_refl eq_refl).
Defined.

(** X8: when [subprocess.Popen] raises, [synthesize_speech] turns a
    [FileNotFoundError] into the [RuntimeError] "Piper executable not found"
    and lets every other exception (a [PermissionError], say) through as it
    is; the one attempt is on record either way. *)
Theorem popen_failure_mapping (cfg : config) (w : os) (txt : pystr) (ls : float)
    (ns nw : option float) (t : trace) (e : exn) :
  popen w (piper_cmd cfg w ls ns nw) = Raise e ->
  synthesize_speech cfg w txt ls ns nw t
  = (Raise (match exc_type e with
            | FileNotFoundError => executable_not_found
            | _ => e
            end),
     t ++ [piper_cmd cfg w ls ns nw]).
Proof.
  intros Hp.
  unfold synthesize_speech, try_except, mbind, spawn, lift, raise, ret.
  rewrite Hp. cbn. destruct (exc_type e); reflexivity.
Qed.

(** A [PermissionError] from [Popen]. *)
Lemma popen_failure_mapping_witness :
  synthesize_speech default_config
    (sample_os (Raise (Exn (OtherError (str "PermissionError"))
                         (str "[Errno 13] Permission denied: 'piper'"))))
    (str "hi") 1.0%float None None []
  = (Raise (Exn (OtherError (str "PermissionError"))
              (str "[Errno 13] Permission denied: 'piper'")),
     [] ++ [piper_cmd default_config
              (sample_os (Raise (Exn (OtherError (str "PermissionError"))
                                   (str "[Errno 13] Permission denied: 'piper'"))))
              1.0%float None None]).
Proof.
  exact (popen_failure_mapping default_config
           (sample_os (Raise (Exn (OtherError (str "PermissionError"))
                                (str "[Errno 13] Permission denied: 'piper'"))))
           (str "hi") 1.0%float None None [] _ eq_refl).
Defined.

(** X9: a failure of synthesis, whatever it is, reaches the client of
    [speak], [speak_stream] and [speak_chunks] as an HTTP 500 whose detail is
    the text of the exception; a non-zero exit of Piper is thus reported with
    "Piper synthesis failed: " and what Piper wrote to stderr. *)
Theorem synthesis_failure_reported (cfg : config) (w : os) (req : SpeakRequest)
    (t t' : trace) (e : exn) :
  synthesize_speech cfg w (text req) (length_scale_of cfg (speed req))
    (noise_scale req) (noise_w req) t = (Raise e, t') ->
  speak cfg w req t = (HTTPException 500 (exc_str e), t') /\
  speak_stream cfg w req t = (HTTPException 500 (exc_str e), t') /\
  speak_chunks cfg w req t = (HTTPException 500 (exc_str e), t').
Proof.
  intros Hs.
  unfold speak, speak_stream, speak_chunks, speak_try, speak_stream_try,
    speak_chunks_try, mbind.
  rewrite Hs, !to_http_500_raise. repeat split.
Qed.

(** Piper exits with status 1 and "boom" on stderr. *)
Lemma synthesis_failure_reported_witness :
  speak default_config
    (sample_os (Ok (exits 1 [] (list_byte_of_string "boom")))) sample_request []
  = (HTTPException 500 (str "Piper synthesis failed: boom"),
     [piper_cmd default_config
        (sample_os (Ok (exits 1 [] (list_byte_of_string "boom")))) 1.0%float None None]).
Proof.
  exact (proj1 (synthesis_failure_reported default_config
                  (sample_os (Ok (exits 1 [] (list_byte_of_string "boom"))))
                  sample_request [] _ (synthesis_failed (str "boom")) eq_refl)).
Defined.

Lemma encode_surrogate (txt : pystr) (c : N) :
  c ∈ txt -> (55296 <= c <= 57343)%N -> encode_utf8_opt txt = None.
Proof.
  intros Hin Hc. induction txt as [|a txt IH]; [by apply elem_of_nil in Hin|].
  cbn [encode_utf8_opt].
  apply elem_of_cons in Hin as [<-|Hin].
  - assert (E : encode_cp c = None).
    { unfold encode_cp.
      destruct (Z.ltb_spec (Z.of_N c) 128); [lia|].
      destruct (Z.ltb_spec (Z.of_N c) 2048); [lia|].
      destruct (Z.ltb_spec (Z.of_N c) 65536); [|lia].
      destruct (Z.leb_spec 55296 (Z.of_N c)); [|lia].
      destruct (Z.leb_spec (Z.of_N c) 57343); [reflexivity | lia]. }
    rewrite E. reflexivity.
  - rewrite (IH Hin). destruct (encode_cp a); reflexivity.
Qed.

(** X10: a text that holds a surrogate code point (a JSON body may carry one
    as an escape) cannot be encoded for Piper's stdin: [synthesize_speech]
    raises a [UnicodeEncodeError] after the process was started, and [speak]
    answers HTTP 500. *)
Theorem surrogate_text_fails (cfg : config) (w : os) (req : SpeakRequest)
    (t : trace) (p : process) (c : N) :
  popen w (piper_cmd cfg w (length_scale_of cfg (speed req))
             (noise_scale req) (noise_w req)) = Ok p ->
  c ∈ text req ->
  (55296 <= c <= 57343)%N ->
  exists e,
    exc_type e = UnicodeEncodeError /\
    synthesize_speech cfg w (text req) (length_scale_of cfg (speed req))
      (noise_scale req) (noise_w req) t
    = (Raise e, t ++ [piper_cmd cfg w (length_scale_of cfg (speed req))
                        (noise_scale req) (noise_w req)]) /\
    speak cfg w req t
    = (HTTPException 500 (exc_str e),
       t ++ [piper_cmd cfg w (length_scale_of cfg (speed req))
               (noise_scale req) (noise_w req)]).
Proof.
  intros Hp Hin Hc.
  assert (Hsyn : exists e,
    exc_type e = UnicodeEncodeError /\
    synthesize_speech cfg w (text req) (length_scale_of cfg (speed req))
      (noise_scale req) (noise_w req) t
    = (Raise e, t ++ [piper_cmd cfg w (length_scale_of cfg (speed req))
                        (noise_scale req) (noise_w req)])).
  { unfold synthesize_speech, try_except, mbind, spawn, lift, raise, ret.
    rewrite Hp. cbn. unfold encode_utf8. rewrite (encode_surrogate _ c Hin Hc). cbn.
    eexists. split; [|reflexivity]. reflexivity. }
  destruct Hsyn as (e & He & Hsyn). exists e. split; [exact He|]. split; [exact Hsyn|].
  unfold speak, speak_try, mbind. rewrite Hsyn. apply to_http_500_raise.
Qed.

(** The text is the single code point U+D800. *)
Lemma surrogate_text_fails_witness :
  exists e,
    exc_type e = UnicodeEncodeError /\
    synthesize_speech default_config (sample_os (Ok (exits 0 [x01] [])))
      [55296%N] 1.0%float None None []
    = (Raise e,
       [] ++ [piper_cmd default_config (sample_os (Ok (exits 0 [x01] [])))
                1.0%float None None]).
Proof.
  destruct (surrogate_text_fails default_config (sample_os (Ok (exits 0 [x01] [])))
              (SpeakRequest_of [55296%N] (str "normal")) [] (exits 0 [x01] [])
              55296%N eq_refl ltac:(left) ltac:(lia))
    as (e & H1 & H2 & _).
  exists e. split; [exact H1 | exact H2].
Defined.

End PiperFacts.


(** ** GET /voices of services/piper/main.py

    Paths are the POSIX ones of [posixpath]. *)

Module Voices.
Import Py Piper.

(** The code point of [/]. *)
Definition sep : N := 47%N.

(** [s] up to its first [/], and [s] from its first [/] on. *)
Fixpoint before_sep (s : pystr) : pystr :=
  match s with
  | [] => []
  | c :: s' => if (c =? sep)%N then [] else c :: before_sep s'
  end.

Fixpoint from_sep (s : pystr) : pystr :=
  match s with
  | [] => []
  | c :: s' => if (c =? sep)%N then s else from_sep s'
  end.

(** [s.lstrip('/')] *)
Fixpoint lstrip_sep (s : pystr) : pystr :=
  match s with
  | [] => []
  | c :: s' => if (c =? sep)%N then lstrip_sep s' else s
  end.

(** Truth value of a [str]. *)
Definition str_nonempty (s : pystr) : bool :=
  match s with [] => false | _ :: _ => true end.

(** [os.path.basename(p)]: what follows the last [/]. *)
Definition basename (p : pystr) : pystr := rev (before_sep (rev p)).

(** [os.path.dirname(p)]: [p] up to its last [/], without the slashes it
    ends with unless it is made of slashes only. *)
Definition dirname (p : pystr) : pystr :=
  let head := rev (from_sep (rev p)) in
  if str_nonempty head && negb (forallb (fun c => (c =? sep)%N) head)
  then rev (lstrip_sep (rev head))
  else head.

(** [os.path.join(a, b)] *)
Definition join_path (a b : pystr) : pystr :=
  if startswith [sep] b then b
  else if negb (str_nonempty a) || startswith [sep] (rev a) then a ++ b
  else a ++ [sep] ++ b.

(** [s.endswith(suffix)] *)
Definition endswith (suffix s : pystr) : bool :=
  startswith (rev suffix) (rev s).

(** [s.replace(old, new)] for a non-empty [old]: the occurrences of [old]
    are found from the left and do not overlap; [skip] counts the characters
    of a found occurrence still to be passed over. *)
Fixpoint replace_from (old new : pystr) (skip : nat) (s : pystr) : pystr :=
  match s with
  | [] => []
  | c :: s' =>
      match skip with
      | S k => replace_from old new k s'
      | O =>
          if startswith old s
          then new ++ replace_from old new (length old - 1) s'
          else c :: replace_from old new 0 s'
      end
  end.

Definition replace (old new s : pystr) : pystr := replace_from old new 0 s.

Record Voice := {
  voice_name : pystr;
  voice_path : pystr
}.

Record VoicesResponse := {
  current_voice : pystr;
  available_voices : list Voice;
  voices_sample_rate : Z
}.

(** The loop over the directory's entries. *)
Definition voices_of (models_dir : pystr) (entries : list pystr) : list Voice :=
  flat_map (fun filename =>
              if endswith (str ".onnx") filename
              then [{| voice_name := replace (str ".onnx") [] filename;
                       voice_path := join_path models_dir filename |}]
              else [])
           entries.

Section Service.

Variable cfg : config.
Variable w : os.

(** [os.listdir]: the entries of a directory, or an [OSError]. *)
Variable listdir : pystr -> result (list pystr).

Definition list_voices : result VoicesResponse :=
  let models_dir := dirname (MODEL_PATH cfg) in
  bind (if path_exists w models_dir
        then bind (listdir models_dir) (fun entries => Ok (voices_of models_dir entries))
        else Ok [])
       (fun voices =>
          Ok {| current_voice := replace (str ".onnx") [] (basename (MODEL_PATH cfg));
                available_voices := voices;
                voices_sample_rate := SAMPLE_RATE cfg |}).

End Service.

Definition sample_listdir (entries : list pystr) (dir : pystr) : result (list pystr) :=
  Ok entries.

(** Surroundings in which every path exists. *)
Definition voices_os : os :=
  {| path_exists := fun _ => true;
     popen := fun _ => Raise struct_error;
     run := fun _ => Raise struct_error;
     str_float := fun _ => [];
     str_truediv := fun _ _ => [];
     http_exception_str := fun _ d => d;
     json_dumps_metadata := fun _ _ _ _ => [] |}.

Lemma startswith_app (a b c : pystr) :
  startswith a b = true -> startswith a (b ++ c) = true.
Proof.
  revert b. induction a as [|x a IH]; intros b H; [reflexivity|].
  destruct b as [|y b]; [discriminate|]. cbn in *.
  apply andb_prop in H as [H1 H2]. rewrite H1. cbn. by apply IH.
Qed.

Lemma startswith_self (a c : pystr) : startswith a (a ++ c) = true.
Proof.
  induction a as [|x a IH]; [reflexivity|]. cbn. by rewrite N.eqb_refl.
Qed.

Lemma endswith_app (suffix x s : pystr) :
  endswith suffix s = true -> endswith suffix (x ++ s) = true.
Proof.
  unfold endswith. rewrite rev_app_distr. apply startswith_app.
Qed.

Lemma endswith_self (suffix x : pystr) : endswith suffix (x ++ suffix) = true.
Proof. unfold endswith. rewrite rev_app_distr. apply startswith_self. Qed.

(** The joined path ends with what was joined on. *)
Lemma join_path_suffix (a b : pystr) : exists x, join_path a b = x ++ b.
Proof.
  unfold join_path. destruct (startswith [sep] b); [by exists []|].
  destruct (negb (str_nonempty a) || startswith [sep] (rev a)).
  - by exists a.
  - exists (a ++ [sep]). by rewrite <- app_assoc.
Qed.

Lemma voices_of_paths (models_dir : pystr) (entries : list pystr) :
  map voice_path (voices_of models_dir entries)
  = map (join_path models_dir) (List.filter (endswith (str ".onnx")) entries).
Proof.
  unfold voices_of. induction entries as [|f entries IH]; [reflexivity|].
  cbn [flat_map List.filter]. destruct (endswith (str ".onnx") f).
  - cbn [app map voice_path]. by rewrite IH.
  - exact IH.
Qed.

Lemma voices_of_names (models_dir : pystr) (entries : list pystr) :
  map voice_name (voices_of models_dir entries)
  = map (replace (str ".onnx") []) (List.filter (endswith (str ".onnx")) entries).
Proof.
  unfold voices_of. induction entries as [|f entries IH]; [reflexivity|].
  cbn [flat_map List.filter]. destruct (endswith (str ".onnx") f).
  - cbn [app map voice_name]. by rewrite IH.
  - exact IH.
Qed.

(** X11: [list_voices] fails only when the models directory exists and
    cannot be listed, and then with that error. When the directory does not
    exist the list of voices is empty. Otherwise the voices are, in the
    order of the listing, exactly the entries that end in ".onnx": each path
    is the entry joined to the directory and ends in ".onnx", each name is the
    entry with ".onnx" replaced by nothing, and no other entry is listed. *)
Theorem list_voices_result (cfg : config) (w : os)
    (listdir : pystr -> result (list pystr)) :
  (path_exists w (dirname (MODEL_PATH cfg)) = false ->
   exists r, list_voices cfg w listdir = Ok r /\ available_voices r = []) /\
  (path_exists w (dirname (MODEL_PATH cfg)) = true ->
   (forall e, listdir (dirname (MODEL_PATH cfg)) = Raise e ->
              list_voices cfg w listdir = Raise e) /\
   (forall entries,
      listdir (dirname (MODEL_PATH cfg)) = Ok entries ->
      exists r,
        list_voices cfg w listdir = Ok r /\
        map voice_path (available_voices r)
        = map (join_path (dirname (MODEL_PATH cfg)))
              (List.filter (endswith (str ".onnx")) entries) /\
        map voice_name (available_voices r)
        = map (replace (str ".onnx") [])
              (List.filter (endswith (str ".onnx")) entries) /\
        Forall (fun v => endswith (str ".onnx") (voice_path v) = true)
               (available_voices r))).
Proof.
  unfold list_voices. split.
  - intros ->. eexists. split; reflexivity.
  - intros ->. split.
    + intros e ->. reflexivity.
    + intros entries ->. eexists. split; [reflexivity|]. cbn [available_voices].
      split; [apply voices_of_paths|]. split; [apply voices_of_names|].
      apply Forall_forall. intros v Hv.
      assert (Hp : voice_path v ∈ map voice_path
                     (voices_of (dirname (MODEL_PATH cfg)) entries))
        by (apply list_elem_of_fmap; eauto).
      rewrite voices_of_paths in Hp.
      apply list_elem_of_fmap in Hp as (f & -> & Hf).
      apply list_elem_of_In, filter_In in Hf as [_ Hf].
      destruct (join_path_suffix (dirname (MODEL_PATH cfg)) f) as [x ->].
      by apply endswith_app.
Qed.

(** The models directory holds a model, its configuration and a note. *)
Lemma list_voices_result_witness :
  exists r,
    list_voices default_config voices_os
      (sample_listdir [str "amy.onnx"; str "amy.onnx.json"; str "README"; str "joe.onnx"])
    = Ok r /\
    map voice_path (available_voices r)
    = [str "/app/models/amy.onnx"; str "/app/models/joe.onnx"] /\
    map voice_name (available_voices r) = [str "amy"; str "joe"].
Proof.
  destruct (proj2 (proj2 (list_voices_result default_config voices_os
                            (sample_listdir [str "amy.onnx"; str "amy.onnx.json";
                                             str "README"; str "joe.onnx"]))
                     eq_refl) _ eq_refl)
    as (r & H1 & H2 & H3 & _).
  exists r. split; [exact H1|]. split; [exact H2 | exact H3].
Defined.

(** A character that a string does not hold, decided by a scan. *)
Lemma free_of_ok (c : N) (s : pystr) :
  forallb (fun x => negb (x =? c)%N) s = true -> c ∉ s.
Proof.
  intros Hall Hin. apply list_elem_of_In in Hin.
  rewrite forallb_forall in Hall. specialize (Hall c Hin).
  by rewrite N.eqb_refl in Hall.
Qed.

Lemma before_sep_app (x y : pystr) :
  sep ∉ x -> before_sep (x ++ sep :: y) = x.
Proof.
  induction x as [|c x IH]; intros Hn; cbn.
  - reflexivity.
  - destruct (N.eqb_spec c sep) as [->|_]; [exfalso; apply Hn; left|].
    rewrite IH; [reflexivity|]. intros H. apply Hn. by right.
Qed.

Lemma from_sep_app (x y : pystr) :
  sep ∉ x -> from_sep (x ++ sep :: y) = sep :: y.
Proof.
  induction x as [|c x IH]; intros Hn; cbn.
  - reflexivity.
  - destruct (N.eqb_spec c sep) as [->|_]; [exfalso; apply Hn; left|].
    apply IH. intros H. apply Hn. by right.
Qed.

Lemma not_in_rev (c : N) (x : pystr) : c ∉ x -> c ∉ rev x.
Proof. intros Hn H. apply Hn. apply list_elem_of_In, in_rev, list_elem_of_In, H. Qed.

(** The directory and the file name of [d/b]. *)
Lemma basename_joined (d b : pystr) : sep ∉ b -> basename (d ++ [sep] ++ b) = b.
Proof.
  intros Hb. unfold basename. rewrite !rev_app_distr. cbn [rev app].
  rewrite <- app_assoc. cbn [app].
  rewrite before_sep_app by by apply not_in_rev. apply rev_involutive.
Qed.

Lemma dirname_joined (d b : pystr) (c : N) (d' : pystr) :
  sep ∉ b -> d = d' ++ [c] -> c <> sep -> dirname (d ++ [sep] ++ b) = d.
Proof.
  intros Hb -> Hc. unfold dirname. rewrite !rev_app_distr. cbn [rev app].
  rewrite <- !app_assoc. cbn [app].
  rewrite from_sep_app by by apply not_in_rev.
  cbn [rev]. rewrite rev_involutive.
  assert (Hne : str_nonempty ((d' ++ [c]) ++ [sep]) = true)
    by (destruct d'; reflexivity).
  assert (Hall : forallb (fun c0 => (c0 =? sep)%N) ((d' ++ [c]) ++ [sep]) = false).
  { rewrite !forallb_app. cbn. destruct (N.eqb_spec c sep); [contradiction|].
    cbn. by rewrite andb_false_r. }
  rewrite Hne, Hall. cbn [andb negb].
  rewrite !rev_app_distr. cbn [rev app lstrip_sep].
  rewrite N.eqb_refl. destruct (N.eqb_spec c sep); [contradiction|].
  cbn [rev]. by rewrite rev_involutive.
Qed.

(** A stem without a dot loses exactly its extension. *)
Lemma replace_stem (stem : pystr) :
  46%N ∉ stem -> replace (str ".onnx") [] (stem ++ str ".onnx") = stem.
Proof.
  unfold replace. induction stem as [|c stem IH]; intros Hn.
  - reflexivity.
  - cbn [app replace_from].
    assert (Hc : startswith (str ".onnx") (c :: stem ++ str ".onnx") = false).
    { change (str ".onnx") with (46%N :: str "onnx"). cbn [startswith].
      destruct (N.eqb_spec 46 c) as [<-|_]; [exfalso; apply Hn; left | reflexivity]. }
    rewrite Hc. f_equal. apply IH. intros H. apply Hn. by right.
Qed.

Lemma join_plain (d' : pystr) (c : N) (b : pystr) :
  c <> sep -> startswith [sep] b = false ->
  join_path (d' ++ [c]) b = (d' ++ [c]) ++ [sep] ++ b.
Proof.
  intros Hc Hb. unfold join_path. rewrite Hb.
  assert (Hne : str_nonempty (d' ++ [c]) = true) by (destruct d'; reflexivity).
  rewrite Hne, rev_app_distr. cbn [rev app startswith negb orb].
  destruct (N.eqb_spec sep c) as [E|_]; [symmetry in E; contradiction | reflexivity].
Qed.

(** X12: when [MODEL_PATH] is [d/stem.onnx] (the directory [d] not ending in
    a slash, the stem without slash or dot), the directory listed is [d] and
    the current voice is [stem]; and every entry [s.onnx] of that directory
    whose stem [s] has no slash or dot is listed with name [s] and path
    [d/s.onnx]. *)
Theorem plain_model_path (cfg : config) (w : os)
    (listdir : pystr -> result (list pystr)) (d' : pystr) (c : N) (stem : pystr)
    (r : VoicesResponse) :
  MODEL_PATH cfg = (d' ++ [c]) ++ [sep] ++ stem ++ str ".onnx" ->
  c <> sep -> sep ∉ stem -> 46%N ∉ stem ->
  list_voices cfg w listdir = Ok r ->
  dirname (MODEL_PATH cfg) = d' ++ [c] /\
  current_voice r = stem /\
  (path_exists w (d' ++ [c]) = true ->
   forall entries s,
     listdir (d' ++ [c]) = Ok entries ->
     s ++ str ".onnx" ∈ entries -> sep ∉ s -> 46%N ∉ s ->
     {| voice_name := s; voice_path := (d' ++ [c]) ++ [sep] ++ s ++ str ".onnx" |}
     ∈ available_voices r).
Proof.
  intros Hm Hc Hs Hdot Hr.
  assert (Hb : forall x, sep ∉ x -> sep ∉ x ++ str ".onnx").
  { intros x Hx H. apply elem_of_app in H as [H|H]; [by apply Hx|].
    cbn in H. repeat (apply elem_of_cons in H as [H|H]; [discriminate H|]).
    by apply elem_of_nil in H. }
  assert (Hd : dirname (MODEL_PATH cfg) = d' ++ [c])
    by (rewrite Hm; apply (dirname_joined _ _ c d'); auto).
  unfold list_voices in Hr. rewrite Hd in Hr.
  rewrite Hm, basename_joined, replace_stem in Hr by auto.
  split; [exact Hd|].
  destruct (path_exists w (d' ++ [c])) eqn:Ep.
  - destruct (listdir (d' ++ [c])) as [entries|e] eqn:El; [|discriminate Hr].
    cbn in Hr. injection Hr as <-. split; [reflexivity|].
    intros _ entries' s [= <-] Hin Hss Hsd. cbn [available_voices].
    unfold voices_of. apply list_elem_of_In, in_flat_map.
    exists (s ++ str ".onnx"). split; [by apply list_elem_of_In|].
    rewrite endswith_self, replace_stem by assumption.
    rewrite join_plain; [by left | assumption |].
    destruct s as [|x s]; [reflexivity|]. cbn [app startswith].
    destruct (N.eqb_spec sep x) as [<-|_]; [exfalso; apply Hss; left | reflexivity].
  - cbn in Hr. injection Hr as <-. split; [reflexivity | discriminate].
Qed.

(** The default model path, /app/models/en_US-amy-medium.onnx, with that
    model and one more in the directory. *)
Lemma plain_model_path_witness :
  exists r,
    list_voices default_config voices_os
      (sample_listdir [str "en_US-amy-medium.onnx"; str "en_US-amy-medium.onnx.json";
                       str "joe.onnx"]) = Ok r /\
    dirname (MODEL_PATH default_config) = str "/app/models" /\
    current_voice r = str "en_US-amy-medium" /\
    {| voice_name := str "joe"; voice_path := str "/app/models/joe.onnx" |}
    ∈ available_voices r.
Proof.
  eexists. split; [reflexivity|].
  destruct (plain_model_path default_config voices_os
              (sample_listdir [str "en_US-amy-medium.onnx";
                               str "en_US-amy-medium.onnx.json"; str "joe.onnx"])
              (str "/app/model") 115%N (str "en_US-amy-medium") _
              eq_refl ltac:(discriminate)
              (free_of_ok sep (str "en_US-amy-medium") eq_refl)
              (free_of_ok 46%N (str "en_US-amy-medium") eq_refl) eq_refl)
    as (H1 & H2 & H3).
  split; [exact H1|]. split; [exact H2|].
  apply (H3 eq_refl _ (str "joe") eq_refl).
  - right. right. left.
  - apply free_of_ok. reflexivity.
  - apply free_of_ok. reflexivity.
Defined.

End Voices.

(** ** More on the endpoints of services/whisper/main.py *)

Module WhisperFacts.
Import Py Whisper.

(** The empty result of the no-speech handlers of [transcribe_detailed]. *)
Definition empty_detailed (d : float) : DetailedTranscriptionResponse :=
  {| d_text := [];
     d_language := str "en";
     d_language_probability := 0%float;
     d_duration := d;
     d_segments := [] |}.

(** The surroundings [w] with another outcome of loading the model. *)
Definition with_load (l : result unit) (w : env) : env :=
  {| load_model := l;
     mktemp := mktemp w;
     model_transcribe := model_transcribe w;
     str_float := str_float w;
     json_dumps_segment := json_dumps_segment w |}.

(** Whether the endpoint answered with its response model (HTTP 200). *)
Definition is_returned {R} (r : http_result R) : bool :=
  match r with
  | Returned _ => true
  | HTTPException _ _ => false
  end.

(** A client that reads [n] pieces of the body and then goes away: the
    server closes the generator. *)
Fixpoint take_events (w : env) (n : nat) (g : generator) (st : state)
    : generator * state :=
  match n with
  | O => (g, st)
  | S n' => let '(_, g', st') := gen_next w g st in take_events w n' g' st'
  end.

Definition disconnect_after (w : env) (n : nat) (g : generator) (st : state)
    : generator * state :=
  let '(g', st') := take_events w n g st in gen_close g' st'.

(** The dictionary [transcribe_detailed] builds for one word. *)
Definition word_dict (x : Word) : WordDict :=
  {| wd_word := word_word x;
     wd_start := word_start x;
     wd_end := word_end x;
     wd_probability := word_probability x |}.

(** The segment holds something besides white space. *)
Definition nonblank (segment : Segment) : Prop := strip (seg_text segment) <> [].

(** A model that cannot be loaded. *)
Definition out_of_memory : exn := Exn RuntimeError (str "CUDA out of memory").

Definition no_model_env : env :=
  with_load (Raise out_of_memory) (sample_env (Raise out_of_memory)).

(** A failure of a subclass of [ValueError] whose text has "empty" in it. *)
Definition label_empty : exn :=
  Exn (OtherValueError (str "UnicodeError")) (str "label empty or too long").

(** An upload that cannot be read. *)
Definition read_failed : exn := Exn (OtherError (str "OSError")) (str "read failed").

(** A segment of white space between two of speech, and one with words. *)
Definition with_blank : list Segment :=
  [ {| seg_start := 0.0%float; seg_end := 0.5%float;
       seg_text := str "  "; seg_words := None |};
    {| seg_start := 0.5%float; seg_end := 1.2%float;
       seg_text := str " hello"; seg_words := None |} ].

Definition with_words : list Segment :=
  [ {| seg_start := 0.0%float; seg_end := 1.2%float;
       seg_text := str " hello";
       seg_words := Some [ {| word_word := str " hello"; word_start := 0.0%float;
                              word_end := 1.2%float; word_probability := 0.9%float |} ] |};
    {| seg_start := 1.2%float; seg_end := 2.5%float;
       seg_text := str " world "; seg_words := Some [] |} ].

(** *** Before the upload is staged *)

(** X13: a request that fails before its upload is staged (the model cannot
    be loaded, or the upload cannot be read) creates no temporary file and
    leaves the files as they are. [transcribe] and [transcribe_detailed]
    answer it with an HTTP 500 carrying the failure's text, unless that text
    has both "max()" and "empty" in it: then they answer with the empty
    result, as for audio without speech. [transcribe_stream] always answers
    with the HTTP 500. After a failed load the model is still unset, so the
    next request tries again. *)
Theorem failure_before_staging (w : env) (audio : result bytes)
    (language task : option pystr) (word_timestamps : bool) (st : state) (e : exn) :
  (_model st = false -> load_model w = Raise e ->
   transcribe w audio language task st
   = (if max_and_empty e then Returned (no_speech 0%float)
      else HTTPException 500 (exc_str e), st) /\
   transcribe_detailed w audio language task word_timestamps st
   = (if max_and_empty e then Returned (empty_detailed 0%float)
      else HTTPException 500 (exc_str e), st) /\
   transcribe_stream w audio language st = (HTTPException 500 (exc_str e), st)) /\
  (model_ready w st -> audio = Raise e ->
   transcribe w audio language task st
   = (if max_and_empty e then Returned (no_speech 0%float)
      else HTTPException 500 (exc_str e), {| fs := fs st; _model := true |}) /\
   transcribe_detailed w audio language task word_timestamps st
   = (if max_and_empty e then Returned (empty_detailed 0%float)
      else HTTPException 500 (exc_str e), {| fs := fs st; _model := true |}) /\
   transcribe_stream w audio language st
   = (HTTPException 500 (exc_str e), {| fs := fs st; _model := true |})).
Proof.
  split.
  - intros Hm Hl.
    unfold transcribe, transcribe_try, transcribe_detailed, transcribe_detailed_try,
      transcribe_stream, transcribe_stream_try, mbind, get_model.
    rewrite Hm, Hl. destruct (max_and_empty e); repeat split.
  - intros Hr ->.
    unfold transcribe, transcribe_try, transcribe_detailed, transcribe_detailed_try,
      transcribe_stream, transcribe_stream_try.
    unfold mbind, lift. rewrite !(get_model_ready w st Hr).
    destruct (max_and_empty e); repeat split.
Qed.

(** The model cannot be loaded: each endpoint answers with the HTTP 500 and
    the state is as before. *)
Lemma failure_before_staging_witness :
  transcribe no_model_env (Ok [x01]) None (Some (str "transcribe")) initial
  = (HTTPException 500 (str "CUDA out of memory"), initial) /\
  transcribe_stream no_model_env (Ok [x01]) None initial
  = (HTTPException 500 (str "CUDA out of memory"), initial) /\
  transcribe_detailed (sample_env (Raise out_of_memory)) (Raise read_failed) None
    (Some (str "transcribe")) false initial
  = (HTTPException 500 (str "read failed"), {| fs := ∅; _model := true |}).
Proof.
  pose proof (failure_before_staging no_model_env (Ok [x01]) None
                (Some (str "transcribe")) false initial out_of_memory) as [H _].
  pose proof (failure_before_staging (sample_env (Raise out_of_memory))
                (Raise read_failed) None (Some (str "transcribe")) false initial
                read_failed) as [_ H'].
  destruct (H eq_refl eq_refl) as (H1 & _ & H3).
  destruct (H' (or_intror eq_refl) eq_refl) as (_ & H2 & _).
  split; [exact H1|]. split; [exact H3 | exact H2].
Defined.

(** *** The state a request leaves *)

(** X14: a request whose upload is staged under a fresh temporary name
    leaves the files exactly as it found them, and the model loaded: so
    [transcribe] and [transcribe_detailed] on every way out, and so the
    stream once its body has been read to the end. From such a state no
    endpoint loads the model again: what the loader would do makes no
    difference to the next request. *)
Theorem request_leaves_state (w : env) (audio_bytes : bytes)
    (language task : option pystr) (word_timestamps : bool) (st : state) :
  model_ready w st ->
  fs st !! mktemp w (fs st) = None ->
  (transcribe w (Ok audio_bytes) language task st).2 = {| fs := fs st; _model := true |} /\
  (transcribe_detailed w (Ok audio_bytes) language task word_timestamps st).2
  = {| fs := fs st; _model := true |} /\
  (exists r st1 n,
     transcribe_stream w (Ok audio_bytes) language st = (Returned r, st1) /\
     forall fuel, (n <= fuel)%nat ->
       (drain w fuel (body_iterator r) st1).2 = {| fs := fs st; _model := true |}) /\
  (forall l audio' language' task' word_timestamps' files,
     transcribe (with_load l w) audio' language' task' {| fs := files; _model := true |}
     = transcribe w audio' language' task' {| fs := files; _model := true |} /\
     transcribe_detailed (with_load l w) audio' language' task' word_timestamps'
       {| fs := files; _model := true |}
     = transcribe_detailed w audio' language' task' word_timestamps'
         {| fs := files; _model := true |} /\
     transcribe_stream (with_load l w) audio' language' {| fs := files; _model := true |}
     = transcribe_stream w audio' language' {| fs := files; _model := true |}).
Proof.
  intros Hr Hfresh.
  assert (Hc : cleaned w st = {| fs := fs st; _model := true |}).
  { unfold cleaned. f_equal. by apply delete_id. }
  split; [rewrite (transcribe_staged _ _ _ _ _ Hr); exact Hc|].
  split; [rewrite (transcribe_detailed_staged _ _ _ _ _ _ Hr); exact Hc|].
  split.
  - eexists _, _.
    destruct (model_transcribe w (fs (staged w audio_bytes st))
                (stream_call_of (mktemp w (fs st)) language))
      as [[segs info]|e] eqn:Hm.
    + exists (length (yielded segs) + 3)%nat.
      split; [apply (transcribe_stream_staged _ _ _ _ Hr)|].
      intros fuel Hfuel. cbn [body_iterator].
      rewrite (drain_created w (mktemp w (fs st)) language (staged w audio_bytes st)
                 audio_bytes (fs st) fuel segs info eq_refl Hm Hfuel).
      exact Hc.
    + exists 1%nat.
      split; [apply (transcribe_stream_staged _ _ _ _ Hr)|].
      intros fuel Hfuel. cbn [body_iterator].
      rewrite (drain_created_raises w (mktemp w (fs st)) language
                 (staged w audio_bytes st) audio_bytes (fs st) fuel e eq_refl Hm Hfuel).
      exact Hc.
  - intros l audio' language' task' word_timestamps' files. repeat split.
Qed.

(** A first request, and the loader failing from then on. *)
Lemma request_leaves_state_witness :
  (transcribe (sample_env (Ok ({| yielded := hello_world; failure := None |}, sample_info)))
     (Ok [x01]) None (Some (str "transcribe")) initial).2
  = {| fs := ∅; _model := true |} /\
  transcribe
    (with_load (Raise out_of_memory)
       (sample_env (Ok ({| yielded := hello_world; failure := None |}, sample_info))))
    (Ok [x02]) None (Some (str "transcribe")) {| fs := ∅; _model := true |}
  = transcribe (sample_env (Ok ({| yielded := hello_world; failure := None |}, sample_info)))
      (Ok [x02]) None (Some (str "transcribe")) {| fs := ∅; _model := true |}.
Proof.
  destruct (request_leaves_state
              (sample_env (Ok ({| yielded := hello_world; failure := None |}, sample_info)))
              [x01] None (Some (str "transcribe")) false initial
              (or_intror eq_refl) eq_refl)
    as (H1 & _ & _ & H4).
  split; [exact H1|].
  exact (proj1 (H4 (Raise out_of_memory) (Ok [x02]) None (Some (str "transcribe")) false ∅)).
Defined.

(** *** The two batch endpoints side by side *)

Lemma imap_texts (f : nat -> Segment -> TranscriptionSegment) (segs : list Segment) :
  (forall i segment, ts_text (f i segment) = strip (seg_text segment)) ->
  map ts_text (imap f segs) = map (fun segment => strip (seg_text segment)) segs.
Proof.
  revert f. induction segs as [|s0 segs IH]; intros f Hf.
  - reflexivity.
  - cbn. rewrite Hf. f_equal. apply IH. intros i segment. apply Hf.
Qed.

Lemma imap_ids (f : nat -> Segment -> TranscriptionSegment) (segs : list Segment) (k : nat) :
  (forall i segment, id (f i segment) = (k + i)%nat) ->
  map id (imap f segs) = seq k (length segs).
Proof.
  revert f k. induction segs as [|s0 segs IH]; intros f k Hf.
  - reflexivity.
  - cbn. rewrite Hf, Nat.add_0_r. f_equal. apply IH.
    intros i segment. cbn. rewrite Hf. lia.
Qed.

(** X15: when the model gives both endpoints the same segments, without a
    failure, and the same information, [transcribe] and
    [transcribe_detailed] agree: the same text, language, probability and
    duration (the fall-backs for no segments included), none of them left
    unset. The detailed answer adds one entry per segment, numbered from 0,
    and its text is the entries' texts joined by single spaces. *)
Theorem batch_endpoints_agree (w : env) (audio_bytes : bytes)
    (language task : option pystr) (word_timestamps : bool) (st : state)
    (segs : list Segment) (info : TranscriptionInfo) :
  model_ready w st ->
  model_transcribe w (fs (staged w audio_bytes st))
    (transcribe_call_of (mktemp w (fs st)) language task)
  = Ok ({| yielded := segs; failure := None |}, info) ->
  model_transcribe w (fs (staged w audio_bytes st))
    (detailed_call_of (mktemp w (fs st)) language task word_timestamps)
  = Ok ({| yielded := segs; failure := None |}, info) ->
  exists r d,
    transcribe w (Ok audio_bytes) language task st = (Returned r, cleaned w st) /\
    transcribe_detailed w (Ok audio_bytes) language task word_timestamps st
    = (Returned d, cleaned w st) /\
    text r = d_text d /\
    Whisper.language r = Some (d_language d) /\
    language_probability r = Some (d_language_probability d) /\
    duration r = Some (d_duration d) /\
    length (d_segments d) = length segs /\
    map id (d_segments d) = seq 0 (length segs) /\
    d_text d = join (str " ") (map ts_text (d_segments d)).
Proof.
  intros Hr H1 H2.
  rewrite (transcribe_staged _ _ _ _ _ Hr), H1.
  rewrite (transcribe_detailed_staged _ _ _ _ _ _ Hr), H2.
  cbn [failure yielded].
  destruct segs as [|s0 segs].
  - eexists _, _. repeat split.
  - eexists _, _. split; [reflexivity|]. split; [reflexivity|].
    cbn [text Whisper.language language_probability duration d_text d_language
         d_language_probability d_duration d_segments].
    repeat split.
    + apply length_imap.
    + apply (imap_ids _ _ 0). reflexivity.
    + rewrite imap_texts; reflexivity.
Qed.

(** " hello" and " world ": both answer "hello world", in English. *)
Lemma batch_endpoints_agree_witness :
  exists r d,
    transcribe (sample_env (Ok ({| yielded := hello_world; failure := None |}, sample_info)))
      (Ok [x01]) None (Some (str "transcribe")) initial
    = (Returned r,
       cleaned (sample_env (Ok ({| yielded := hello_world; failure := None |},
                                sample_info))) initial) /\
    text r = str "hello world" /\
    d_text d = str "hello world" /\
    Whisper.language r = Some (d_language d) /\
    map id (d_segments d) = [0; 1]%nat.
Proof.
  destruct (batch_endpoints_agree
              (sample_env (Ok ({| yielded := hello_world; failure := None |}, sample_info)))
              [x01] None (Some (str "transcribe")) false initial hello_world sample_info
              (or_intror eq_refl) eq_refl eq_refl)
    as (r & d & H1 & H2 & H3 & H4 & _ & _ & _ & H8 & _).
  exists r, d. split; [exact H1|].
  injection H1 as <-. injection H2 as <-.
  split; [reflexivity|]. split; [reflexivity|]. split; [exact H4 | exact H8].
Defined.

(** X16: a failure [e] raised while the segments are materialized, after the
    model has taken the call. [transcribe] absorbs it when its text has
    "max()" or "empty" in it; [transcribe_detailed], whose inner handler
    catches [ValueError] (and so every subclass of it) only, when it is a
    [ValueError] with "max()" or "empty", or any exception with both. So
    whatever [transcribe_detailed]
    absorbs, [transcribe] absorbs too, but not the other way round. What is
    absorbed is answered with the empty text, the segments yielded before
    the failure dropped; what is not, with an HTTP 500 carrying the
    failure's text. *)
Theorem materializing_failure_in_both (w : env) (audio_bytes : bytes)
    (language task : option pystr) (word_timestamps : bool) (st : state) (e : exn)
    (segs segs' : list Segment) (info info' : TranscriptionInfo) :
  model_ready w st ->
  model_transcribe w (fs (staged w audio_bytes st))
    (transcribe_call_of (mktemp w (fs st)) language task)
  = Ok ({| yielded := segs; failure := Some e |}, info) ->
  model_transcribe w (fs (staged w audio_bytes st))
    (detailed_call_of (mktemp w (fs st)) language task word_timestamps)
  = Ok ({| yielded := segs'; failure := Some e |}, info') ->
  is_returned (transcribe w (Ok audio_bytes) language task st).1 = max_or_empty e /\
  is_returned (transcribe_detailed w (Ok audio_bytes) language task word_timestamps st).1
  = (is_ValueError (exc_type e) && max_or_empty e || max_and_empty e) /\
  (is_returned (transcribe_detailed w (Ok audio_bytes) language task word_timestamps st).1
   = true ->
   is_returned (transcribe w (Ok audio_bytes) language task st).1 = true) /\
  (forall r, (transcribe w (Ok audio_bytes) language task st).1 = Returned r ->
             text r = []) /\
  (forall d, (transcribe_detailed w (Ok audio_bytes) language task word_timestamps st).1
             = Returned d -> d_text d = [] /\ d_segments d = []) /\
  (forall status detail,
     (transcribe w (Ok audio_bytes) language task st).1 = HTTPException status detail \/
     (transcribe_detailed w (Ok audio_bytes) language task word_timestamps st).1
     = HTTPException status detail ->
     status = 500 /\ detail = exc_str e).
Proof.
  intros Hr H1 H2.
  rewrite (transcribe_staged _ _ _ _ _ Hr), H1.
  rewrite (transcribe_detailed_staged _ _ _ _ _ _ Hr), H2.
  cbn [failure fst].
  pose proof (max_and_empty_or e) as Hao.
  destruct (is_ValueError (exc_type e)), (max_or_empty e) eqn:Eo,
    (max_and_empty e) eqn:Ea; cbn [andb orb is_returned];
    try (specialize (Hao eq_refl); discriminate Hao).
  all: split; [reflexivity|]; split; [reflexivity|];
    split; [intros H; first [reflexivity | exact H]|].
  all: split; [intros r Hx; first [discriminate Hx | injection Hx as <-; reflexivity]|].
  all: split;
    [intros d Hx; first [discriminate Hx | injection Hx as <-; split; reflexivity]|].
  all: intros status detail [Hx|Hx];
    first [discriminate Hx | injection Hx as <- <-; split; reflexivity].
Qed.

(** "the queue is empty", a [RuntimeError]: [transcribe] answers with the
    empty result, [transcribe_detailed] with an HTTP 500. "label empty or too
    long", a [UnicodeError] and so a [ValueError]: both answer with the empty
    result. *)
Lemma materializing_failure_in_both_witness :
  (is_returned
     (transcribe
        (sample_env (Ok ({| yielded := hello_world; failure := Some queue_is_empty |},
                         sample_info)))
        (Ok [x01]) None (Some (str "transcribe")) initial).1 = true /\
   is_returned
     (transcribe_detailed
        (sample_env (Ok ({| yielded := hello_world; failure := Some queue_is_empty |},
                         sample_info)))
        (Ok [x01]) None (Some (str "transcribe")) false initial).1 = false) /\
  (is_returned
     (transcribe
        (sample_env (Ok ({| yielded := hello_world; failure := Some label_empty |},
                         sample_info)))
        (Ok [x01]) None (Some (str "transcribe")) initial).1 = true /\
   is_returned
     (transcribe_detailed
        (sample_env (Ok ({| yielded := hello_world; failure := Some label_empty |},
                         sample_info)))
        (Ok [x01]) None (Some (str "transcribe")) false initial).1 = true).
Proof.
  split.
  - destruct (materializing_failure_in_both
                (sample_env (Ok ({| yielded := hello_world;
                                    failure := Some queue_is_empty |}, sample_info)))
                [x01] None (Some (str "transcribe")) false initial queue_is_empty
                hello_world hello_world sample_info sample_info
                (or_intror eq_refl) eq_refl eq_refl)
      as (H1 & H2 & _).
    split; [exact H1 | exact H2].
  - destruct (materializing_failure_in_both
                (sample_env (Ok ({| yielded := hello_world;
                                    failure := Some label_empty |}, sample_info)))
                [x01] None (Some (str "transcribe")) false initial label_empty
                hello_world hello_world sample_info sample_info
                (or_intror eq_refl) eq_refl eq_refl)
      as (H1 & H2 & _).
    split; [exact H1 | exact H2].
Defined.

(** *** White space in the full text *)

Lemma head_join (sep : pystr) (c : N) (p : pystr) (rest : list pystr) :
  head sep = Some c -> rest <> [] ->
  head (join sep (p :: rest))
  = match head p with Some y => Some y | None => Some c end.
Proof.
  intros Hs Hne. destruct rest as [|q l]; [contradiction|].
  change (join sep (p :: q :: l)) with (p ++ sep ++ join sep (q :: l)).
  destruct p as [|y p]; [|reflexivity].
  destruct sep as [|x sep]; [discriminate Hs | exact Hs].
Qed.

Lemma last_join (sep : pystr) (c : N) (l : list pystr) (p q : pystr) :
  last sep = Some c ->
  last (join sep (p :: l ++ [q]))
  = match last q with Some y => Some y | None => Some c end.
Proof.
  intros Hs. revert p. induction l as [|p' l IH]; intros p.
  - cbn [app join]. rewrite !last_app, Hs. destruct (last q); reflexivity.
  - cbn [app].
    change (join sep (p :: p' :: l ++ [q]))
      with (p ++ sep ++ join sep (p' :: l ++ [q])).
    rewrite !last_app, IH. destruct (last q); reflexivity.
Qed.

(** Parts without white space at their ends, joined by single spaces: the
    result has white space at an end just when there are two parts or more
    and the first or the last of them is empty. *)
Lemma join_trimmed (parts : list pystr) :
  Forall trimmed parts ->
  trimmed (join [32%N] parts) <->
  (length parts <= 1)%nat \/ (head parts <> Some [] /\ last parts <> Some []).
Proof.
  intros HF. destruct parts as [|p [|q l]].
  - split; [left; cbn; lia | intros _; split; intros c H; discriminate H].
  - split; [left; cbn; lia | intros _; cbn; by inversion HF].
  - destruct (last (q :: l)) as [q'|] eqn:E;
      [|apply last_None in E; discriminate E].
    apply last_Some in E as [l' E]. rewrite E in *. clear E q l.
    assert (Hlast : last (p :: l' ++ [q']) = Some q')
      by (rewrite last_cons, last_snoc; reflexivity).
    assert (Hne : l' ++ [q'] <> []) by (destruct l'; discriminate).
    assert (Hp : trimmed p) by (by inversion HF).
    assert (Hq : trimmed q').
    { inversion HF as [|? ? _ HF']. apply Forall_app in HF' as [_ HF'].
      by inversion HF'. }
    rewrite Hlast. cbn [head]. split.
    + intros [Hh Hl]. right. split.
      * intros [= ->]. specialize (Hh 32%N).
        rewrite (head_join [32%N] 32%N) in Hh by (reflexivity || exact Hne).
        specialize (Hh eq_refl). discriminate Hh.
      * intros [= ->]. specialize (Hl 32%N).
        rewrite (last_join [32%N] 32%N) in Hl by reflexivity.
        specialize (Hl eq_refl). discriminate Hl.
    + intros [H|[Hh Hl]]; [rewrite length_cons, length_app in H; cbn in H; lia|].
      split; intros c Hc.
      * rewrite (head_join [32%N] 32%N) in Hc by (reflexivity || exact Hne).
        destruct p as [|y p]; [contradiction|].
        apply (proj1 Hp). exact Hc.
      * rewrite (last_join [32%N] 32%N) in Hc by reflexivity.
        destruct (last q') as [y|] eqn:Eq.
        -- apply (proj2 Hq). rewrite Eq. exact Hc.
        -- apply last_None in Eq. subst q'. contradiction.
Qed.

(** X17: the full text that [transcribe] returns for segments [segs] has no
    white space at its start or end exactly when there is at most one
    segment, or the first and the last segment hold something besides white
    space: a blank segment at either end leaves the joining space there. *)
Theorem text_trimmed_iff (w : env) (audio_bytes : bytes)
    (language task : option pystr) (st : state)
    (segs : list Segment) (info : TranscriptionInfo) :
  model_ready w st ->
  model_transcribe w (fs (staged w audio_bytes st))
    (transcribe_call_of (mktemp w (fs st)) language task)
  = Ok ({| yielded := segs; failure := None |}, info) ->
  exists r,
    transcribe w (Ok audio_bytes) language task st = (Returned r, cleaned w st) /\
    (trimmed (text r) <->
     (length segs <= 1)%nat \/
     ((forall segment, head segs = Some segment -> nonblank segment) /\
      (forall segment, last segs = Some segment -> nonblank segment))).
Proof.
  intros Hr Hm.
  rewrite (transcribe_staged _ _ _ _ _ Hr), Hm. cbn [failure yielded].
  assert (Ht : exists r,
             (match segs with
              | [] =>
                  Returned
                    {| text := [];
                       Whisper.language := Some (if str_truthy (info_language info)
                                         then info_language info else str "en");
                       language_probability :=
                         Some (if float_truthy (info_language_probability info)
                               then info_language_probability info else 0%float);
                       duration := Some (if float_truthy (info_duration info)
                                         then info_duration info else 0%float) |}
              | _ :: _ =>
                  Returned
                    {| text := join (str " ")
                                 (map (fun segment => strip (seg_text segment)) segs);
                       Whisper.language := Some (info_language info);
                       language_probability := Some (info_language_probability info);
                       duration := Some (info_duration info) |}
              end) = Returned r /\
             text r = join [32%N] ((fun segment => strip (seg_text segment)) <$> segs))
    by (destruct segs; eexists; split; reflexivity).
  destruct Ht as (r & -> & Ht). exists r. split; [reflexivity|].
  rewrite Ht, join_trimmed, length_fmap, fmap_last.
  2: { apply Forall_fmap, Forall_forall. intros segment _. apply strip_trimmed. }
  unfold nonblank.
  split; (intros [H|[Hh Hl]]; [by left | right; split]).
  - intros segment Hs Hb. apply Hh. destruct segs; [discriminate Hs|].
    cbn in Hs |- *. congruence.
  - intros segment Hs Hb. apply Hl. rewrite Hs. cbn. congruence.
  - intros Hb. destruct segs as [|s0 segs]; [discriminate Hb|].
    injection Hb as Hb. by apply (Hh s0).
  - intros Hb. destruct (last segs) as [s0|] eqn:E; [|discriminate Hb].
    injection Hb as Hb. by apply (Hl s0).
Qed.

(** A blank segment before " hello": the text is " hello", with the joining
    space in front; "hello" and "world" alone give "hello world". *)
Lemma text_trimmed_iff_witness :
  (exists r,
     transcribe (sample_env (Ok ({| yielded := with_blank; failure := None |}, sample_info)))
       (Ok [x01]) None (Some (str "transcribe")) initial
     = (Returned r,
        cleaned (sample_env (Ok ({| yielded := with_blank; failure := None |},
                                 sample_info))) initial) /\
     text r = str " hello" /\ ~ trimmed (text r)) /\
  (exists r,
     transcribe (sample_env (Ok ({| yielded := hello_world; failure := None |}, sample_info)))
       (Ok [x01]) None (Some (str "transcribe")) initial
     = (Returned r,
        cleaned (sample_env (Ok ({| yielded := hello_world; failure := None |},
                                 sample_info))) initial) /\
     trimmed (text r)).
Proof.
  split.
  - destruct (text_trimmed_iff
                (sample_env (Ok ({| yielded := with_blank; failure := None |}, sample_info)))
                [x01] None (Some (str "transcribe")) initial with_blank sample_info
                (or_intror eq_refl) eq_refl) as (r & H1 & H2).
    exists r. split; [exact H1|]. injection H1 as <-.
    split; [reflexivity|].
    intros Ht. apply H2 in Ht as [Ht|[Ht _]].
    + cbn in Ht. lia.
    + exact (Ht _ eq_refl eq_refl).
  - destruct (text_trimmed_iff
                (sample_env (Ok ({| yielded := hello_world; failure := None |}, sample_info)))
                [x01] None (Some (str "transcribe")) initial hello_world sample_info
                (or_intror eq_refl) eq_refl) as (r & H1 & H2).
    exists r. split; [exact H1|].
    apply H2. right. split; intros segment [= <-]; discriminate.
Defined.

(** *** Word timestamps *)

Lemma Forall_imap {A B} (P : B -> Prop) (f : nat -> A -> B) (l : list A) :
  (forall i x, P (f i x)) -> Forall P (imap f l).
Proof.
  revert f. induction l as [|x l IH]; intros f Hf; constructor.
  - apply Hf.
  - apply IH. intros i y. apply Hf.
Qed.

Lemma seg_data_of_words word_timestamps i segment :
  ts_words (seg_data_of word_timestamps i segment) <> Some [] /\
  (word_timestamps = false -> ts_words (seg_data_of word_timestamps i segment) = None).
Proof.
  unfold seg_data_of. cbn [ts_words].
  destruct (seg_words segment) as [[|x l]|], word_timestamps; split;
    (discriminate || reflexivity || (intros H; discriminate H)).
Qed.

(** Whatever way [transcribe_detailed] returns, its segments are none, or
    those built from a list of the model's segments. *)
Lemma detailed_segments_shape (w : env) audio language task word_timestamps st d st' :
  transcribe_detailed w audio language task word_timestamps st = (Returned d, st') ->
  d_segments d = [] \/
  exists segs, d_segments d = imap (seg_data_of word_timestamps) segs.
Proof.
  unfold transcribe_detailed, transcribe_detailed_try, mbind, get_model, lift,
    write_temp, try_finally, call_model, list_of, ret, raise.
  intros H.
  repeat match type of H with
         | context [match ?x with _ => _ end] =>
             lazymatch x with
             | context [match _ with _ => _ end] => fail
             | _ => destruct x eqn:?; cbn [fs _model] in H
             end
         end.
  all: try discriminate H.
  all: injection H as <- _; cbn [d_segments].
  all: first [by left | right; eexists; symmetry; eassumption].
Qed.

(** X18: word timings are given on request only. Whatever
    [transcribe_detailed] returns, with [word_timestamps] false no segment
    has words, even if the model supplied them, and no segment ever has an
    empty list of words (it has none instead). When they are asked for, a
    segment for which the model has words carries one dictionary per word,
    in the same order. *)
Theorem words_only_on_request (w : env) (audio : result bytes)
    (language task : option pystr) (word_timestamps : bool) (st st' : state)
    (d : DetailedTranscriptionResponse) :
  transcribe_detailed w audio language task word_timestamps st = (Returned d, st') ->
  Forall (fun ts => ts_words ts <> Some [] /\
                    (word_timestamps = false -> ts_words ts = None)) (d_segments d) /\
  (forall audio_bytes segs info,
     audio = Ok audio_bytes ->
     model_ready w st ->
     model_transcribe w (fs (staged w audio_bytes st))
       (detailed_call_of (mktemp w (fs st)) language task word_timestamps)
     = Ok ({| yielded := segs; failure := None |}, info) ->
     forall i segment,
       segs !! i = Some segment ->
       exists ts,
         d_segments d !! i = Some ts /\
         ts_words ts
         = if word_timestamps
           then match seg_words segment with
                | Some (x :: l) => Some (map word_dict (x :: l))
                | _ => None
                end
           else None).
Proof.
  intros Hd. split.
  - destruct (detailed_segments_shape _ _ _ _ _ _ _ _ Hd) as [->|[segs ->]].
    + constructor.
    + apply Forall_imap. intros i segment. apply seg_data_of_words.
  - intros audio_bytes segs info -> Hr Hm i segment Hi.
    rewrite (transcribe_detailed_staged _ _ _ _ _ _ Hr), Hm in Hd.
    cbn [failure yielded] in Hd.
    destruct segs as [|s0 segs]; [discriminate Hi|].
    assert (Hseg : d_segments d = imap (seg_data_of word_timestamps) (s0 :: segs))
      by (injection Hd as <- _; reflexivity).
    exists (seg_data_of word_timestamps i segment).
    split; [rewrite Hseg, list_lookup_imap, Hi; reflexivity|].
    unfold seg_data_of. cbn [ts_words].
    destruct (seg_words segment) as [[|x l]|], word_timestamps; reflexivity.
Qed.

(** One segment with a word and one with an empty list of words: asked for,
    the first carries its word and the second nothing; not asked for, neither
    carries any. *)
Lemma words_only_on_request_witness :
  (exists d,
     transcribe_detailed
       (sample_env (Ok ({| yielded := with_words; failure := None |}, sample_info)))
       (Ok [x01]) None (Some (str "transcribe")) true initial
     = (Returned d,
        cleaned (sample_env (Ok ({| yielded := with_words; failure := None |},
                                 sample_info))) initial) /\
     map (fun ts => option_map (@length WordDict) (ts_words ts)) (d_segments d)
     = [Some 1%nat; None]) /\
  (exists d,
     transcribe_detailed
       (sample_env (Ok ({| yielded := with_words; failure := None |}, sample_info)))
       (Ok [x01]) None (Some (str "transcribe")) false initial
     = (Returned d,
        cleaned (sample_env (Ok ({| yielded := with_words; failure := None |},
                                 sample_info))) initial) /\
     Forall (fun ts => ts_words ts = None) (d_segments d)).
Proof.
  split.
  - eexists. split; [reflexivity|].
    pose proof (words_only_on_request
                  (sample_env (Ok ({| yielded := with_words; failure := None |},
                                   sample_info)))
                  (Ok [x01]) None (Some (str "transcribe")) true initial _ _ eq_refl)
      as [_ H].
    destruct (H [x01] with_words sample_info eq_refl (or_intror eq_refl) eq_refl
                0%nat _ eq_refl) as (ts0 & [= <-] & _).
    reflexivity.
  - eexists. split; [reflexivity|].
    pose proof (words_only_on_request
                  (sample_env (Ok ({| yielded := with_words; failure := None |},
                                   sample_info)))
                  (Ok [x01]) None (Some (str "transcribe")) false initial _ _ eq_refl)
      as [H _].
    eapply Forall_impl; [exact H|]. intros ts [_ Hts]. exact (Hts eq_refl).
Defined.

(** *** Failures inside the event stream *)

(** X19: [transcribe_stream] calls the model only when the body is read, so
    a failure of the model cannot change the answer any more: the endpoint
    has returned its streaming response (HTTP 200) and the failure comes out
    of the generator. If the call itself fails, no event is yielded; if the
    segments fail after some were yielded, the "info" event and one event per
    segment yielded are out already, and no "done" event follows. No text of
    the failure is absorbed here, not even the no-speech one. The temporary
    file is unlinked in each case. *)
Theorem stream_failure_surfaces_late (w : env) (audio_bytes : bytes)
    (language : option pystr) (st : state) (e : exn) (fuel : nat) :
  model_ready w st ->
  exists r,
    transcribe_stream w (Ok audio_bytes) language st
    = (Returned r, staged w audio_bytes st) /\
    (model_transcribe w (fs (staged w audio_bytes st))
       (stream_call_of (mktemp w (fs st)) language) = Raise e ->
     (1 <= fuel)%nat ->
     exists g,
       drain w fuel (body_iterator r) (staged w audio_bytes st)
       = ([], Failed e, g, cleaned w st) /\
       gen_state_of g = Finished) /\
    (forall segs info,
       model_transcribe w (fs (staged w audio_bytes st))
         (stream_call_of (mktemp w (fs st)) language)
       = Ok ({| yielded := segs; failure := Some e |}, info) ->
       (length segs + 3 <= fuel)%nat ->
       exists g,
         drain w fuel (body_iterator r) (staged w audio_bytes st)
         = (map (sse w)
              (InfoEvent (info_language info) (info_language_probability info)
               :: map segment_event segs),
            Failed e, g, cleaned w st) /\
         gen_state_of g = Finished).
Proof.
  intros Hr. eexists. split; [apply (transcribe_stream_staged _ _ _ _ Hr)|].
  cbn [body_iterator]. split.
  - intros Hm Hfuel. eexists.
    rewrite (drain_created_raises w (mktemp w (fs st)) language
               (staged w audio_bytes st) audio_bytes (fs st) fuel e eq_refl Hm Hfuel).
    split; reflexivity.
  - intros segs info Hm Hfuel. eexists.
    rewrite (drain_created w (mktemp w (fs st)) language (staged w audio_bytes st)
               audio_bytes (fs st) fuel _ info eq_refl Hm Hfuel).
    cbn [failure yielded]. rewrite app_nil_r. split; reflexivity.
Qed.

(** The library's no-speech failure: [transcribe] would answer it with the
    empty result; the stream returns and then fails with it. *)
Lemma stream_failure_surfaces_late_witness :
  exists r g,
    transcribe_stream (sample_env (Raise max_of_empty)) (Ok [x01]) None initial
    = (Returned r, staged (sample_env (Raise max_of_empty)) [x01] initial) /\
    drain (sample_env (Raise max_of_empty)) 1 (body_iterator r)
      (staged (sample_env (Raise max_of_empty)) [x01] initial)
    = ([], Failed max_of_empty, g, cleaned (sample_env (Raise max_of_empty)) initial).
Proof.
  destruct (stream_failure_surfaces_late (sample_env (Raise max_of_empty)) [x01] None
              initial max_of_empty 1 (or_intror eq_refl))
    as (r & H1 & H2 & _).
  destruct (H2 eq_refl ltac:(lia)) as (g & H3 & _).
  exists r, g. split; [exact H1 | exact H3].
Defined.

(** *** A reader that goes away *)

Lemma take_events_inv (w : env) p fs0 n g st :
  gen_inv p fs0 g st ->
  gen_inv p fs0 (take_events w n g st).1 (take_events w n g st).2.
Proof.
  revert g st. induction n as [|n IH]; intros g st Hi; [exact Hi|].
  cbn [take_events]. pose proof (gen_next_inv w p fs0 g st Hi) as Hn.
  destruct (gen_next w g st) as [[o g'] st']. apply IH, Hn.
Qed.

Lemma take_events_started (w : env) n g st :
  gen_state_of g <> Created ->
  gen_state_of (take_events w n g st).1 <> Created.
Proof.
  revert g st. induction n as [|n IH]; intros g st Hc; [exact Hc|].
  cbn [take_events]. pose proof (gen_next_not_created w g st) as Hn.
  destruct (gen_next w g st) as [[o g'] st']. apply IH, Hn.
Qed.

(** X20: the temporary file of a stream is unlinked by the generator, so it
    lives as long as the generator has not run its [finally]. A generator
    closed after it has yielded at least one piece (however many, and also
    after it has ended) has unlinked the file, the other files untouched; a
    generator closed before it was ever started runs none of its body, and
    the file stays behind, with the upload in it. *)
Theorem closed_generator_file (w : env) (audio_bytes : bytes)
    (language : option pystr) (st : state) (n : nat) :
  model_ready w st ->
  exists r,
    transcribe_stream w (Ok audio_bytes) language st
    = (Returned r, staged w audio_bytes st) /\
    fs (disconnect_after w n (body_iterator r) (staged w audio_bytes st)).2
    = match n with
      | O => <[mktemp w (fs st) := audio_bytes]> (fs st)
      | S _ => delete (mktemp w (fs st)) (fs st)
      end /\
    gen_state_of (disconnect_after w n (body_iterator r) (staged w audio_bytes st)).1
    = Finished.
Proof.
  intros Hr. eexists. split; [apply (transcribe_stream_staged _ _ _ _ Hr)|].
  cbn [body_iterator]. unfold disconnect_after.
  destruct n as [|n]; [split; reflexivity|].
  pose proof (take_events_inv w _ _ (S n) _ _ (staged_inv w audio_bytes language st)) as Hi.
  assert (Hc : gen_state_of
                 (take_events w (S n)
                    {| gen_tmp_path := mktemp w (fs st); gen_language := language;
                       gen_state_of := Created |} (staged w audio_bytes st)).1
               <> Created).
  { cbn [take_events]. pose proof (gen_next_not_created w
      {| gen_tmp_path := mktemp w (fs st); gen_language := language;
         gen_state_of := Created |} (staged w audio_bytes st)) as Hn.
    destruct (gen_next w _ _) as [[o g'] st']. apply take_events_started, Hn. }
  destruct (take_events w (S n) _ _) as [g1 st1]. cbn [fst snd] in Hi, Hc.
  split; [apply (gen_close_inv _ _ _ _ Hi Hc)|].
  unfold gen_close, leave.
  destruct (gen_state_of g1); try reflexivity;
    destruct (unlink _ _) as [[|] ?]; reflexivity.
Qed.

(** Closed unread, the file is still there; closed after the first piece,
    it is gone. *)
Lemma closed_generator_file_witness :
  exists r,
    transcribe_stream
      (sample_env (Ok ({| yielded := hello_world; failure := None |}, sample_info)))
      (Ok [x01]) None initial
    = (Returned r,
       staged (sample_env (Ok ({| yielded := hello_world; failure := None |},
                               sample_info))) [x01] initial) /\
    fs (disconnect_after
          (sample_env (Ok ({| yielded := hello_world; failure := None |}, sample_info)))
          0 (body_iterator r)
          (staged (sample_env (Ok ({| yielded := hello_world; failure := None |},
                                   sample_info))) [x01] initial)).2
    !! str "/tmp/tmpk3_x9.wav" = Some [x01] /\
    fs (disconnect_after
          (sample_env (Ok ({| yielded := hello_world; failure := None |}, sample_info)))
          1 (body_iterator r)
          (staged (sample_env (Ok ({| yielded := hello_world; failure := None |},
                                   sample_info))) [x01] initial)).2
    !! str "/tmp/tmpk3_x9.wav" = None.
Proof.
  destruct (closed_generator_file
              (sample_env (Ok ({| yielded := hello_world; failure := None |}, sample_info)))
              [x01] None initial 0 (or_intror eq_refl)) as (r & H1 & H2 & _).
  destruct (closed_generator_file
              (sample_env (Ok ({| yielded := hello_world; failure := None |}, sample_info)))
              [x01] None initial 1 (or_intror eq_refl)) as (r' & H1' & H2' & _).
  exists r. split; [exact H1|].
  assert (r' = r) as -> by congruence.
  rewrite H2, H2'. split; [apply lookup_insert_eq | apply lookup_delete_eq].
Defined.

End WhisperFacts.
